(** * Dental clinic dashboard: optimistic state sync, slot codec, legacy fields

    A shallow embedding of the TypeScript sources

      - [src/lib/types.ts]              (slot codec, legacy-field sync)
      - [src/lib/supabase-queries.ts]   (list fetches, patient upsert, photo upload)
      - [src/components/dashboard.tsx]  (department handlers)
      - [src/components/department-card.tsx]
      - [src/components/weekly-planning.tsx] (slot and appointment handlers)
      - [src/components/photo-modal.tsx]
      - [src/app/page.tsx]              (the session of the day)

    JavaScript strings are sequences of UTF-16 code units and are modelled
    as [list N]; [JSON.stringify], [JSON.parse], [trim] and [split] are
    written out on them.  The state of the page, the persistence calls in
    flight and the toasts shown are one record, the world, and the page runs
    by events: a handler that awaits a persistence call leaves its closure
    (the variables its continuation has captured) among the calls in flight,
    and a later event settles that call as fulfilled or rejected.  A handler
    reads the props of the latest render, that is the current world. *)

From Stdlib Require Import List NArith ZArith Bool String Ascii Lia Arith.
From Stdlib Require Import DecimalString Permutation.
Import ListNotations.

Set Warnings "-register-all".
#[local] Open Scope list_scope.

(* ================================================================== *)
(** ** JavaScript strings *)

(** A string value: its UTF-16 code units. *)
Definition jsstring : Type := list N.

(** An ASCII literal as a JavaScript string. *)
Definition js (s : string) : jsstring :=
  map N_of_ascii (list_ascii_of_string s).

Module JsString.

Definition t : Type := jsstring.

Fixpoint eqb (a b : t) : bool :=
  match a, b with
  | [], [] => true
  | x :: a', y :: b' => N.eqb x y && eqb a' b'
  | _, _ => false
  end.

(** [!s] on a string: only the empty string is falsy. *)
Definition falsy (s : t) : bool :=
  match s with [] => true | _ => false end.

(** [a || b] on strings. *)
Definition or_else (a b : t) : t := if falsy a then b else a.

(** ECMAScript WhiteSpace and LineTerminator code points, the set that
    [String.prototype.trim] strips. *)
Definition is_white_space (c : N) : bool :=
  existsb (N.eqb c)
    [9; 10; 11; 12; 13; 32; 160; 5760;
     8192; 8193; 8194; 8195; 8196; 8197; 8198; 8199; 8200; 8201; 8202;
     8232; 8233; 8239; 8287; 12288; 65279]%N.

Fixpoint trimStart (s : t) : t :=
  match s with
  | c :: r => if is_white_space c then trimStart r else s
  | [] => []
  end.

Definition trimEnd (s : t) : t := rev (trimStart (rev s)).

Definition trim (s : t) : t := trimEnd (trimStart s).

(** [sep] occurs at the head of [s]. *)
Fixpoint startsWith (sep s : t) : bool :=
  match sep, s with
  | [], _ => true
  | x :: sep', y :: s' => N.eqb x y && startsWith sep' s'
  | _ :: _, [] => false
  end.

(** [a <= b] on strings: code units compared from the left. *)
Fixpoint leb (a b : t) : bool :=
  match a, b with
  | [], _ => true
  | _ :: _, [] => false
  | x :: a', y :: b' => (x <? y)%N || ((x =? y)%N && leb a' b')
  end.

(** [s.split(sep)] for a non-empty separator.  [cur] holds the current
    piece reversed; [skip] counts the separator units still to drop. *)
Fixpoint split_go (sep s cur : t) (skip : nat) : list t :=
  match s with
  | [] => [rev cur]
  | c :: r =>
      match skip with
      | S k => split_go sep r cur k
      | O =>
          if startsWith sep (c :: r)
          then rev cur :: split_go sep r [] (List.length sep - 1)
          else split_go sep r (c :: cur) 0
      end
  end.

Definition split (s sep : t) : list t := split_go sep s [] 0.

(** Decimal rendering of a number, as in a template literal. *)
Definition of_N (k : N) : t :=
  js (NilEmpty.string_of_uint (N.to_uint k)).

End JsString.


(* ================================================================== *)
(** ** JSON values, [JSON.stringify] and [JSON.parse] *)

Module Json.

(** A parsed JSON value.  A number keeps its literal: the codec never
    computes with it. *)
Inductive value : Type :=
| JNull
| JBool (b : bool)
| JNumber (literal : jsstring)
| JString (s : jsstring)
| JArray (items : list value)
| JObject (fields : list (jsstring * value)).

(** Code units of the JSON punctuation. *)
Definition quote_mark : N := 34.
Definition backslash : N := 92.
Definition lbrace : N := 123.
Definition rbrace : N := 125.
Definition lbracket : N := 91.
Definition rbracket : N := 93.
Definition colon : N := 58.
Definition comma : N := 44.

(** *** Hexadecimal digits of a [\uXXXX] escape *)

Definition hex_digit (k : N) : N :=
  if (k <? 10)%N then (48 + k)%N else (87 + k)%N.

Definition hex_value (c : N) : option N :=
  if ((48 <=? c) && (c <=? 57))%N then Some (c - 48)%N
  else if ((97 <=? c) && (c <=? 102))%N then Some (c - 87)%N
  else if ((65 <=? c) && (c <=? 70))%N then Some (c - 55)%N
  else None.

(** The six units [\uXXXX] of a code unit below 65536. *)
Definition unicode_escape (c : N) : jsstring :=
  [backslash; 117;
   hex_digit (c / 4096 mod 16); hex_digit (c / 256 mod 16);
   hex_digit (c / 16 mod 16); hex_digit (c mod 16)]%N.

Definition is_high_surrogate (c : N) : bool := ((55296 <=? c) && (c <=? 56319))%N.
Definition is_low_surrogate (c : N) : bool := ((56320 <=? c) && (c <=? 57343))%N.
Definition is_surrogate (c : N) : bool := ((55296 <=? c) && (c <=? 57343))%N.

(** *** [JSON.stringify] *)

(** QuoteJSONString on one code unit that is not part of a surrogate
    pair. *)
Definition quote_unit (c : N) : jsstring :=
  if (c =? 8)%N then [backslash; 98]%N
  else if (c =? 9)%N then [backslash; 116]%N
  else if (c =? 10)%N then [backslash; 110]%N
  else if (c =? 12)%N then [backslash; 102]%N
  else if (c =? 13)%N then [backslash; 114]%N
  else if (c =? quote_mark)%N then [backslash; quote_mark]
  else if (c =? backslash)%N then [backslash; backslash]
  else if (c <? 32)%N || is_surrogate c then unicode_escape c
  else [c].

(** The body of a quoted string: a high surrogate followed by a low one is
    copied as a pair, a lone surrogate is escaped. *)
Fixpoint quote_units (s : jsstring) : jsstring :=
  match s with
  | [] => []
  | c :: r =>
      match r with
      | c' :: r' =>
          if is_high_surrogate c && is_low_surrogate c'
          then c :: c' :: quote_units r'
          else quote_unit c ++ quote_units r
      | [] => quote_unit c
      end
  end.

Definition quote (s : jsstring) : jsstring :=
  quote_mark :: quote_units s ++ [quote_mark].

(** Items separated by commas. *)
Fixpoint join_comma (parts : list jsstring) : jsstring :=
  match parts with
  | [] => []
  | [p] => p
  | p :: rest => p ++ comma :: join_comma rest
  end.

(** [JSON.stringify(v)] without indentation. *)
Fixpoint stringify (v : value) : jsstring :=
  match v with
  | JNull => js "null"
  | JBool true => js "true"
  | JBool false => js "false"
  | JNumber literal => literal
  | JString s => quote s
  | JArray items =>
      lbracket :: join_comma (map stringify items) ++ [rbracket]
  | JObject fields =>
      lbrace ::
        join_comma (map (fun kv => quote (fst kv) ++ colon :: stringify (snd kv)) fields)
        ++ [rbrace]
  end.

(** *** [JSON.parse] *)

(** JSON white space: space, tab, line feed, carriage return. *)
Definition is_ws (c : N) : bool :=
  ((c =? 32) || (c =? 9) || (c =? 10) || (c =? 13))%N.

Fixpoint skip_ws (s : jsstring) : jsstring :=
  match s with
  | c :: r => if is_ws c then skip_ws r else s
  | [] => []
  end.

Definition is_digit (c : N) : bool := ((48 <=? c) && (c <=? 57))%N.

(** The longest prefix of digits and what follows it. *)
Fixpoint span_digits (s : jsstring) : jsstring * jsstring :=
  match s with
  | c :: r =>
      if is_digit c
      then let (ds, rest) := span_digits r in (c :: ds, rest)
      else ([], s)
  | [] => ([], [])
  end.

(** The code unit written by a one-letter escape. *)
Definition simple_escape (e : N) : option N :=
  if (e =? quote_mark)%N then Some quote_mark
  else if (e =? backslash)%N then Some backslash
  else if (e =? 47)%N then Some 47%N
  else if (e =? 98)%N then Some 8%N
  else if (e =? 102)%N then Some 12%N
  else if (e =? 110)%N then Some 10%N
  else if (e =? 114)%N then Some 13%N
  else if (e =? 116)%N then Some 9%N
  else None.

Definition hex4 (h1 h2 h3 h4 : N) : option N :=
  match hex_value h1, hex_value h2, hex_value h3, hex_value h4 with
  | Some a, Some b, Some c, Some d => Some (a * 4096 + b * 256 + c * 16 + d)%N
  | _, _, _, _ => None
  end.

(** The characters of a string literal after its opening quote: the
    decoded string and what follows the closing quote. *)
Fixpoint parse_chars (s : jsstring) : option (jsstring * jsstring) :=
  match s with
  | [] => None
  | c :: r =>
      if (c =? quote_mark)%N then Some ([], r)
      else if (c =? backslash)%N then
        match r with
        | e :: r1 =>
            if (e =? 117)%N then
              match r1 with
              | h1 :: h2 :: h3 :: h4 :: r2 =>
                  match hex4 h1 h2 h3 h4, parse_chars r2 with
                  | Some u, Some (str, rest) => Some (u :: str, rest)
                  | _, _ => None
                  end
              | _ => None
              end
            else
              match simple_escape e, parse_chars r1 with
              | Some u, Some (str, rest) => Some (u :: str, rest)
              | _, _ => None
              end
        | [] => None
        end
      else if (c <? 32)%N then None
      else
        match parse_chars r with
        | Some (str, rest) => Some (c :: str, rest)
        | None => None
        end
  end.

(** One or more digits. *)
Definition digits1 (s : jsstring) : option (jsstring * jsstring) :=
  match span_digits s with
  | ([], _) => None
  | (ds, rest) => Some (ds, rest)
  end.

(** A number literal: an optional minus sign; an integer part, either a
    single zero or digits that do not start with zero; an optional
    fraction, a point and one or more digits; an optional exponent, [e] or
    [E], an optional sign and one or more digits. *)
Definition parse_number (s : jsstring) : option (jsstring * jsstring) :=
  let (sign, s1) :=
    match s with
    | c :: r => if (c =? 45)%N then ([c], r) else ([], s)
    | [] => ([], s)
    end in
  let int_part :=
    match s1 with
    | c :: r => if (c =? 48)%N then Some ([c], r) else digits1 s1
    | [] => None
    end in
  match int_part with
  | None => None
  | Some (ip, s2) =>
      let frac :=
        match s2 with
        | c :: r =>
            if (c =? 46)%N then
              match digits1 r with
              | Some (ds, rest) => Some (c :: ds, rest)
              | None => None
              end
            else Some ([], s2)
        | [] => Some ([], s2)
        end in
      match frac with
      | None => None
      | Some (fp, s3) =>
          let expo :=
            match s3 with
            | c :: r =>
                if ((c =? 101) || (c =? 69))%N then
                  let (esign, r') :=
                    match r with
                    | g :: r0 =>
                        if ((g =? 43) || (g =? 45))%N then ([g], r0) else ([], r)
                    | [] => ([], r)
                    end in
                  match digits1 r' with
                  | Some (ds, rest) => Some (c :: esign ++ ds, rest)
                  | None => None
                  end
                else Some ([], s3)
            | [] => Some ([], s3)
            end in
          match expo with
          | None => None
          | Some (ep, s4) => Some (sign ++ ip ++ fp ++ ep, s4)
          end
      end
  end.

(** A literal keyword at the head of the input. *)
Definition keyword (k : jsstring) (v : value) (s : jsstring) : option (value * jsstring) :=
  if JsString.startsWith k s then Some (v, skipn (List.length k) s) else None.

(** Property definition on a parsed object: a repeated key keeps its
    place and takes the last value.  (The members are kept in the order of
    the text; the enumeration order of a JavaScript object, which lists
    integer-like keys first, is not modelled.) *)
Fixpoint set_field (k : jsstring) (v : value) (o : list (jsstring * value))
  : list (jsstring * value) :=
  match o with
  | [] => [(k, v)]
  | (k', v') :: rest =>
      if JsString.eqb k' k then (k', v) :: rest
      else (k', v') :: set_field k v rest
  end.

(** A value, the elements of an array after the first [[], and the
    members of an object after the first [{]; [fuel] bounds the recursion
    depth. *)
Fixpoint parse_value (fuel : nat) (s : jsstring) : option (value * jsstring) :=
  match fuel with
  | O => None
  | S f =>
      match skip_ws s with
      | [] => None
      | c :: r =>
          if (c =? lbrace)%N then
            match skip_ws r with
            | c' :: r' =>
                if (c' =? rbrace)%N then Some (JObject [], r')
                else
                  match parse_members f [] (c' :: r') with
                  | Some (o, rest) => Some (JObject o, rest)
                  | None => None
                  end
            | [] => None
            end
          else if (c =? lbracket)%N then
            match skip_ws r with
            | c' :: r' =>
                if (c' =? rbracket)%N then Some (JArray [], r')
                else
                  match parse_elements f (c' :: r') with
                  | Some (l, rest) => Some (JArray l, rest)
                  | None => None
                  end
            | [] => None
            end
          else if (c =? quote_mark)%N then
            match parse_chars r with
            | Some (str, rest) => Some (JString str, rest)
            | None => None
            end
          else if (c =? 116)%N then keyword (js "true") (JBool true) (c :: r)
          else if (c =? 102)%N then keyword (js "false") (JBool false) (c :: r)
          else if (c =? 110)%N then keyword (js "null") JNull (c :: r)
          else
            match parse_number (c :: r) with
            | Some (lit, rest) => Some (JNumber lit, rest)
            | None => None
            end
      end
  end

with parse_elements (fuel : nat) (s : jsstring) : option (list value * jsstring) :=
  match fuel with
  | O => None
  | S f =>
      match parse_value f s with
      | Some (v, rest) =>
          match skip_ws rest with
          | c :: r =>
              if (c =? comma)%N then
                match parse_elements f r with
                | Some (l, rest') => Some (v :: l, rest')
                | None => None
                end
              else if (c =? rbracket)%N then Some ([v], r)
              else None
          | [] => None
          end
      | None => None
      end
  end

with parse_members (fuel : nat) (acc : list (jsstring * value)) (s : jsstring)
  : option (list (jsstring * value) * jsstring) :=
  match fuel with
  | O => None
  | S f =>
      match skip_ws s with
      | c :: r =>
          if (c =? quote_mark)%N then
            match parse_chars r with
            | Some (k, rest) =>
                match skip_ws rest with
                | c1 :: r1 =>
                    if (c1 =? colon)%N then
                      match parse_value f r1 with
                      | Some (v, rest1) =>
                          match skip_ws rest1 with
                          | c2 :: r2 =>
                              if (c2 =? comma)%N
                              then parse_members f (set_field k v acc) r2
                              else if (c2 =? rbrace)%N
                              then Some (set_field k v acc, r2)
                              else None
                          | [] => None
                          end
                      | None => None
                      end
                    else None
                | [] => None
                end
            | None => None
            end
          else None
      | [] => None
      end
  end.

(** Fuel that no input can exhaust: every two levels of the recursion
    read at least one code unit. *)
Definition fuel_for (s : jsstring) : nat := 2 * List.length s + 2.

(** [JSON.parse(s)]: [None] stands for the thrown SyntaxError. *)
Definition parse (s : jsstring) : option value :=
  match parse_value (fuel_for s) s with
  | Some (v, rest) =>
      match skip_ws rest with
      | [] => Some v
      | _ :: _ => None
      end
  | None => None
  end.

(** A code unit that a string literal holds as itself. *)
Definition plain (c : N) : Prop :=
  (c =? quote_mark)%N = false /\ (c =? backslash)%N = false /\ (c <? 32)%N = false.

(** *** Fuel

    A parser called with fuel [f] is independent of its fuel when every
    result it gives leaves a shorter input and is given again by any fuel of
    at least twice the number of code units read. *)
Definition value_ok (f : nat) : Prop :=
  forall s v rest, parse_value f s = Some (v, rest) ->
    (List.length rest < List.length s)%nat
    /\ forall g, (2 * (List.length s - List.length rest) <= g)%nat ->
                 parse_value g s = Some (v, rest).

Definition elements_ok (f : nat) : Prop :=
  forall s l rest, parse_elements f s = Some (l, rest) ->
    (List.length rest < List.length s)%nat
    /\ forall g, (2 * (List.length s - List.length rest) <= g)%nat ->
                 parse_elements g s = Some (l, rest).

Definition members_ok (f : nat) : Prop :=
  forall acc s o rest, parse_members f acc s = Some (o, rest) ->
    (List.length rest < List.length s)%nat
    /\ forall g, (2 * (List.length s - List.length rest) <= g)%nat ->
                 parse_members g acc s = Some (o, rest).

End Json.

(* ================================================================== *)
(** ** [src/lib/types.ts]: the weekly-slot codec *)

(** [interface WeeklySlotData { n; t; d; pid }] *)
Module WeeklySlotData.
Record data : Type := mk
  { n : jsstring;
    t : jsstring;
    d : jsstring;
    pid : jsstring }.

(** The object with the four properties in declaration order, as every
    construction site of the source writes it. *)
Definition to_object (x : data) : list (jsstring * Json.value) :=
  [ (js "n", Json.JString (n x));
    (js "t", Json.JString (t x));
    (js "d", Json.JString (d x));
    (js "pid", Json.JString (pid x)) ].
End WeeklySlotData.

(** The result type: the empty string, the break sentinel ["ISTIRAHAT"] or
    a [WeeklySlotData].  The structured
    case carries the object itself: whatever [JSON.parse] returned is cast
    to [WeeklySlotData] without a check of its other properties. *)
Inductive SlotValue : Type :=
| SlotEmpty
| SlotBreak
| SlotData (o : list (jsstring * Json.value)).

(** [parsed && typeof parsed === "object"]: [typeof] is ["object"] for
    null, arrays and objects, and of these null alone is falsy. *)
Definition is_object (v : Json.value) : bool :=
  match v with
  | Json.JArray _ | Json.JObject _ => true
  | _ => false
  end.

(** ["n" in parsed] for an array or an object: an own property of an
    object; an array has its indices and [length] only, and neither
    [Object.prototype] nor [Array.prototype] has a property [n]. *)
Definition n_in (v : Json.value) : bool :=
  match v with
  | Json.JObject o => existsb (fun kv => JsString.eqb (fst kv) (js "n")) o
  | _ => false
  end.

(** [parts[i]] with [undefined] read as the empty string, which is what
    [parts[i] || fallback] makes of it. *)
Definition part (parts : list jsstring) (i : nat) : jsstring := nth i parts [].

(** [parseSlotValue], types.ts lines 81-92. *)
Definition parseSlotValue (val : jsstring) : SlotValue :=
  if JsString.falsy val || JsString.eqb (JsString.trim val) [] then SlotEmpty
  else if JsString.eqb val (js "ISTIRAHAT") then SlotBreak
  else
    match Json.parse val with
    | Some parsed =>
        if is_object parsed && n_in parsed
        then match parsed with
             | Json.JObject o => SlotData o
             | _ => SlotEmpty
             end
        else SlotEmpty
    | None =>
        let parts := JsString.split val (js " - ") in
        SlotData (WeeklySlotData.to_object
                    {| WeeklySlotData.n := JsString.or_else (part parts 0) val;
                       WeeklySlotData.t := [];
                       WeeklySlotData.d := JsString.or_else (part parts 1) [];
                       WeeklySlotData.pid := [] |})
    end.

(** [serializeSlotData], types.ts lines 94-96. *)
Definition serializeSlotData (data : WeeklySlotData.data) : jsstring :=
  Json.stringify (Json.JObject (WeeklySlotData.to_object data)).

(** The value the fallback branch builds from a raw cell. *)
Definition legacy_split (val : jsstring) : WeeklySlotData.data :=
  {| WeeklySlotData.n := JsString.or_else (part (JsString.split val (js " - ")) 0) val;
     WeeklySlotData.t := [];
     WeeklySlotData.d := JsString.or_else (part (JsString.split val (js " - ")) 1) [];
     WeeklySlotData.pid := [] |}.

(* ================================================================== *)
(** ** [src/lib/types.ts]: the data model *)

(** [type PatientStatus], the six ordered stages. *)
Inductive PatientStatus : Type :=
| BelumDikerjakan
| IdentifikasiPasien
| DiskusiDPJP
| Tindakan
| KontrolPascaTindakan
| Selesai.

Definition PatientStatus_eqb (a b : PatientStatus) : bool :=
  match a, b with
  | BelumDikerjakan, BelumDikerjakan
  | IdentifikasiPasien, IdentifikasiPasien
  | DiskusiDPJP, DiskusiDPJP
  | Tindakan, Tindakan
  | KontrolPascaTindakan, KontrolPascaTindakan
  | Selesai, Selesai => true
  | _, _ => false
  end.

(** [STATUS_WEIGHT] *)
Definition STATUS_WEIGHT (s : PatientStatus) : N :=
  match s with
  | BelumDikerjakan => 0
  | IdentifikasiPasien => 1
  | DiskusiDPJP => 2
  | Tindakan => 3
  | KontrolPascaTindakan => 4
  | Selesai => 5
  end.

Module Photo.
Record t : Type := mk
  { id : jsstring;
    url : jsstring;
    storagePath : jsstring }.
End Photo.

Module PatientEntry.
Record t : Type := mk
  { id : jsstring;
    namaPasien : jsstring;
    nomorTelp : jsstring }.
End PatientEntry.

Module Patient.
Record t : Type := mk
  { id : jsstring;
    requirement : jsstring;
    status : PatientStatus;
    pasienList : list PatientEntry.t;
    hasPasien : bool;
    namaPasien : jsstring;
    nomorTelp : jsstring;
    photos : list Photo.t }.
End Patient.

Module SubDepartment.
Record t : Type := mk
  { id : jsstring;
    name : jsstring;
    patients : list Patient.t }.
End SubDepartment.

(** [subDepartments?: SubDepartment[]]: [None] is [undefined]. *)
Module Department.
Record t : Type := mk
  { id : jsstring;
    name : jsstring;
    patients : list Patient.t;
    hasSubDepartments : bool;
    subDepartments : option (list SubDepartment.t) }.
End Department.

Module Appointment.
Record t : Type := mk
  { id : jsstring;
    tanggal : jsstring;
    jam : jsstring;
    kubikel : jsstring;
    rencanaPerawatan : jsstring;
    kasus : jsstring;
    departemen : jsstring;
    namaPasien : jsstring;
    nomorTelp : jsstring;
    checklist : bool }.
End Appointment.

Module WeeklySlot.
Record t : Type := mk
  { id : jsstring;
    jam : jsstring;
    senin : jsstring;
    selasa : jsstring;
    rabu : jsstring;
    kamis : jsstring;
    jumat : jsstring;
    sabtu : jsstring;
    minggu : jsstring }.
End WeeklySlot.

(** [syncLegacyFields], types.ts lines 99-107: [first] is
    [p.pasienList[0]], [undefined] on an empty list. *)
Definition syncLegacyFields (p : Patient.t) : Patient.t :=
  let first := nth_error (Patient.pasienList p) 0 in
  {| Patient.id := Patient.id p;
     Patient.requirement := Patient.requirement p;
     Patient.status := Patient.status p;
     Patient.pasienList := Patient.pasienList p;
     Patient.hasPasien := (0 <? List.length (Patient.pasienList p))%nat;
     Patient.namaPasien :=
       match first with
       | Some e => PatientEntry.namaPasien e
       | None => []
       end;
     Patient.nomorTelp :=
       match first with
       | Some e => PatientEntry.nomorTelp e
       | None => []
       end;
     Patient.photos := Patient.photos p |}.

(** [DEFAULT_WEEKLY]: seventeen hourly rows, the 12:00 row a break on every
    day. *)
Definition blank_slot (id jam : string) : WeeklySlot.t :=
  {| WeeklySlot.id := js id; WeeklySlot.jam := js jam;
     WeeklySlot.senin := []; WeeklySlot.selasa := []; WeeklySlot.rabu := [];
     WeeklySlot.kamis := []; WeeklySlot.jumat := []; WeeklySlot.sabtu := [];
     WeeklySlot.minggu := [] |}.

Definition break_slot (id jam : string) : WeeklySlot.t :=
  {| WeeklySlot.id := js id; WeeklySlot.jam := js jam;
     WeeklySlot.senin := js "ISTIRAHAT"; WeeklySlot.selasa := js "ISTIRAHAT";
     WeeklySlot.rabu := js "ISTIRAHAT"; WeeklySlot.kamis := js "ISTIRAHAT";
     WeeklySlot.jumat := js "ISTIRAHAT"; WeeklySlot.sabtu := js "ISTIRAHAT";
     WeeklySlot.minggu := js "ISTIRAHAT" |}.

Definition DEFAULT_WEEKLY : list WeeklySlot.t :=
  [ blank_slot "w1" "08:00"; blank_slot "w2" "09:00"; blank_slot "w3" "10:00";
    blank_slot "w4" "11:00"; break_slot "w5" "12:00"; blank_slot "w6" "13:00";
    blank_slot "w7" "14:00"; blank_slot "w8" "15:00"; blank_slot "w9" "16:00";
    blank_slot "w10" "17:00"; blank_slot "w11" "18:00"; blank_slot "w12" "19:00";
    blank_slot "w13" "20:00"; blank_slot "w14" "21:00"; blank_slot "w15" "22:00";
    blank_slot "w16" "23:00"; blank_slot "w17" "24:00" ].

(* ================================================================== *)
(** ** [src/lib/supabase-queries.ts] *)

(** What a query resolves to: [{ data, error }].  [data = None] is [null];
    [error = Some msg] is an error object. *)
Record Response (A : Type) : Type := mkResponse
  { data : option (list A);
    error : option jsstring }.

Arguments mkResponse {A} _ _.
Arguments data {A} _.
Arguments error {A} _.

(** [error || !data] *)
Definition failed {A : Type} (r : Response A) : bool :=
  match error r, data r with
  | None, Some _ => false
  | _, _ => true
  end.

(** [data || []] *)
Definition rows {A : Type} (r : Response A) : list A :=
  match data r with
  | Some l => l
  | None => []
  end.

Module DepartmentRow.
Record t : Type := mk
  { id : jsstring;
    name : jsstring;
    has_sub_departments : bool }.
End DepartmentRow.

Module SubDepartmentRow.
Record t : Type := mk
  { id : jsstring;
    department_id : jsstring;
    name : jsstring }.
End SubDepartmentRow.

(** A row of [patients]; the nullable columns are options. *)
Module PatientRow.
Record t : Type := mk
  { id : jsstring;
    department_id : jsstring;
    sub_department_id : option jsstring;
    requirement : jsstring;
    status : PatientStatus;
    has_pasien : bool;
    nama_pasien : option jsstring;
    nomor_telp : option jsstring;
    pasien_list : option jsstring }.
End PatientRow.

Module PhotoRow.
Record t : Type := mk
  { id : jsstring;
    patient_id : jsstring;
    storage_path : jsstring;
    photo_url : jsstring }.
End PhotoRow.

Module AppointmentRow.
Record t : Type := mk
  { id : jsstring;
    tanggal : jsstring;
    jam : jsstring;
    kubikel : jsstring;
    rencana_perawatan : jsstring;
    kasus : jsstring;
    departemen : jsstring;
    nama_pasien : jsstring;
    nomor_telp : jsstring;
    checklist : bool }.
End AppointmentRow.

Module WeeklySlotRow.
Record t : Type := mk
  { id : jsstring;
    jam : jsstring;
    senin : option jsstring;
    selasa : option jsstring;
    rabu : option jsstring;
    kamis : option jsstring;
    jumat : option jsstring;
    sabtu : option jsstring;
    minggu : option jsstring }.
End WeeklySlotRow.

(** A nullable string (a text column, an optional argument) is truthy when
    it is a non-empty string. *)
Definition opt_truthy (c : option jsstring) : bool :=
  match c with
  | Some s => negb (JsString.falsy s)
  | None => false
  end.

(** The nullable string with [null] and [undefined] read as the empty
    string. *)
Definition opt_or_empty (c : option jsstring) : jsstring :=
  match c with
  | Some s => s
  | None => []
  end.

(** *** The entry list kept as JSON text in [pasien_list] *)

Definition entry_to_json (e : PatientEntry.t) : Json.value :=
  Json.JObject
    [ (js "id", Json.JString (PatientEntry.id e));
      (js "namaPasien", Json.JString (PatientEntry.namaPasien e));
      (js "nomorTelp", Json.JString (PatientEntry.nomorTelp e)) ].

Definition field_string (k : jsstring) (o : list (jsstring * Json.value)) : option jsstring :=
  match find (fun kv => JsString.eqb (fst kv) k) o with
  | Some (_, Json.JString s) => Some s
  | _ => None
  end.

Definition entry_of_json (v : Json.value) : option PatientEntry.t :=
  match v with
  | Json.JObject o =>
      match field_string (js "id") o, field_string (js "namaPasien") o,
            field_string (js "nomorTelp") o with
      | Some i, Some nm, Some tel =>
          Some {| PatientEntry.id := i;
                  PatientEntry.namaPasien := nm;
                  PatientEntry.nomorTelp := tel |}
      | _, _, _ => None
      end
  | _ => None
  end.

Fixpoint entries_of_items (items : list Json.value) : option (list PatientEntry.t) :=
  match items with
  | [] => Some []
  | v :: rest =>
      match entry_of_json v, entries_of_items rest with
      | Some e, Some l => Some (e :: l)
      | _, _ => None
      end
  end.

(** The parsed text read at type [PatientEntry[]], the type the source
    gives it without a check.  The column is only ever written by
    [upsertPatient], as the JSON text of an entry array; any other JSON
    value is outside the declared type and the model reads it as no
    entries. *)
Definition entries_of_json (v : Json.value) : list PatientEntry.t :=
  match v with
  | Json.JArray items =>
      match entries_of_items items with
      | Some l => l
      | None => []
      end
  | _ => []
  end.

(** *** [fetchDepartments], lines 20-93 *)

(** [photosByPatient]: the photos grouped under their [patient_id], in
    reading order. *)
Fixpoint push_photo (k : jsstring) (ph : Photo.t) (m : list (jsstring * list Photo.t))
  : list (jsstring * list Photo.t) :=
  match m with
  | [] => [(k, [ph])]
  | (k', l) :: rest =>
      if JsString.eqb k' k then (k', l ++ [ph]) :: rest
      else (k', l) :: push_photo k ph rest
  end.

Definition photosByPatient (photos : list PhotoRow.t) : list (jsstring * list Photo.t) :=
  fold_left
    (fun m ph =>
       push_photo (PhotoRow.patient_id ph)
         {| Photo.id := PhotoRow.id ph;
            Photo.url := PhotoRow.photo_url ph;
            Photo.storagePath := PhotoRow.storage_path ph |} m)
    photos [].

(** [photosByPatient[id] || []] *)
Definition photos_of (m : list (jsstring * list Photo.t)) (id : jsstring) : list Photo.t :=
  match find (fun kv => JsString.eqb (fst kv) id) m with
  | Some (_, l) => l
  | None => []
  end.

(** [toPatient], lines 49-76. *)
Definition toPatient (m : list (jsstring * list Photo.t)) (row : PatientRow.t) : Patient.t :=
  let parsed : list PatientEntry.t :=
    if opt_truthy (PatientRow.pasien_list row) then
      match Json.parse (opt_or_empty (PatientRow.pasien_list row)) with
      | Some v => entries_of_json v
      | None => []
      end
    else [] in
  let pasienList : list PatientEntry.t :=
    if ((List.length parsed =? 0)%nat && PatientRow.has_pasien row
        && opt_truthy (PatientRow.nama_pasien row))%bool
    then [ {| PatientEntry.id := js "pe-" ++ PatientRow.id row;
              PatientEntry.namaPasien := opt_or_empty (PatientRow.nama_pasien row);
              PatientEntry.nomorTelp := opt_or_empty (PatientRow.nomor_telp row) |} ]
    else parsed in
  let first := nth_error pasienList 0 in
  {| Patient.id := PatientRow.id row;
     Patient.requirement := PatientRow.requirement row;
     Patient.status := PatientRow.status row;
     Patient.pasienList := pasienList;
     Patient.hasPasien := (0 <? List.length pasienList)%nat;
     Patient.namaPasien :=
       match first with
       | Some e => PatientEntry.namaPasien e
       | None => opt_or_empty (PatientRow.nama_pasien row)
       end;
     Patient.nomorTelp :=
       match first with
       | Some e => PatientEntry.nomorTelp e
       | None => opt_or_empty (PatientRow.nomor_telp row)
       end;
     Patient.photos := photos_of m (PatientRow.id row) |}.

(** The four queries of [fetchDepartments] resolve to [depts], [subs],
    [patients] and [photos]; only the first is checked for an error. *)
Definition fetchDepartments
    (depts : Response DepartmentRow.t) (subs : Response SubDepartmentRow.t)
    (patients : Response PatientRow.t) (photos : Response PhotoRow.t)
  : list Department.t :=
  if failed depts then []
  else
    let m := photosByPatient (rows photos) in
    map (fun d =>
           let deptSubs :=
             filter (fun s => JsString.eqb (SubDepartmentRow.department_id s)
                                (DepartmentRow.id d)) (rows subs) in
           let directPatients :=
             filter (fun p => JsString.eqb (PatientRow.department_id p) (DepartmentRow.id d)
                              && negb (opt_truthy (PatientRow.sub_department_id p)))
               (rows patients) in
           {| Department.id := DepartmentRow.id d;
              Department.name := DepartmentRow.name d;
              Department.hasSubDepartments := DepartmentRow.has_sub_departments d;
              Department.patients := map (toPatient m) directPatients;
              Department.subDepartments :=
                Some (map (fun s =>
                             {| SubDepartment.id := SubDepartmentRow.id s;
                                SubDepartment.name := SubDepartmentRow.name s;
                                SubDepartment.patients :=
                                  map (toPatient m)
                                    (filter (fun p =>
                                               match PatientRow.sub_department_id p with
                                               | Some i => JsString.eqb i (SubDepartmentRow.id s)
                                               | None => false
                                               end) (rows patients)) |})
                        deptSubs) |})
        (rows depts).

(** *** [fetchAppointments], lines 201-219 *)
Definition fetchAppointments (r : Response AppointmentRow.t) : list Appointment.t :=
  if failed r then []
  else
    map (fun row =>
           {| Appointment.id := AppointmentRow.id row;
              Appointment.tanggal := AppointmentRow.tanggal row;
              Appointment.jam := firstn 5 (AppointmentRow.jam row);
              Appointment.kubikel := AppointmentRow.kubikel row;
              Appointment.rencanaPerawatan := AppointmentRow.rencana_perawatan row;
              Appointment.kasus := AppointmentRow.kasus row;
              Appointment.departemen := AppointmentRow.departemen row;
              Appointment.namaPasien := AppointmentRow.nama_pasien row;
              Appointment.nomorTelp := AppointmentRow.nomor_telp row;
              Appointment.checklist := AppointmentRow.checklist row |})
        (rows r).

(** *** [fetchWeeklySlots], lines 242-254 *)
Definition fetchWeeklySlots (r : Response WeeklySlotRow.t) : list WeeklySlot.t :=
  if failed r then []
  else
    map (fun row =>
           {| WeeklySlot.id := WeeklySlotRow.id row;
              WeeklySlot.jam := WeeklySlotRow.jam row;
              WeeklySlot.senin := opt_or_empty (WeeklySlotRow.senin row);
              WeeklySlot.selasa := opt_or_empty (WeeklySlotRow.selasa row);
              WeeklySlot.rabu := opt_or_empty (WeeklySlotRow.rabu row);
              WeeklySlot.kamis := opt_or_empty (WeeklySlotRow.kamis row);
              WeeklySlot.jumat := opt_or_empty (WeeklySlotRow.jumat row);
              WeeklySlot.sabtu := opt_or_empty (WeeklySlotRow.sabtu row);
              WeeklySlot.minggu := opt_or_empty (WeeklySlotRow.minggu row) |})
        (rows r).

(** *** [upsertPatient], lines 123-140: the row it writes *)

(** [subDepartmentId || null] *)
Definition or_null (s : option jsstring) : option jsstring :=
  match s with
  | Some i => if JsString.falsy i then None else Some i
  | None => None
  end.

Definition upsertPatient_row (patient : Patient.t) (departmentId : jsstring)
    (subDepartmentId : option jsstring) : PatientRow.t :=
  let synced := syncLegacyFields patient in
  {| PatientRow.id := Patient.id synced;
     PatientRow.department_id := departmentId;
     PatientRow.sub_department_id := or_null subDepartmentId;
     PatientRow.requirement := Patient.requirement synced;
     PatientRow.status := Patient.status synced;
     PatientRow.has_pasien := Patient.hasPasien synced;
     PatientRow.nama_pasien := Some (Patient.namaPasien synced);
     PatientRow.nomor_telp := Some (Patient.nomorTelp synced);
     PatientRow.pasien_list :=
       Some (Json.stringify (Json.JArray (map entry_to_json (Patient.pasienList synced)))) |}.

(* ================================================================== *)
(** ** Record updates ([{ ...x, field: v }]) and array helpers *)

Definition Patient_with_status (p : Patient.t) (s : PatientStatus) : Patient.t :=
  {| Patient.id := Patient.id p;
     Patient.requirement := Patient.requirement p;
     Patient.status := s;
     Patient.pasienList := Patient.pasienList p;
     Patient.hasPasien := Patient.hasPasien p;
     Patient.namaPasien := Patient.namaPasien p;
     Patient.nomorTelp := Patient.nomorTelp p;
     Patient.photos := Patient.photos p |}.

Definition Patient_with_data (p : Patient.t) (req : jsstring) (s : PatientStatus) : Patient.t :=
  {| Patient.id := Patient.id p;
     Patient.requirement := req;
     Patient.status := s;
     Patient.pasienList := Patient.pasienList p;
     Patient.hasPasien := Patient.hasPasien p;
     Patient.namaPasien := Patient.namaPasien p;
     Patient.nomorTelp := Patient.nomorTelp p;
     Patient.photos := Patient.photos p |}.

Definition Patient_with_pasienList (p : Patient.t) (l : list PatientEntry.t) : Patient.t :=
  {| Patient.id := Patient.id p;
     Patient.requirement := Patient.requirement p;
     Patient.status := Patient.status p;
     Patient.pasienList := l;
     Patient.hasPasien := Patient.hasPasien p;
     Patient.namaPasien := Patient.namaPasien p;
     Patient.nomorTelp := Patient.nomorTelp p;
     Patient.photos := Patient.photos p |}.

Definition Patient_with_photos (p : Patient.t) (l : list Photo.t) : Patient.t :=
  {| Patient.id := Patient.id p;
     Patient.requirement := Patient.requirement p;
     Patient.status := Patient.status p;
     Patient.pasienList := Patient.pasienList p;
     Patient.hasPasien := Patient.hasPasien p;
     Patient.namaPasien := Patient.namaPasien p;
     Patient.nomorTelp := Patient.nomorTelp p;
     Patient.photos := l |}.

Definition SubDepartment_with_patients (s : SubDepartment.t) (l : list Patient.t)
  : SubDepartment.t :=
  {| SubDepartment.id := SubDepartment.id s;
     SubDepartment.name := SubDepartment.name s;
     SubDepartment.patients := l |}.

Definition Department_with_patients (d : Department.t) (l : list Patient.t) : Department.t :=
  {| Department.id := Department.id d;
     Department.name := Department.name d;
     Department.patients := l;
     Department.hasSubDepartments := Department.hasSubDepartments d;
     Department.subDepartments := Department.subDepartments d |}.

Definition Department_with_subDepartments (d : Department.t) (l : list SubDepartment.t)
  : Department.t :=
  {| Department.id := Department.id d;
     Department.name := Department.name d;
     Department.patients := Department.patients d;
     Department.hasSubDepartments := Department.hasSubDepartments d;
     Department.subDepartments := Some l |}.

(** [department.subDepartments || []] *)
Definition subs_or_empty (d : Department.t) : list SubDepartment.t :=
  match Department.subDepartments d with
  | Some l => l
  | None => []
  end.

(** [array.findIndex(f)], [None] for -1. *)
Fixpoint findIndex {A : Type} (f : A -> bool) (l : list A) : option nat :=
  match l with
  | [] => None
  | x :: r => if f x then Some O else option_map S (findIndex f r)
  end.

(** [arrayMove] of dnd-kit: copy the array, splice the element out of
    [from] and splice it in at [to]. *)
Definition arrayMove {A : Type} (array : list A) (from to : nat) : list A :=
  match nth_error array from with
  | Some x =>
      let rest := firstn from array ++ skipn (S from) array in
      firstn to rest ++ x :: skipn to rest
  | None => array
  end.

(* ================================================================== *)
(** ** The application state, in-flight calls and notifications *)

(** A [sonner] toast. *)
Inductive Toast : Type :=
| toast_success (msg : jsstring)
| toast_error (msg : jsstring).

(** A request sent to the persistence service, named after the function of
    [supabase-queries.ts] that the handler calls.  [upsertPatient] is
    recorded with the row it writes.  [upsertPatientSortOrder] and
    [getNextSortOrder] are imported by [department-card.tsx] from the same
    module and are requests like the others: the position write of one
    requirement, and the read of the next free position.  How a request
    ends is not decided here: an event says whether the promise the handler
    awaits is fulfilled or rejected. *)
Inductive RemoteCall : Type :=
| upsertDepartment (dept : Department.t)
| deleteDepartment (id : jsstring)
| upsertSubDepartment (sub : SubDepartment.t) (departmentId : jsstring)
| upsertPatient (row : PatientRow.t)
| deletePatient (id : jsstring)
| upsertPatientSortOrder (id : jsstring) (order : nat)
| getNextSortOrder (departmentId : jsstring) (subDepartmentId : option jsstring)
| upsertAppointment (appt : Appointment.t)
| deleteAppointment (id : jsstring)
| upsertWeeklySlot (slot : WeeklySlot.t).

Inductive FormMode : Type := FormAdd | FormEdit.

Inductive SlotCaller : Type := FromHandleSave | FromHandleClear.

(** The continuation of a handler suspended on a persistence call, as the
    variables its closure has captured.  Each constructor is one [await]
    (or [.then]/[.catch]) of the source. *)
Inductive Closure : Type :=
| AwaitUpdateDepartment (snapshot : list Department.t)
| AwaitDeleteDepartment (snapshot : list Department.t)
| AwaitAddDepartment (snapshot : list Department.t) (name : jsstring)
| AwaitNextSortOrder (department updated : Department.t) (patientToSave : Patient.t)
    (subDeptIdForSave : option jsstring)
| AwaitSavePatientForm (department : Department.t) (formMode : FormMode)
| AwaitSavePasienList (department : Department.t)
| AwaitStatusChange (department : Department.t)
| AwaitDeletePatient (department : Department.t)
| AwaitAddSubDept (department : Department.t) (newSub : SubDepartment.t)
| AwaitReorderPatients (department : Department.t)
| AwaitSubmitAppointment (snapshot : list Appointment.t) (editing : bool)
| AwaitDeleteAppointment (snapshot : list Appointment.t)
| AwaitToggleChecklist (snapshot : list Appointment.t)
| AwaitUpdateSlot (snapshot : list WeeklySlot.t) (caller : SlotCaller).

(** A suspended handler and the calls it waits for: one call, or the batch
    handed to [Promise.all]. *)
Record Pending : Type := mkPending
  { closure : Closure;
    calls : list RemoteCall }.

(** The state of the [Dashboard] component ([useState] cells), the toasts
    shown so far in order, and the handlers waiting for the persistence
    service in order of issue. *)
Record World : Type := mkWorld
  { departments : list Department.t;
    appointments : list Appointment.t;
    weeklySlots : list WeeklySlot.t;
    saving : bool;
    toasts : list Toast;
    inflight : list Pending }.

(** The state at mount: [useState([])], [useState([])],
    [useState(DEFAULT_WEEKLY)]. *)
Definition initial_world : World :=
  {| departments := []; appointments := []; weeklySlots := DEFAULT_WEEKLY;
     saving := false; toasts := []; inflight := [] |}.

Definition setDepartments (l : list Department.t) (w : World) : World :=
  {| departments := l; appointments := appointments w; weeklySlots := weeklySlots w;
     saving := saving w; toasts := toasts w; inflight := inflight w |}.

Definition setAppointments (l : list Appointment.t) (w : World) : World :=
  {| departments := departments w; appointments := l; weeklySlots := weeklySlots w;
     saving := saving w; toasts := toasts w; inflight := inflight w |}.

Definition setWeeklySlots (l : list WeeklySlot.t) (w : World) : World :=
  {| departments := departments w; appointments := appointments w; weeklySlots := l;
     saving := saving w; toasts := toasts w; inflight := inflight w |}.

Definition setSaving (b : bool) (w : World) : World :=
  {| departments := departments w; appointments := appointments w;
     weeklySlots := weeklySlots w;
     saving := b; toasts := toasts w; inflight := inflight w |}.

Definition toast (t : Toast) (w : World) : World :=
  {| departments := departments w; appointments := appointments w;
     weeklySlots := weeklySlots w;
     saving := saving w; toasts := toasts w ++ [t]; inflight := inflight w |}.

(** Send [cs] and suspend on them with continuation [k]. *)
Definition await (k : Closure) (cs : list RemoteCall) (w : World) : World :=
  {| departments := departments w; appointments := appointments w;
     weeklySlots := weeklySlots w;
     saving := saving w; toasts := toasts w;
     inflight := inflight w ++ [ {| closure := k; calls := cs |} ] |}.

Definition setInflight (l : list Pending) (w : World) : World :=
  {| departments := departments w; appointments := appointments w;
     weeklySlots := weeklySlots w;
     saving := saving w; toasts := toasts w; inflight := l |}.

(* ================================================================== *)
(** ** [src/components/dashboard.tsx]: department handlers *)

(** [handleUpdateDepartment], lines 569-579.  The updater reads the current
    state as [prev], keeps it as the snapshot and sends the department. *)
Definition handleUpdateDepartment (updated : Department.t) (w : World) : World :=
  let prev := departments w in
  let snapshot := prev in
  let next :=
    map (fun d => if JsString.eqb (Department.id d) (Department.id updated)
                  then updated else d) prev in
  setDepartments next
    (await (AwaitUpdateDepartment snapshot) [upsertDepartment updated] w).

(** [handleDeleteDepartment], lines 581-593. *)
Definition handleDeleteDepartment (id : jsstring) (w : World) : World :=
  let prev := departments w in
  let snapshot := prev in
  let next := filter (fun d => negb (JsString.eqb (Department.id d) id)) prev in
  setDepartments next
    (await (AwaitDeleteDepartment snapshot) [deleteDepartment id] w).

(** [handleAddDepartment], lines 595-608; [now] is [Date.now()]. *)
Definition handleAddDepartment (name : jsstring) (hasSub : bool) (now : N) (w : World)
  : World :=
  let newDept :=
    {| Department.id := js "dept-" ++ JsString.of_N now;
       Department.name := name;
       Department.patients := [];
       Department.hasSubDepartments := hasSub;
       Department.subDepartments := if hasSub then Some [] else None |} in
  let prev := departments w in
  let snapshot := prev in
  let next := prev ++ [newDept] in
  setDepartments next
    (await (AwaitAddDepartment snapshot name) [upsertDepartment newDept] w).

(** [AddDepartmentModal.handleSubmit]: a blank name submits nothing. *)
Definition AddDepartmentModal_handleSubmit (name : jsstring) (hasSub : bool) (now : N)
    (w : World) : World :=
  if JsString.falsy (JsString.trim name) then w
  else handleAddDepartment (JsString.trim name) hasSub now w.

(* ================================================================== *)
(** ** [src/components/department-card.tsx] *)

(** [allPatients], lines 625-628. *)
Definition allPatients (department : Department.t) : list Patient.t :=
  if Department.hasSubDepartments department
  then flat_map SubDepartment.patients (subs_or_empty department)
  else Department.patients department.

(** The expression every handler of the card evaluates to build [updated]:
    with a sub-department id and [hasSubDepartments],
    [{ ...department, subDepartments: department.subDepartments!.map((s) =>
       s.id === subDeptId ? { ...s, patients: f(s.patients) } : s) }],
    otherwise [{ ...department, patients: f(department.patients) }].
    [None] is the TypeError of [undefined.map], which ends the handler. *)
Definition update_patients_in (department : Department.t) (subDeptId : option jsstring)
    (f : list Patient.t -> list Patient.t) : option Department.t :=
  if opt_truthy subDeptId && Department.hasSubDepartments department then
    match Department.subDepartments department with
    | Some subs =>
        Some (Department_with_subDepartments department
                (map (fun s =>
                        if JsString.eqb (SubDepartment.id s) (opt_or_empty subDeptId)
                        then SubDepartment_with_patients s (f (SubDepartment.patients s))
                        else s) subs))
    | None => None
    end
  else Some (Department_with_patients department (f (Department.patients department))).

(** The sub-department id a handler passes on to [upsertPatient] after the
    same test: [targetSubDeptId] in the first branch, [undefined] in the
    second. *)
Definition sub_for_save (department : Department.t) (subDeptId : option jsstring)
  : option jsstring :=
  if opt_truthy subDeptId && Department.hasSubDepartments department
  then subDeptId else None.

(** The tail of [handleSavePatientForm], lines 697-705: the optimistic
    update and the call. *)
Definition savePatientForm_commit (department updated : Department.t)
    (patientToSave : Patient.t) (subDeptIdForSave : option jsstring)
    (formMode : FormMode) (w : World) : World :=
  await (AwaitSavePatientForm department formMode)
    [upsertPatient (upsertPatient_row patientToSave (Department.id department)
                      subDeptIdForSave)]
    (handleUpdateDepartment updated w).

(** [handleSavePatientForm], lines 668-706.  In add mode the handler first
    awaits [getNextSortOrder]; [upsertPatient] of [supabase-queries.ts]
    takes three parameters, so the order it is handed is dropped. *)
Definition handleSavePatientForm (department : Department.t)
    (targetSubDeptId : option jsstring) (formMode : FormMode)
    (editingPatient : option Patient.t)
    (requirement : jsstring) (status : PatientStatus) (now : N) (w : World) : World :=
  let subDeptIdForSave := sub_for_save department targetSubDeptId in
  match formMode with
  | FormAdd =>
      let newP :=
        syncLegacyFields
          {| Patient.id := js "p-" ++ JsString.of_N now;
             Patient.requirement := requirement;
             Patient.status := status;
             Patient.pasienList := [];
             Patient.hasPasien := false;
             Patient.namaPasien := [];
             Patient.nomorTelp := [];
             Patient.photos := [] |} in
      match update_patients_in department targetSubDeptId (fun l => l ++ [newP]) with
      | Some updated =>
          await (AwaitNextSortOrder department updated newP subDeptIdForSave)
            [getNextSortOrder (Department.id department) subDeptIdForSave] w
      | None => w
      end
  | FormEdit =>
      match editingPatient with
      | Some ep =>
          let upd := syncLegacyFields (Patient_with_data ep requirement status) in
          match update_patients_in department targetSubDeptId
                  (map (fun p => if JsString.eqb (Patient.id p) (Patient.id ep)
                                 then upd else p)) with
          | Some updated =>
              savePatientForm_commit department updated upd subDeptIdForSave FormEdit w
          | None => w
          end
      | None => w
      end
  end.

(** [handleSavePasienList], lines 713-734. *)
Definition handleSavePasienList (department : Department.t)
    (pasienListPatient : option Patient.t) (pasienListSubDeptId : option jsstring)
    (updatedList : list PatientEntry.t) (w : World) : World :=
  match pasienListPatient with
  | None => w
  | Some plp =>
      let updatedPatient := syncLegacyFields (Patient_with_pasienList plp updatedList) in
      match update_patients_in department pasienListSubDeptId
              (map (fun p => if JsString.eqb (Patient.id p) (Patient.id updatedPatient)
                             then updatedPatient else p)) with
      | Some updated =>
          await (AwaitSavePasienList department)
            [upsertPatient (upsertPatient_row updatedPatient (Department.id department)
                              (sub_for_save department pasienListSubDeptId))]
            (handleUpdateDepartment updated w)
      | None => w
      end
  end.

(** [handleStatusChange], lines 737-754. *)
Definition handleStatusChange (department : Department.t) (patientId : jsstring)
    (status : PatientStatus) (subDeptId : option jsstring) (w : World) : World :=
  match update_patients_in department subDeptId
          (map (fun p => if JsString.eqb (Patient.id p) patientId
                         then Patient_with_status p status else p)) with
  | Some updated =>
      let w1 := handleUpdateDepartment updated w in
      match find (fun p => JsString.eqb (Patient.id p) patientId) (allPatients department) with
      | Some patient =>
          await (AwaitStatusChange department)
            [upsertPatient (upsertPatient_row (Patient_with_status patient status)
                              (Department.id department) subDeptId)] w1
      | None => w1
      end
  | None => w
  end.

(** [confirmDeletePatient], lines 761-778. *)
Definition confirmDeletePatient (department : Department.t)
    (deletingPatientId deletingSubDeptId : option jsstring) (w : World) : World :=
  if opt_truthy deletingPatientId then
    match update_patients_in department deletingSubDeptId
            (filter (fun p => negb (JsString.eqb (Patient.id p)
                                      (opt_or_empty deletingPatientId)))) with
    | Some updated =>
        await (AwaitDeletePatient department)
          [deletePatient (opt_or_empty deletingPatientId)]
          (handleUpdateDepartment updated w)
    | None => w
    end
  else w.

(** [handleAddSubDept], lines 815-828. *)
Definition handleAddSubDept (department : Department.t) (newSubDeptName : jsstring)
    (now : N) (w : World) : World :=
  if JsString.falsy (JsString.trim newSubDeptName) then w
  else
    let newSub :=
      {| SubDepartment.id := js "sub-" ++ JsString.of_N now;
         SubDepartment.name := JsString.trim newSubDeptName;
         SubDepartment.patients := [] |} in
    let updated :=
      Department_with_subDepartments department (subs_or_empty department ++ [newSub]) in
    await (AwaitAddSubDept department newSub)
      [upsertSubDepartment newSub (Department.id department)]
      (handleUpdateDepartment updated w).

(** [newList.map((p, idx) => upsertPatientSortOrder(p.id, idx + 1))] *)
Fixpoint sort_order_writes (newList : list Patient.t) (idx : nat) : list RemoteCall :=
  match newList with
  | [] => []
  | p :: rest => upsertPatientSortOrder (Patient.id p) (idx + 1) :: sort_order_writes rest (S idx)
  end.

(** [handleReorderPatients], lines 831-849. *)
Definition handleReorderPatients (department : Department.t) (newList : list Patient.t)
    (subDeptId : option jsstring) (w : World) : World :=
  match update_patients_in department subDeptId (fun _ => newList) with
  | Some updated =>
      await (AwaitReorderPatients department) (sort_order_writes newList 0)
        (handleUpdateDepartment updated w)
  | None => w
  end.

(** [handleDragEnd] of [PatientTable], lines 538-546: the list handed to
    [onReorder], when there is one. *)
Definition handleDragEnd (patients : list Patient.t) (active : jsstring)
    (over : option jsstring) : option (list Patient.t) :=
  match over with
  | None => None
  | Some overId =>
      if JsString.eqb active overId then None
      else
        match findIndex (fun p => JsString.eqb (Patient.id p) active) patients,
              findIndex (fun p => JsString.eqb (Patient.id p) overId) patients with
        | Some oldIndex, Some newIndex => Some (arrayMove patients oldIndex newIndex)
        | _, _ => None
        end
  end.

(** [updatePhotosInState], lines 785-791. *)
Definition updatePhotosInState (department : Department.t) (patientId : jsstring)
    (photos : list Photo.t) (subDeptId : option jsstring) : option Department.t :=
  update_patients_in department subDeptId
    (map (fun p => if JsString.eqb (Patient.id p) patientId
                   then Patient_with_photos p photos else p)).

(** *** [PasienListModal], lines 157-207 *)

Record PasienListModal : Type := mkModal
  { list_ : list PatientEntry.t;
    editingId : option jsstring;
    editNama : jsstring;
    editTelp : jsstring;
    addMode : bool;
    newNama : jsstring;
    newTelp : jsstring }.

(** The effect run when the dialog opens on [patient]. *)
Definition PasienListModal_open (patient : Patient.t) : PasienListModal :=
  {| list_ := map (fun p => p) (Patient.pasienList patient);
     editingId := None; editNama := []; editTelp := [];
     addMode := false; newNama := []; newTelp := [] |}.

Definition edit_entry (m : PasienListModal) (p : PatientEntry.t) : PatientEntry.t :=
  match editingId m with
  | Some i =>
      if JsString.eqb (PatientEntry.id p) i
      then {| PatientEntry.id := PatientEntry.id p;
              PatientEntry.namaPasien := JsString.trim (editNama m);
              PatientEntry.nomorTelp := JsString.trim (editTelp m) |}
      else p
  | None => p
  end.

(** What the user does in the dialog before pressing the save button. *)
Inductive ModalAction : Type :=
| startEdit (row : nat)
| typeEditNama (v : jsstring)
| typeEditTelp (v : jsstring)
| cancelEdit
| saveEdit
| deleteEntry (row : nat)
| openAdd
| typeNewNama (v : jsstring)
| typeNewTelp (v : jsstring)
| cancelAdd
| addEntry (now : N).

Definition modal_step (m : PasienListModal) (a : ModalAction) : PasienListModal :=
  match a with
  | startEdit row =>
      match nth_error (list_ m) row with
      | Some entry =>
          {| list_ := list_ m; editingId := Some (PatientEntry.id entry);
             editNama := PatientEntry.namaPasien entry;
             editTelp := PatientEntry.nomorTelp entry;
             addMode := false; newNama := newNama m; newTelp := newTelp m |}
      | None => m
      end
  | typeEditNama v =>
      {| list_ := list_ m; editingId := editingId m; editNama := v;
         editTelp := editTelp m; addMode := addMode m;
         newNama := newNama m; newTelp := newTelp m |}
  | typeEditTelp v =>
      {| list_ := list_ m; editingId := editingId m; editNama := editNama m;
         editTelp := v; addMode := addMode m;
         newNama := newNama m; newTelp := newTelp m |}
  | cancelEdit =>
      {| list_ := list_ m; editingId := None; editNama := editNama m;
         editTelp := editTelp m; addMode := addMode m;
         newNama := newNama m; newTelp := newTelp m |}
  | saveEdit =>
      if JsString.falsy (JsString.trim (editNama m)) then m
      else
        {| list_ := map (edit_entry m) (list_ m); editingId := None;
           editNama := editNama m; editTelp := editTelp m; addMode := addMode m;
           newNama := newNama m; newTelp := newTelp m |}
  | deleteEntry row =>
      match nth_error (list_ m) row with
      | Some entry =>
          {| list_ := filter (fun p => negb (JsString.eqb (PatientEntry.id p)
                                               (PatientEntry.id entry))) (list_ m);
             editingId :=
               match editingId m with
               | Some i => if JsString.eqb i (PatientEntry.id entry) then None else Some i
               | None => None
               end;
             editNama := editNama m; editTelp := editTelp m; addMode := addMode m;
             newNama := newNama m; newTelp := newTelp m |}
      | None => m
      end
  | openAdd =>
      {| list_ := list_ m; editingId := None; editNama := editNama m;
         editTelp := editTelp m; addMode := true;
         newNama := newNama m; newTelp := newTelp m |}
  | typeNewNama v =>
      {| list_ := list_ m; editingId := editingId m; editNama := editNama m;
         editTelp := editTelp m; addMode := addMode m;
         newNama := v; newTelp := newTelp m |}
  | typeNewTelp v =>
      {| list_ := list_ m; editingId := editingId m; editNama := editNama m;
         editTelp := editTelp m; addMode := addMode m;
         newNama := newNama m; newTelp := v |}
  | cancelAdd =>
      {| list_ := list_ m; editingId := editingId m; editNama := editNama m;
         editTelp := editTelp m; addMode := false;
         newNama := []; newTelp := [] |}
  | addEntry now =>
      if JsString.falsy (JsString.trim (newNama m)) then m
      else
        {| list_ := list_ m ++
                      [ {| PatientEntry.id := js "pe-" ++ JsString.of_N now;
                           PatientEntry.namaPasien := JsString.trim (newNama m);
                           PatientEntry.nomorTelp := JsString.trim (newTelp m) |} ];
           editingId := editingId m; editNama := editNama m; editTelp := editTelp m;
           addMode := false; newNama := []; newTelp := [] |}
  end.

(** [handleSave] of the dialog, lines 198-207: the list handed to [onSave]. *)
Definition PasienListModal_handleSave (m : PasienListModal) : list PatientEntry.t :=
  if opt_truthy (editingId m) && negb (JsString.falsy (JsString.trim (editNama m)))
  then map (edit_entry m) (list_ m)
  else list_ m.

(* ================================================================== *)
(** ** [AppointmentsTable] (appointments-table, in weekly-planning.tsx) *)

(** The [formData] state of the appointment form. *)
Record AppointmentForm : Type := mkAppointmentForm
  { f_tanggal : jsstring;
    f_jam : jsstring;
    f_kubikel : jsstring;
    f_rencanaPerawatan : jsstring;
    f_kasus : jsstring;
    f_departemen : jsstring;
    f_namaPasien : jsstring;
    f_nomorTelp : jsstring }.

(** [{ id, ...formData, checklist }] *)
Definition appointment_of_form (id : jsstring) (f : AppointmentForm) (checklist : bool)
  : Appointment.t :=
  {| Appointment.id := id;
     Appointment.tanggal := f_tanggal f;
     Appointment.jam := f_jam f;
     Appointment.kubikel := f_kubikel f;
     Appointment.rencanaPerawatan := f_rencanaPerawatan f;
     Appointment.kasus := f_kasus f;
     Appointment.departemen := f_departemen f;
     Appointment.namaPasien := f_namaPasien f;
     Appointment.nomorTelp := f_nomorTelp f;
     Appointment.checklist := checklist |}.

Definition Appointment_toggle (a : Appointment.t) : Appointment.t :=
  {| Appointment.id := Appointment.id a;
     Appointment.tanggal := Appointment.tanggal a;
     Appointment.jam := Appointment.jam a;
     Appointment.kubikel := Appointment.kubikel a;
     Appointment.rencanaPerawatan := Appointment.rencanaPerawatan a;
     Appointment.kasus := Appointment.kasus a;
     Appointment.departemen := Appointment.departemen a;
     Appointment.namaPasien := Appointment.namaPasien a;
     Appointment.nomorTelp := Appointment.nomorTelp a;
     Appointment.checklist := negb (Appointment.checklist a) |}.

(** [handleSubmit], lines 1195-1221.  [appointments] is the prop of the
    render the handler belongs to, the current state. *)
Definition Appointments_handleSubmit (editingAppt : option Appointment.t)
    (formData : AppointmentForm) (now : N) (w : World) : World :=
  let snapshot := appointments w in
  match editingAppt with
  | Some ea =>
      let updated :=
        appointment_of_form (Appointment.id ea) formData (Appointment.checklist ea) in
      await (AwaitSubmitAppointment snapshot true) [upsertAppointment updated]
        (setAppointments
           (map (fun a => if JsString.eqb (Appointment.id a) (Appointment.id ea)
                          then updated else a) (appointments w)) w)
  | None =>
      let newAppt := appointment_of_form (js "a-" ++ JsString.of_N now) formData false in
      await (AwaitSubmitAppointment snapshot false) [upsertAppointment newAppt]
        (setAppointments (appointments w ++ [newAppt]) w)
  end.

(** [confirmDelete], lines 1223-1236. *)
Definition Appointments_confirmDelete (deletingId : option jsstring) (w : World) : World :=
  if opt_truthy deletingId then
    let snapshot := appointments w in
    await (AwaitDeleteAppointment snapshot) [deleteAppointment (opt_or_empty deletingId)]
      (setAppointments
         (filter (fun a => negb (JsString.eqb (Appointment.id a) (opt_or_empty deletingId)))
            (appointments w)) w)
  else w.

(** [toggleChecklist], lines 1238-1249. *)
Definition toggleChecklist (id : jsstring) (w : World) : World :=
  let snapshot := appointments w in
  let updated :=
    map (fun a => if JsString.eqb (Appointment.id a) id then Appointment_toggle a else a)
      (appointments w) in
  let w1 := setAppointments updated w in
  match find (fun a => JsString.eqb (Appointment.id a) id) updated with
  | Some appt => await (AwaitToggleChecklist snapshot) [upsertAppointment appt] w1
  | None => w1
  end.

(* ================================================================== *)
(** ** [WeeklyPlanning] (weekly-planning.tsx, lines 626-1069) *)

Inductive DayKey : Type := senin | selasa | rabu | kamis | jumat.

(** [{ ...s, [day]: value }] *)
Definition WeeklySlot_set (s : WeeklySlot.t) (day : DayKey) (value : jsstring)
  : WeeklySlot.t :=
  {| WeeklySlot.id := WeeklySlot.id s;
     WeeklySlot.jam := WeeklySlot.jam s;
     WeeklySlot.senin := match day with senin => value | _ => WeeklySlot.senin s end;
     WeeklySlot.selasa := match day with selasa => value | _ => WeeklySlot.selasa s end;
     WeeklySlot.rabu := match day with rabu => value | _ => WeeklySlot.rabu s end;
     WeeklySlot.kamis := match day with kamis => value | _ => WeeklySlot.kamis s end;
     WeeklySlot.jumat := match day with jumat => value | _ => WeeklySlot.jumat s end;
     WeeklySlot.sabtu := WeeklySlot.sabtu s;
     WeeklySlot.minggu := WeeklySlot.minggu s |}.

(** [getDeptPatients], lines 666-673; the added [subDeptName] is not read
    by the handlers. *)
Definition getDeptPatients (dept : Department.t) : list Patient.t :=
  if Department.hasSubDepartments dept
  then flat_map SubDepartment.patients (subs_or_empty dept)
  else filter Patient.hasPasien (Department.patients dept).

(** [updateSlot], lines 726-746.  With no slot of that id the update is
    undone at once and [false] is returned ([None] here); otherwise the
    handler awaits [upsertWeeklySlot]. *)
Definition updateSlot (slotId : jsstring) (day : DayKey) (value : jsstring)
    (caller : SlotCaller) (w : World) : World * option unit :=
  let snapshot := weeklySlots w in
  let updated :=
    map (fun s => if JsString.eqb (WeeklySlot.id s) slotId
                  then WeeklySlot_set s day value else s) (weeklySlots w) in
  let w1 := setWeeklySlots updated w in
  match find (fun s => JsString.eqb (WeeklySlot.id s) slotId) updated with
  | None =>
      (toast (toast_error (js "Slot tidak ditemukan. Perubahan dibatalkan."))
         (setWeeklySlots snapshot w1), None)
  | Some target =>
      (await (AwaitUpdateSlot snapshot caller) [upsertWeeklySlot target] w1, Some tt)
  end.

Inductive InputMode : Type := select | manual.

(** The state of the slot dialog that [handleSave] reads. *)
Record SlotForm : Type := mkSlotForm
  { inputMode : InputMode;
    selectedDeptId : jsstring;
    selectedPatientId : jsstring;
    manualName : jsstring;
    manualTelp : jsstring;
    manualDept : jsstring }.

(** The text [handleSave] writes into the cell, lines 754-771; [None] when
    it returns early. *)
Definition valueToSave (form : SlotForm) (w : World) : option jsstring :=
  match inputMode form with
  | select =>
      let selectedDept :=
        find (fun d => JsString.eqb (Department.id d) (selectedDeptId form)) (departments w) in
      let deptPatients :=
        match selectedDept with
        | Some d => getDeptPatients d
        | None => []
        end in
      match find (fun p => JsString.eqb (Patient.id p) (selectedPatientId form)) deptPatients with
      | Some selectedPatient =>
          Some (serializeSlotData
                  {| WeeklySlotData.n := Patient.namaPasien selectedPatient;
                     WeeklySlotData.t := Patient.nomorTelp selectedPatient;
                     WeeklySlotData.d :=
                       match selectedDept with
                       | Some d => Department.name d
                       | None => []
                       end;
                     WeeklySlotData.pid := Patient.id selectedPatient |})
      | None => None
      end
  | manual =>
      if JsString.falsy (JsString.trim (manualName form)) then None
      else
        Some (serializeSlotData
                {| WeeklySlotData.n := JsString.trim (manualName form);
                   WeeklySlotData.t := JsString.trim (manualTelp form);
                   WeeklySlotData.d :=
                     if JsString.eqb (manualDept form) (js "__none__") then []
                     else JsString.trim (manualDept form);
                   WeeklySlotData.pid := [] |})
  end.

(** [handleSave], lines 748-778.  [saving] stays set while the call is in
    flight. *)
Definition WeeklyPlanning_handleSave (editSlotId : option jsstring) (editDay : DayKey)
    (form : SlotForm) (w : World) : World :=
  if negb (opt_truthy editSlotId) || saving w then w
  else
    match valueToSave form w with
    | None => setSaving false (setSaving true w)
    | Some value =>
        match updateSlot (opt_or_empty editSlotId) editDay value FromHandleSave
                (setSaving true w) with
        | (w1, Some _) => w1
        | (w1, None) => setSaving false w1
        end
    end.

(** [handleClear], lines 780-789. *)
Definition WeeklyPlanning_handleClear (editSlotId : option jsstring) (editDay : DayKey)
    (w : World) : World :=
  if negb (opt_truthy editSlotId) || saving w then w
  else
    match updateSlot (opt_or_empty editSlotId) editDay [] FromHandleClear
            (setSaving true w) with
    | (w1, Some _) => w1
    | (w1, None) => setSaving false w1
    end.

(* ================================================================== *)
(** ** Settling a persistence call *)

(** The handler resumes after its call: [ok] is the fulfilment of the
    awaited promise, [false] its rejection, which the [catch] of the handler
    receives. *)
Definition resume (k : Closure) (ok : bool) (w : World) : World :=
  match k with
  | AwaitUpdateDepartment snapshot =>
      if ok then w
      else toast (toast_error (js "Gagal menyimpan departemen. Perubahan dibatalkan."))
             (setDepartments snapshot w)
  | AwaitDeleteDepartment snapshot =>
      if ok then toast (toast_success (js "Departemen berhasil dihapus")) w
      else toast (toast_error (js "Gagal menghapus departemen. Perubahan dibatalkan."))
             (setDepartments snapshot w)
  | AwaitAddDepartment snapshot name =>
      if ok then
        toast (toast_success
                 (js "Departemen " ++ [Json.quote_mark] ++ name ++ [Json.quote_mark]
                    ++ js " berhasil ditambahkan")) w
      else toast (toast_error (js "Gagal menambah departemen. Perubahan dibatalkan."))
             (setDepartments snapshot w)
  | AwaitNextSortOrder department updated patientToSave subDeptIdForSave =>
      if ok then savePatientForm_commit department updated patientToSave subDeptIdForSave
                   FormAdd w
      else w
  | AwaitSavePatientForm department formMode =>
      if ok then
        toast (toast_success
                 (match formMode with
                  | FormAdd => js "Requirement ditambahkan"
                  | FormEdit => js "Requirement diperbarui"
                  end)) w
      else toast (toast_error (js "Gagal menyimpan. Perubahan dibatalkan."))
             (handleUpdateDepartment department w)
  | AwaitSavePasienList department =>
      if ok then toast (toast_success (js "Daftar pasien diperbarui")) w
      else toast (toast_error (js "Gagal menyimpan pasien. Perubahan dibatalkan."))
             (handleUpdateDepartment department w)
  | AwaitStatusChange department =>
      if ok then w
      else toast (toast_error (js "Gagal mengubah status. Perubahan dibatalkan."))
             (handleUpdateDepartment department w)
  | AwaitDeletePatient department =>
      if ok then toast (toast_success (js "Requirement dihapus")) w
      else toast (toast_error (js "Gagal menghapus. Perubahan dibatalkan."))
             (handleUpdateDepartment department w)
  | AwaitAddSubDept department newSub =>
      let done :=
        toast (toast_success
                 (js "Sub-departemen " ++ [Json.quote_mark] ++ SubDepartment.name newSub
                    ++ [Json.quote_mark] ++ js " ditambahkan")) in
      if ok then done w
      else
        done (toast (toast_error (js "Gagal menambah sub-departemen. Perubahan dibatalkan."))
                (handleUpdateDepartment department w))
  | AwaitReorderPatients department =>
      if ok then w
      else toast (toast_error (js "Gagal menyimpan urutan."))
             (handleUpdateDepartment department w)
  | AwaitSubmitAppointment snapshot editing =>
      if ok then
        toast (toast_success
                 (if editing then js "Appointment diperbarui"
                  else js "Appointment ditambahkan")) w
      else toast (toast_error (js "Gagal menyimpan. Perubahan dibatalkan."))
             (setAppointments snapshot w)
  | AwaitDeleteAppointment snapshot =>
      if ok then toast (toast_success (js "Appointment dihapus")) w
      else toast (toast_error (js "Gagal menghapus. Perubahan dibatalkan."))
             (setAppointments snapshot w)
  | AwaitToggleChecklist snapshot =>
      if ok then w
      else toast (toast_error (js "Gagal menyimpan status. Perubahan dibatalkan."))
             (setAppointments snapshot w)
  | AwaitUpdateSlot snapshot caller =>
      if ok then
        toast (toast_success
                 (match caller with
                  | FromHandleSave => js "Jadwal berhasil disimpan"
                  | FromHandleClear => js "Jadwal dihapus"
                  end)) (setSaving false w)
      else
        setSaving false
          (toast (toast_error (js "Gagal menyimpan jadwal. Perubahan dibatalkan."))
             (setWeeklySlots snapshot w))
  end.

(** [Promise.all] over [n] calls: fulfilled when no call rejects, rejected
    when call number [j] does.  A single awaited call is a batch of one. *)
Definition promise_all (n : nat) (rejected : option nat) : option bool :=
  match rejected with
  | None => Some true
  | Some j => if (j <? n)%nat then Some false else None
  end.

Definition remove_nth {A : Type} (i : nat) (l : list A) : list A :=
  firstn i l ++ skipn (S i) l.

(** The in-flight entry number [i] settles. *)
Definition settle (i : nat) (rejected : option nat) (w : World) : World :=
  match nth_error (inflight w) i with
  | Some p =>
      match promise_all (List.length (calls p)) rejected with
      | Some ok => resume (closure p) ok (setInflight (remove_nth i (inflight w)) w)
      | None => w
      end
  | None => w
  end.

(* ================================================================== *)
(** ** What the user can do: the rendered controls and their handlers *)

(** A table of requirements inside a card: the one of the department, or
    the one of its sub-department number [j]. *)
Inductive TableRef : Type :=
| DirectTable
| SubTable (j : nat).

(** The table as the card renders it, lines 913-984: the sub-department id
    its callbacks pass on and its [patients] prop.  The card renders the
    sub-department tables when [hasSubDepartments] and the direct table
    otherwise.  [Dashboard] renders the card without [searchQuery], so
    [filterPatients] returns its argument. *)
Definition rendered_table (department : Department.t) (tbl : TableRef)
  : option (option jsstring * list Patient.t) :=
  match tbl with
  | DirectTable =>
      if Department.hasSubDepartments department then None
      else Some (None, Department.patients department)
  | SubTable j =>
      if Department.hasSubDepartments department then
        match nth_error (subs_or_empty department) j with
        | Some sub => Some (Some (SubDepartment.id sub), SubDepartment.patients sub)
        | None => None
        end
      else None
  end.

(** A dialog and its submit button are one action: the state the opening
    handler sets ([targetSubDeptId], [editingPatient], [deletingPatientId],
    ...) is what the submitting handler reads. *)
Inductive CardAction : Type :=
| AddRequirement (tbl : TableRef) (requirement : jsstring) (status : PatientStatus) (now : N)
| EditRequirement (tbl : TableRef) (row : nat) (requirement : jsstring) (status : PatientStatus)
| ChangeStatus (tbl : TableRef) (row : nat) (status : PatientStatus)
| ManagePasien (tbl : TableRef) (row : nat) (acts : list ModalAction)
| DeleteRequirement (tbl : TableRef) (row : nat)
| DragRequirement (tbl : TableRef) (active : jsstring) (over : option jsstring)
| AddSubDepartment (name : jsstring) (now : N).

Definition card_event (department : Department.t) (a : CardAction) (w : World) : World :=
  match a with
  | AddRequirement tbl requirement status now =>
      match rendered_table department tbl with
      | Some (subDeptId, _) =>
          handleSavePatientForm department (or_null subDeptId) FormAdd None
            requirement status now w
      | None => w
      end
  | EditRequirement tbl row requirement status =>
      match rendered_table department tbl with
      | Some (subDeptId, patients) =>
          match nth_error patients row with
          | Some patient =>
              handleSavePatientForm department (or_null subDeptId) FormEdit (Some patient)
                requirement status 0 w
          | None => w
          end
      | None => w
      end
  | ChangeStatus tbl row status =>
      match rendered_table department tbl with
      | Some (subDeptId, patients) =>
          match nth_error patients row with
          | Some patient =>
              handleStatusChange department (Patient.id patient) status subDeptId w
          | None => w
          end
      | None => w
      end
  | ManagePasien tbl row acts =>
      match rendered_table department tbl with
      | Some (subDeptId, patients) =>
          match nth_error patients row with
          | Some patient =>
              handleSavePasienList department (Some patient) (or_null subDeptId)
                (PasienListModal_handleSave
                   (fold_left modal_step acts (PasienListModal_open patient))) w
          | None => w
          end
      | None => w
      end
  | DeleteRequirement tbl row =>
      match rendered_table department tbl with
      | Some (subDeptId, patients) =>
          match nth_error patients row with
          | Some patient =>
              confirmDeletePatient department (Some (Patient.id patient))
                (or_null subDeptId) w
          | None => w
          end
      | None => w
      end
  | DragRequirement tbl active over =>
      match rendered_table department tbl with
      | Some (subDeptId, patients) =>
          match handleDragEnd patients active over with
          | Some reordered => handleReorderPatients department reordered subDeptId w
          | None => w
          end
      | None => w
      end
  | AddSubDepartment name now =>
      if Department.hasSubDepartments department
      then handleAddSubDept department name now w
      else w
  end.

(** [slot[day] || ""] *)
Definition WeeklySlot_get (s : WeeklySlot.t) (day : DayKey) : jsstring :=
  match day with
  | senin => WeeklySlot.senin s
  | selasa => WeeklySlot.selasa s
  | rabu => WeeklySlot.rabu s
  | kamis => WeeklySlot.kamis s
  | jumat => WeeklySlot.jumat s
  end.

(** The rows of the planner, line 840: [slot.jam] from 08:00 to 16:00. *)
Definition slot_rendered (s : WeeklySlot.t) : bool :=
  JsString.leb (js "08:00") (WeeklySlot.jam s) && JsString.leb (WeeklySlot.jam s) (js "16:00").

(** An interaction with the page, or the persistence service answering. *)
Inductive Event : Type :=
| SubmitAddDepartment (name : jsstring) (hasSub : bool) (now : N)
| ConfirmDeleteDepartment (card : nat)
| Card (card : nat) (a : CardAction)
| SubmitAppointment (editing : option nat) (formData : AppointmentForm) (now : N)
| ConfirmDeleteAppointment (row : nat)
| ToggleChecklist (row : nat)
| SaveSlot (row : nat) (day : DayKey) (form : SlotForm)
| ClearSlot (row : nat) (day : DayKey)
| Settle (i : nat) (rejected : option nat).

Definition step (w : World) (e : Event) : World :=
  match e with
  | SubmitAddDepartment name hasSub now => AddDepartmentModal_handleSubmit name hasSub now w
  | ConfirmDeleteDepartment card =>
      match nth_error (departments w) card with
      | Some dept => handleDeleteDepartment (Department.id dept) w
      | None => w
      end
  | Card card a =>
      match nth_error (departments w) card with
      | Some department => card_event department a w
      | None => w
      end
  | SubmitAppointment editing formData now =>
      match editing with
      | None => Appointments_handleSubmit None formData now w
      | Some row =>
          match nth_error (appointments w) row with
          | Some appt => Appointments_handleSubmit (Some appt) formData now w
          | None => w
          end
      end
  | ConfirmDeleteAppointment row =>
      match nth_error (appointments w) row with
      | Some appt => Appointments_confirmDelete (Some (Appointment.id appt)) w
      | None => w
      end
  | ToggleChecklist row =>
      match nth_error (appointments w) row with
      | Some appt => toggleChecklist (Appointment.id appt) w
      | None => w
      end
  | SaveSlot row day form =>
      match nth_error (weeklySlots w) row with
      | Some slot =>
          if slot_rendered slot then
            match parseSlotValue (WeeklySlot_get slot day) with
            | SlotBreak => w
            | _ => WeeklyPlanning_handleSave (Some (WeeklySlot.id slot)) day form w
            end
          else w
      | None => w
      end
  | ClearSlot row day =>
      match nth_error (weeklySlots w) row with
      | Some slot =>
          if slot_rendered slot then
            match parseSlotValue (WeeklySlot_get slot day) with
            | SlotData _ => WeeklyPlanning_handleClear (Some (WeeklySlot.id slot)) day w
            | _ => w
            end
          else w
      | None => w
      end
  | Settle i rejected => settle i rejected w
  end.

(** A run of the page from [w]: the events in order. *)
Definition run (es : list Event) (w : World) : World := fold_left step es w.

(* ================================================================== *)
(** ** Photo upload: [photo-modal.tsx], [handleAddPhoto], [uploadPhotoBase64] *)

(** [MAX_FILE_SIZE_MB] and [MAX_FILE_SIZE_BYTES], photo-modal.tsx lines 14-15. *)
Definition MAX_FILE_SIZE_MB : N := 5.
Definition MAX_FILE_SIZE_BYTES : N := MAX_FILE_SIZE_MB * 1024 * 1024.

(** A [File] or [Blob]: its size in bytes and its MIME type.  The data URL
    the reader produces and [fetch(base64)] decodes again carries the same
    bytes and type. *)
Record Blob : Type := mkBlob
  { size : N;
    type : jsstring }.

(** A request of the upload to the persistence service. *)
Inductive PhotoCall : Type :=
| storage_upload (path : jsstring) (body : Blob)
| insert_patient_photo (patient_id storage_path photo_url : jsstring).

(** What the service answers to an upload: whether the storage upload
    reports an error, the public URL of the path, and the id of the
    inserted row ([None]: an error or no data). *)
Record UploadAnswers : Type := mkUploadAnswers
  { uploadError : bool;
    publicUrl : jsstring;
    inserted_id : option jsstring }.

Inductive UploadResult : Type :=
| UploadThrows (message : jsstring)
| UploadNull
| UploadPhoto (photo : Photo.t).

(** [uploadPhotoBase64], supabase-queries.ts lines 160-190: the requests
    sent, in order, and the result. *)
Definition uploadPhotoBase64 (patientId : jsstring) (blob : Blob) (now : N)
    (svc : UploadAnswers) : list PhotoCall * UploadResult :=
  if (5 * 1024 * 1024 <? size blob)%N
  then ([], UploadThrows (js "Ukuran foto maksimum 5 MB"))
  else
    let ext := JsString.or_else (part (JsString.split (type blob) (js "/")) 1) (js "jpg") in
    let path := patientId ++ js "/" ++ JsString.of_N now ++ js "." ++ ext in
    if uploadError svc then ([storage_upload path blob], UploadNull)
    else
      let insert := insert_patient_photo patientId path (publicUrl svc) in
      match inserted_id svc with
      | Some id =>
          ([storage_upload path blob; insert],
           UploadPhoto {| Photo.id := id; Photo.url := publicUrl svc;
                          Photo.storagePath := path |})
      | None => ([storage_upload path blob; insert], UploadNull)
      end.

(** The [sizeError] state of the dialog.  The text of the oversize message
    renders the size with [toFixed(1)]; the model keeps the size. *)
Inductive SizeError : Type :=
| NoSizeError
| TooLarge (bytes : N)
| UploadFailed (message : jsstring).

(** What one file selection does. *)
Record PhotoAttempt : Type := mkPhotoAttempt
  { sent : list PhotoCall;
    sizeError : SizeError;
    added : option Photo.t }.

(** [handleAddPhoto], department-card.tsx lines 793-801, as far as the
    upload goes: the photo that the handler appends, when there is one. *)
Definition handleAddPhoto (photoPatient : option Patient.t) (blob : Blob) (now : N)
    (svc : UploadAnswers) : list PhotoCall * UploadResult :=
  match photoPatient with
  | None => ([], UploadNull)
  | Some p => uploadPhotoBase64 (Patient.id p) blob now svc
  end.

(** [handleFileChange], photo-modal.tsx lines 42-69. *)
Definition handleFileChange (photoPatient : option Patient.t) (file : option Blob)
    (now : N) (svc : UploadAnswers) : PhotoAttempt :=
  match file with
  | None => {| sent := []; sizeError := NoSizeError; added := None |}
  | Some f =>
      if (MAX_FILE_SIZE_BYTES <? size f)%N
      then {| sent := []; sizeError := TooLarge (size f); added := None |}
      else
        match handleAddPhoto photoPatient f now svc with
        | (cs, UploadThrows message) =>
            {| sent := cs; sizeError := UploadFailed message; added := None |}
        | (cs, UploadNull) => {| sent := cs; sizeError := NoSizeError; added := None |}
        | (cs, UploadPhoto photo) =>
            {| sent := cs; sizeError := NoSizeError; added := Some photo |}
        end
  end.

(* ================================================================== *)
(** ** Progress and the celebration effect of [DepartmentCard] *)

Section Celebration.

(** [Math.round((sum / total) * 100)] in double precision, for
    [0 <= sum <= total] and [0 < total]: a natural number. *)
Variable round_percent : N -> N -> N.

(** [calcWeightedProgress], lines 69-72. *)
Definition calcWeightedProgress (patients : list Patient.t) : N :=
  if (List.length patients =? 0)%nat then 0%N
  else
    round_percent
      (fold_left (fun a p => (a + STATUS_WEIGHT (Patient.status p))%N) patients 0%N)
      (N.of_nat (List.length patients) * 5)%N.

(** [totalPatients] and [weightedProgress] of the card, lines 629-631. *)
Definition totalPatients (department : Department.t) : nat :=
  List.length (allPatients department).

Definition weightedProgress (department : Department.t) : N :=
  calcWeightedProgress (allPatients department).

(** The ref and the state the effect touches, and the dependencies of its
    last run ([None] before the first render). *)
Record Celebration : Type := mkCelebration
  { prevProgressRef : Z;
    celebrationOpen : bool;
    last_deps : option (N * nat) }.

(** [useRef(-1)], [useState(false)]. *)
Definition Celebration_mount : Celebration :=
  {| prevProgressRef := (-1)%Z; celebrationOpen := false; last_deps := None |}.

(** The body of the effect, lines 640-648: the new state and whether
    [setCelebrationOpen(true)] was called. *)
Definition celebration_effect (progress : N) (total : nat)
    (st : Celebration) : Celebration * bool :=
  let fire :=
    (0 <? total)%nat
    && (progress =? 100)%N
    && negb (prevProgressRef st =? 100)%Z
    && negb (prevProgressRef st =? -1)%Z in
  ({| prevProgressRef := Z.of_N progress;
      celebrationOpen := if fire then true else celebrationOpen st;
      last_deps := Some (progress, total) |}, fire).

(** One render of the card on [department]: the effect runs after the first
    render and after every render whose dependencies
    [[weightedProgress, totalPatients]] differ from those of the last run. *)
Definition render (department : Department.t) (st : Celebration) : Celebration * bool :=
  match last_deps st with
  | Some (wp, total) =>
      if (wp =? weightedProgress department)%N && (total =? totalPatients department)%nat
      then (st, false)
      else celebration_effect (weightedProgress department) (totalPatients department) st
  | None => celebration_effect (weightedProgress department) (totalPatients department) st
  end.

(** The successive values of the [department] prop: for each render,
    whether the celebration was triggered. *)
Fixpoint renders (st : Celebration) (ds : list Department.t) : list bool :=
  match ds with
  | [] => []
  | d :: rest => snd (render d st) :: renders (fst (render d st)) rest
  end.

Definition celebrations (ds : list Department.t) : list bool :=
  renders Celebration_mount ds.

(** The progress seen by the render before number [i] of [ds]; [pw] before
    the first. *)
Definition progress_before (pw : N) (ds : list Department.t) (i : nat) : N :=
  match i with
  | O => pw
  | S i' =>
      match nth_error ds i' with
      | Some d' => weightedProgress d'
      | None => 0%N
      end
  end.

End Celebration.

(** The rounding of the exact quotient, half up. *)
Definition round_percent_exact (sum total : N) : N :=
  ((200 * sum + total) / (2 * total))%N.

(* ================================================================== *)
(** ** Predicates of the specification *)

(** The legacy fields of [p] are those of its first entry, or empty, and
    [hasPasien] tells whether there is an entry. *)
Definition legacy_synced (p : Patient.t) : Prop :=
  Patient.namaPasien p =
    match Patient.pasienList p with
    | e :: _ => PatientEntry.namaPasien e
    | [] => []
    end
  /\ Patient.nomorTelp p =
       match Patient.pasienList p with
       | e :: _ => PatientEntry.nomorTelp e
       | [] => []
       end
  /\ (Patient.hasPasien p = true <-> Patient.pasienList p <> []).

(** The same on a row of [patients]. *)
Definition row_synced (r : PatientRow.t) (l : list PatientEntry.t) : Prop :=
  PatientRow.nama_pasien r =
    Some match l with
         | e :: _ => PatientEntry.namaPasien e
         | [] => []
         end
  /\ PatientRow.nomor_telp r =
       Some match l with
            | e :: _ => PatientEntry.nomorTelp e
            | [] => []
            end
  /\ (PatientRow.has_pasien r = true <-> l <> [])
  /\ PatientRow.pasien_list r = Some (Json.stringify (Json.JArray (map entry_to_json l))).

(** Every requirement held by a department, directly or in a
    sub-department. *)
Definition every_patient (d : Department.t) : list Patient.t :=
  Department.patients d ++ flat_map SubDepartment.patients (subs_or_empty d).

(** The direct list and some sub-department list of [d] both hold a
    requirement. *)
Definition both_populated (d : Department.t) : Prop :=
  Department.patients d <> []
  /\ exists s, In s (subs_or_empty d) /\ SubDepartment.patients s <> [].

(** With [hasSubDepartments], requirements are not on both levels. *)
Definition exclusive (d : Department.t) : Prop :=
  Department.hasSubDepartments d = true -> ~ both_populated d.

(** What the handlers keep: with [hasSubDepartments] the direct list is
    empty and every sub-department has a non-empty id. *)
Definition well_kept (d : Department.t) : Prop :=
  Department.hasSubDepartments d = true ->
  Department.patients d = []
  /\ Forall (fun s => SubDepartment.id s <> []) (subs_or_empty d).

(** The departments a suspended handler will write back. *)
Definition closure_kept (k : Closure) : Prop :=
  match k with
  | AwaitUpdateDepartment snapshot
  | AwaitDeleteDepartment snapshot
  | AwaitAddDepartment snapshot _ => Forall well_kept snapshot
  | AwaitNextSortOrder department updated _ _ => well_kept department /\ well_kept updated
  | AwaitSavePatientForm department _
  | AwaitSavePasienList department
  | AwaitStatusChange department
  | AwaitDeletePatient department
  | AwaitAddSubDept department _
  | AwaitReorderPatients department => well_kept department
  | AwaitSubmitAppointment _ _
  | AwaitDeleteAppointment _
  | AwaitToggleChecklist _
  | AwaitUpdateSlot _ _ => True
  end.

Definition world_kept (w : World) : Prop :=
  Forall well_kept (departments w)
  /\ Forall (fun p => closure_kept (closure p)) (inflight w).

(** The three lists the page shows. *)
Definition local_state (w : World)
  : list Department.t * list Appointment.t * list WeeklySlot.t :=
  (departments w, appointments w, weeklySlots w).

(** The awaited call is a write of the mutation (an upsert or a delete);
    the other awaited call is the read [getNextSortOrder]. *)
Definition is_write (k : Closure) : bool :=
  match k with
  | AwaitNextSortOrder _ _ _ _ => false
  | _ => true
  end.

Definition is_error (t : Toast) : bool :=
  match t with
  | toast_error _ => true
  | toast_success _ => false
  end.

(* ================================================================== *)
(** ** [src/lib/types.ts]: the WhatsApp number *)

(** A unit that [phone.replace] with the pattern [/[^\d+]/g] keeps: an
    ASCII digit or the plus sign; every other unit is deleted. *)
Definition phone_unit (c : N) : bool := Json.is_digit c || (c =? 43)%N.

(** [formatPhoneForWA], lines 146-152. *)
Definition formatPhoneForWA (phone : jsstring) : jsstring :=
  let clean := filter phone_unit phone in
  if JsString.startsWith (js "0") clean then js "62" ++ skipn 1 clean
  else if JsString.startsWith (js "+62") clean then skipn 1 clean
  else if negb (JsString.startsWith (js "62") clean) then js "62" ++ clean
  else clean.

(* ================================================================== *)
(** ** [src/components/department-card.tsx]: the completed counter *)

(** [calcCompleted], lines 74-76. *)
Definition calcCompleted (patients : list Patient.t) : nat :=
  List.length (filter (fun p => PatientStatus_eqb (Patient.status p) Selesai) patients).

(** The numerator of [calcWeightedProgress]: the weights of the statuses
    added up from the left. *)
Definition weight_sum (patients : list Patient.t) : N :=
  fold_left (fun a p => (a + STATUS_WEIGHT (Patient.status p))%N) patients 0%N.

(* ================================================================== *)
(** ** [src/lib/supabase-queries.ts]: the rows written *)

(** [upsertAppointment], lines 221-234: the row it writes. *)
Definition upsertAppointment_row (appt : Appointment.t) : AppointmentRow.t :=
  {| AppointmentRow.id := Appointment.id appt;
     AppointmentRow.tanggal := Appointment.tanggal appt;
     AppointmentRow.jam := Appointment.jam appt;
     AppointmentRow.kubikel := Appointment.kubikel appt;
     AppointmentRow.rencana_perawatan := Appointment.rencanaPerawatan appt;
     AppointmentRow.kasus := Appointment.kasus appt;
     AppointmentRow.departemen := Appointment.departemen appt;
     AppointmentRow.nama_pasien := Appointment.namaPasien appt;
     AppointmentRow.nomor_telp := Appointment.nomorTelp appt;
     AppointmentRow.checklist := Appointment.checklist appt |}.

(** [upsertWeeklySlot], lines 256-262: the row it writes. *)
Definition upsertWeeklySlot_row (slot : WeeklySlot.t) : WeeklySlotRow.t :=
  {| WeeklySlotRow.id := WeeklySlot.id slot;
     WeeklySlotRow.jam := WeeklySlot.jam slot;
     WeeklySlotRow.senin := Some (WeeklySlot.senin slot);
     WeeklySlotRow.selasa := Some (WeeklySlot.selasa slot);
     WeeklySlotRow.rabu := Some (WeeklySlot.rabu slot);
     WeeklySlotRow.kamis := Some (WeeklySlot.kamis slot);
     WeeklySlotRow.jumat := Some (WeeklySlot.jumat slot);
     WeeklySlotRow.sabtu := Some (WeeklySlot.sabtu slot);
     WeeklySlotRow.minggu := Some (WeeklySlot.minggu slot) |}.

(** A query that ended without an error, with its rows. *)
Definition answered {A : Type} (l : list A) : Response A :=
  {| data := Some l; error := None |}.

(** The photo that [fetchDepartments] makes of a row of [patient_photos],
    lines 42-46. *)
Definition photo_of_row (ph : PhotoRow.t) : Photo.t :=
  {| Photo.id := PhotoRow.id ph;
     Photo.url := PhotoRow.photo_url ph;
     Photo.storagePath := PhotoRow.storage_path ph |}.

(** [{ ...a, jam: a.jam.substring(0, 5) }] *)
Definition Appointment_with_jam (a : Appointment.t) (jam : jsstring) : Appointment.t :=
  {| Appointment.id := Appointment.id a;
     Appointment.tanggal := Appointment.tanggal a;
     Appointment.jam := jam;
     Appointment.kubikel := Appointment.kubikel a;
     Appointment.rencanaPerawatan := Appointment.rencanaPerawatan a;
     Appointment.kasus := Appointment.kasus a;
     Appointment.departemen := Appointment.departemen a;
     Appointment.namaPasien := Appointment.namaPasien a;
     Appointment.nomorTelp := Appointment.nomorTelp a;
     Appointment.checklist := Appointment.checklist a |}.

(* ================================================================== *)
(** ** [src/components/dashboard.tsx]: loading the page *)

(** [loadAll], lines 542-559, after the three fetches have resolved to
    [depts], [appts] and [slots]: the new state, and the upserts sent with
    [Promise.all(...).catch(() => null)], which nothing waits for. *)
Definition loadAll (depts : list Department.t) (appts : list Appointment.t)
    (slots : list WeeklySlot.t) (w : World) : World * list RemoteCall :=
  let w1 := if (0 <? List.length depts)%nat then setDepartments depts w else w in
  let w2 := if (0 <? List.length appts)%nat then setAppointments appts w1 else w1 in
  if (List.length DEFAULT_WEEKLY <=? List.length slots)%nat then
    (setWeeklySlots slots w2, [])
  else if (List.length slots =? 0)%nat then
    (setWeeklySlots DEFAULT_WEEKLY w2, map upsertWeeklySlot DEFAULT_WEEKLY)
  else (setWeeklySlots DEFAULT_WEEKLY w2, []).

(** The effect run at mount: the three fetches on what the queries
    resolve to, then [loadAll]. *)
Definition Dashboard_mount
    (depts : Response DepartmentRow.t) (subs : Response SubDepartmentRow.t)
    (patients : Response PatientRow.t) (photos : Response PhotoRow.t)
    (appts : Response AppointmentRow.t) (slots : Response WeeklySlotRow.t)
    (w : World) : World * list RemoteCall :=
  loadAll (fetchDepartments depts subs patients photos) (fetchAppointments appts)
    (fetchWeeklySlots slots) w.

(* ================================================================== *)
(** ** [src/lib/supabase-queries.ts]: deleting a requirement or a photo *)

(** A request of [deletePatient] or [deletePhoto]. *)
Inductive CleanupCall : Type :=
| select_storage_paths (patient_id : jsstring)
| storage_remove (paths : list jsstring)
| delete_photo_row (id : jsstring)
| delete_patient_row (id : jsstring).

(** [photos.map((p) => p.storage_path).filter(Boolean)]: the paths that
    are neither [null] nor empty. *)
Fixpoint truthy_paths (photos : list (option jsstring)) : list jsstring :=
  match photos with
  | [] => []
  | c :: rest =>
      if opt_truthy c then opt_or_empty c :: truthy_paths rest else truthy_paths rest
  end.

(** [deletePatient], lines 142-156: the requests in order.  [photos] is
    the [data] of the first query, the [storage_path] column of each row
    found, [None] for [null]. *)
Definition deletePatient_calls (id : jsstring) (photos : option (list (option jsstring)))
  : list CleanupCall :=
  select_storage_paths id ::
    match photos with
    | Some l =>
        if (0 <? List.length l)%nat then
          let paths := truthy_paths l in
          if (0 <? List.length paths)%nat then [storage_remove paths] else []
        else []
    | None => []
    end
    ++ [delete_patient_row id].

(** [deletePhoto], lines 192-197. *)
Definition deletePhoto_calls (photo : Photo.t) : list CleanupCall :=
  (if JsString.falsy (Photo.storagePath photo) then []
   else [storage_remove [Photo.storagePath photo]])
  ++ [delete_photo_row (Photo.id photo)].

(* ================================================================== *)
(** ** [src/components/department-card.tsx]: removing a photo *)

(** [array.filter((_, i) => keep(i))], the index counted from [i]. *)
Fixpoint filter_index {A : Type} (keep : nat -> bool) (i : nat) (l : list A) : list A :=
  match l with
  | [] => []
  | x :: rest =>
      if keep i then x :: filter_index keep (S i) rest else filter_index keep (S i) rest
  end.

(** What [handleRemovePhoto] does once [deletePhoto] is fulfilled: the
    requests sent, the new [photoPatient], the department handed to
    [onUpdate] and the toast. *)
Record PhotoRemoval : Type := mkPhotoRemoval
  { removal_calls : list CleanupCall;
    removal_patient : Patient.t;
    removal_update : option Department.t;
    removal_toast : Toast }.

(** [handleRemovePhoto], lines 803-812; [None] when it returns at once. *)
Definition handleRemovePhoto (department : Department.t) (photoPatient : option Patient.t)
    (photoSubDeptId : option jsstring) (index : nat) : option PhotoRemoval :=
  match photoPatient with
  | None => None
  | Some pp =>
      match nth_error (Patient.photos pp) index with
      | None => None
      | Some photo =>
          let newPhotos :=
            filter_index (fun i => negb (i =? index)%nat) 0 (Patient.photos pp) in
          Some {| removal_calls := deletePhoto_calls photo;
                  removal_patient := Patient_with_photos pp newPhotos;
                  removal_update :=
                    updatePhotosInState department (Patient.id pp) newPhotos photoSubDeptId;
                  removal_toast := toast_success (js "Foto dihapus") |}
      end
  end.

(* ================================================================== *)
(** ** Predicates on the entry dialog *)

(** No entry of [l] has an empty name. *)
Definition names_filled (l : list PatientEntry.t) : Prop :=
  Forall (fun e => PatientEntry.namaPasien e <> []) l.

(* ================================================================== *)
(** ** Predicates on the calls in flight *)

(** The closure is the one of [updateSlot]. *)
Definition slot_closure (k : Closure) : bool :=
  match k with
  | AwaitUpdateSlot _ _ => true
  | _ => false
  end.

Definition is_updateSlot_call (p : Pending) : bool := slot_closure (closure p).

(** The number of [updateSlot] calls suspended on their
    [upsertWeeklySlot].  (The upserts that [loadAll] sends at mount are
    awaited by no handler and are not among the calls in flight.) *)
Definition updateSlot_calls (w : World) : nat :=
  List.length (filter is_updateSlot_call (inflight w)).

(** [saving] is set exactly while one [updateSlot] call is suspended. *)
Definition saving_tracks_updateSlot (w : World) : Prop :=
  updateSlot_calls w = if saving w then 1%nat else 0%nat.

(* ================================================================== *)
(** ** [AppointmentsTable]: the pages of the table, lines 1177-1181 *)

(** [PAGE_SIZES = [10, "All"]] *)
Inductive PageSize : Type := Ten | All.

(** [isAll ? filtered.length || 1 : pageSize] *)
Definition effectivePageSize (pageSize : PageSize) (n : nat) : nat :=
  match pageSize with
  | All => if (n =? 0)%nat then 1%nat else n
  | Ten => 10%nat
  end.

(** [Math.ceil(a / b)] for a length [a] and [0 < b]: the quotient of two
    integers below 2^53 is rounded to an integer only when it is one. *)
Definition ceil_div (a b : nat) : nat := ((a + b - 1) / b)%nat.

(** [Math.max(1, Math.ceil(filtered.length / effectivePageSize))] *)
Definition totalPages (pageSize : PageSize) (n : nat) : nat :=
  Nat.max 1 (ceil_div n (effectivePageSize pageSize n)).

(** [Math.min(currentPage, totalPages)] *)
Definition page (pageSize : PageSize) (n currentPage : nat) : nat :=
  Nat.min currentPage (totalPages pageSize n).

(** [l.slice(a, b)] for [0 <= a]. *)
Definition slice {A : Type} (l : list A) (a b : nat) : list A :=
  firstn (b - a) (skipn a l).

(** The rows shown, [paged]. *)
Definition paged {A : Type} (pageSize : PageSize) (filtered : list A) (currentPage : nat)
  : list A :=
  match pageSize with
  | All => filtered
  | Ten =>
      let size := effectivePageSize pageSize (List.length filtered) in
      let p := page pageSize (List.length filtered) currentPage in
      slice filtered ((p - 1) * size) (p * size)
  end.

(** [pageNums], lines 1252-1257: the buttons of the pager, a negative
    number for an ellipsis. *)
Definition pageNums (totalPages page : Z) : list Z :=
  if (totalPages <=? 7)%Z then map (fun i => (Z.of_nat i + 1)%Z) (seq 0 (Z.to_nat totalPages))
  else if (page <=? 4)%Z then [1; 2; 3; 4; 5; -1; totalPages]%Z
  else if (totalPages - 3 <=? page)%Z then
    [1; -1; totalPages - 4; totalPages - 3; totalPages - 2; totalPages - 1; totalPages]%Z
  else [1; -1; page - 1; page; page + 1; -2; totalPages]%Z.

(** The numbers of a list grow from left to right. *)
Fixpoint increasing (l : list Z) : Prop :=
  match l with
  | a :: (b :: _) as rest => (a < b)%Z /\ increasing rest
  | _ => True
  end.

(* ================================================================== *)
(** ** [src/components/photo-modal.tsx]: the photo viewer *)

(** The previous and the next button of the viewer, lines 167-174, shown
    when there is more than one photo: the index they set. *)
Definition viewer_prev (photos viewingIndex : nat) : option nat :=
  if (1 <? photos)%nat
  then Some (if (viewingIndex =? 0)%nat then photos - 1 else viewingIndex - 1)%nat
  else None.

Definition viewer_next (photos viewingIndex : nat) : option nat :=
  if (1 <? photos)%nat
  then Some (if (viewingIndex =? photos - 1)%nat then 0 else viewingIndex + 1)%nat
  else None.

(* ================================================================== *)
(** ** [src/components/dashboard.tsx]: the settings dialog *)

(** A call of the password form to [supabase-queries.ts]. *)
Inductive PasswordCall : Type :=
| verifyPassword (password : jsstring)
| changePassword (newPassword : jsstring).

(** How an awaited call ends. *)
Inductive Outcome (A : Type) : Type :=
| Fulfilled (value : A)
| Rejected.
Arguments Fulfilled {A} _.
Arguments Rejected {A}.

(** What one press of the button does: the calls made in order, the toast
    shown, and whether the fields were cleared and the dialog closed. *)
Record PasswordAttempt : Type := mkPasswordAttempt
  { password_calls : list PasswordCall;
    password_toast : Toast;
    password_closed : bool }.

(** [handleChangePassword], lines 302-320; [verified] and [changed] are
    how [verifyPassword] and [changePassword] end when they are called. *)
Definition handleChangePassword (currentPw newPw confirmPw : jsstring)
    (verified : Outcome bool) (changed : Outcome unit) : PasswordAttempt :=
  if JsString.falsy currentPw then
    {| password_calls := [];
       password_toast := toast_error (js "Masukkan password saat ini");
       password_closed := false |}
  else if (List.length newPw <? 6)%nat then
    {| password_calls := [];
       password_toast := toast_error (js "Password baru minimal 6 karakter");
       password_closed := false |}
  else if negb (JsString.eqb newPw confirmPw) then
    {| password_calls := [];
       password_toast := toast_error (js "Konfirmasi password tidak cocok");
       password_closed := false |}
  else
    match verified with
    | Rejected =>
        {| password_calls := [verifyPassword currentPw];
           password_toast := toast_error (js "Gagal mengubah password");
           password_closed := false |}
    | Fulfilled false =>
        {| password_calls := [verifyPassword currentPw];
           password_toast := toast_error (js "Password saat ini salah");
           password_closed := false |}
    | Fulfilled true =>
        match changed with
        | Rejected =>
            {| password_calls := [verifyPassword currentPw; changePassword newPw];
               password_toast := toast_error (js "Gagal mengubah password");
               password_closed := false |}
        | Fulfilled _ =>
            {| password_calls := [verifyPassword currentPw; changePassword newPw];
               password_toast := toast_success (js "Password berhasil diubah");
               password_closed := true |}
        end
    end.

(* ================================================================== *)
(** ** [src/components/dashboard.tsx]: the department export *)

(** A row of a sheet of [exportDepartmentsExcel]. *)
Record ExportRow : Type := mkExportRow
  { export_sub : jsstring;
    export_req : jsstring;
    export_status : PatientStatus;
    export_nama : jsstring;
    export_telp : jsstring;
    export_jml : nat }.

(** [addPatients], lines 73-84: the rows it pushes. *)
Definition addPatients (patients : list Patient.t) (subName : jsstring) : list ExportRow :=
  flat_map
    (fun p =>
       if (0 <? List.length (Patient.pasienList p))%nat then
         map (fun pe =>
                {| export_sub := subName; export_req := Patient.requirement p;
                   export_status := Patient.status p;
                   export_nama := PatientEntry.namaPasien pe;
                   export_telp := PatientEntry.nomorTelp pe;
                   export_jml := List.length (Patient.pasienList p) |})
           (Patient.pasienList p)
       else
         [ {| export_sub := subName; export_req := Patient.requirement p;
              export_status := Patient.status p;
              export_nama := js "-"; export_telp := js "-"; export_jml := 0 |} ])
    patients.

(** The sheet of one department, lines 69-104: its name and its rows. *)
Definition department_sheet (dept : Department.t) : jsstring * list ExportRow :=
  (firstn 31 (Department.name dept),
   match Department.hasSubDepartments dept, Department.subDepartments dept with
   | true, Some subs =>
       flat_map (fun sub => addPatients (SubDepartment.patients sub) (SubDepartment.name sub))
         subs
   | _, _ => addPatients (Department.patients dept) []
   end).

(* ================================================================== *)
(** ** [src/app/page.tsx]: the session of the day *)

Section Session.

(** Whether a JSON number literal is a number other than zero, its
    truthiness: the rounding of the literal to a double is not modelled. *)
Variable number_truthy : jsstring -> bool.

(** [!!v] on a parsed JSON value. *)
Definition truthy (v : Json.value) : bool :=
  match v with
  | Json.JNull => false
  | Json.JBool b => b
  | Json.JNumber literal => number_truthy literal
  | Json.JString s => negb (JsString.falsy s)
  | Json.JArray _ => true
  | Json.JObject _ => true
  end.

(** [v.k] for one of the keys [loggedIn] and [date], which no prototype
    defines: the member of an object, [undefined] ([None]) otherwise. *)
Definition member (k : jsstring) (v : Json.value) : option Json.value :=
  match v with
  | Json.JObject o => option_map snd (find (fun kv => JsString.eqb (fst kv) k) o)
  | _ => None
  end.

(** The entry [dental_clinic_session] of [localStorage] and the
    [isLoggedIn] state of [Home]. *)
Record Home : Type := mkHome
  { storage : option jsstring;
    isLoggedIn : bool }.

(** [getStoredSession], lines 12-21; [JNull] is [null]. *)
Definition getStoredSession (h : Home) : Json.value :=
  match storage h with
  | None => Json.JNull
  | Some raw =>
      if JsString.falsy raw then Json.JNull
      else
        match Json.parse raw with
        | Some v => v
        | None => Json.JNull
        end
  end.

(** [session?.loggedIn] as a condition. *)
Definition session_loggedIn (session : Json.value) : bool :=
  match member (js "loggedIn") session with
  | Some v => truthy v
  | None => false
  end.

(** [session.date === today] *)
Definition session_date_is (session : Json.value) (today : jsstring) : bool :=
  match member (js "date") session with
  | Some (Json.JString d) => JsString.eqb d today
  | _ => false
  end.

(** [JSON.stringify({ loggedIn: true, date: today })] *)
Definition session_text (today : jsstring) : jsstring :=
  Json.stringify
    (Json.JObject [ (js "loggedIn", Json.JBool true); (js "date", Json.JString today) ]).

(** [saveSession], lines 23-25; [today] is [getTodayString()]. *)
Definition saveSession (today : jsstring) (h : Home) : Home :=
  {| storage := Some (session_text today); isLoggedIn := isLoggedIn h |}.

(** [clearSession], lines 27-29. *)
Definition clearSession (h : Home) : Home :=
  {| storage := None; isLoggedIn := isLoggedIn h |}.

Definition setIsLoggedIn (b : bool) (h : Home) : Home :=
  {| storage := storage h; isLoggedIn := b |}.

(** The effect run at mount, lines 35-43. *)
Definition Home_mount (today : jsstring) (h : Home) : Home :=
  let session := getStoredSession h in
  if session_loggedIn session && session_date_is session today
  then setIsLoggedIn true h
  else if session_loggedIn session then clearSession h
  else h.

(** One tick of the hourly interval, lines 46-56, which runs while
    [isLoggedIn]. *)
Definition Home_tick (today : jsstring) (h : Home) : Home :=
  if isLoggedIn h then
    let session := getStoredSession h in
    if truthy session && negb (session_date_is session today)
    then setIsLoggedIn false (clearSession h)
    else h
  else h.

(** [handleLogin] and [handleLogout], lines 58-59. *)
Definition handleLogin (today : jsstring) (h : Home) : Home :=
  setIsLoggedIn true (saveSession today h).

Definition handleLogout (h : Home) : Home :=
  setIsLoggedIn false (clearSession h).

(** The page loaded again: the storage stays and the state starts from
    [useState(false)]. *)
Definition Home_reload (h : Home) : Home :=
  {| storage := storage h; isLoggedIn := false |}.

End Session.

(* ================================================================== *)
(** ** Predicates on the departments of the page *)

(** A department with [hasSubDepartments] has its [subDepartments] array. *)
Definition subs_defined (d : Department.t) : Prop :=
  Department.hasSubDepartments d = true -> Department.subDepartments d <> None.

(** The array is there and every requirement of the department has the
    property [Q]. *)
Definition department_sound (Q : Patient.t -> Prop) (d : Department.t) : Prop :=
  subs_defined d /\ Forall Q (every_patient d).

(** The departments a suspended handler will write back are sound. *)
Definition closure_sound (Q : Patient.t -> Prop) (k : Closure) : Prop :=
  match k with
  | AwaitUpdateDepartment snapshot
  | AwaitDeleteDepartment snapshot
  | AwaitAddDepartment snapshot _ => Forall (department_sound Q) snapshot
  | AwaitNextSortOrder department updated _ _ =>
      department_sound Q department /\ department_sound Q updated
  | AwaitSavePatientForm department _
  | AwaitSavePasienList department
  | AwaitStatusChange department
  | AwaitDeletePatient department
  | AwaitAddSubDept department _
  | AwaitReorderPatients department => department_sound Q department
  | AwaitSubmitAppointment _ _
  | AwaitDeleteAppointment _
  | AwaitToggleChecklist _
  | AwaitUpdateSlot _ _ => True
  end.

Definition world_sound (Q : Patient.t -> Prop) (w : World) : Prop :=
  Forall (department_sound Q) (departments w)
  /\ Forall (fun p => closure_sound Q (closure p)) (inflight w).

(** No condition on the requirements. *)
Definition any_patient (p : Patient.t) : Prop := True.

(* ================================================================== *)
(** ** [src/lib/supabase-queries.ts]: the list fetches as promises *)

(** What awaiting a query gives: the client resolves to [{ data, error }],
    or its promise rejects and the [await] throws. *)
Inductive Awaited (A : Type) : Type :=
| Resolves (r : Response A)
| Rejects.
Arguments Resolves {A} _.
Arguments Rejects {A}.

(** [l.map(f)] for an [f] that can throw ([None]): the first throw ends
    the map. *)
Fixpoint traverse {A B : Type} (f : A -> option B) (l : list A) : option (list B) :=
  match l with
  | [] => Some []
  | x :: rest =>
      match f x with
      | None => None
      | Some y =>
          match traverse f rest with
          | None => None
          | Some ys => Some (y :: ys)
          end
      end
  end.

(** The property names that a plain object inherits from
    [Object.prototype]. *)
Definition object_prototype_key (k : jsstring) : bool :=
  existsb (JsString.eqb k)
    [ js "constructor"; js "__proto__"; js "hasOwnProperty"; js "isPrototypeOf";
      js "propertyIsEnumerable"; js "toLocaleString"; js "toString"; js "valueOf";
      js "__defineGetter__"; js "__defineSetter__"; js "__lookupGetter__";
      js "__lookupSetter__" ].

(** The loop of lines 39-47 on the plain object [photosByPatient = {}].
    For a [patient_id] that names an inherited property the test
    [!photosByPatient[ph.patient_id]] finds the inherited value, which has
    no [push]: the call throws a TypeError ([None]). *)
Fixpoint photosByPatient_from (photos : list PhotoRow.t)
    (m : list (jsstring * list Photo.t)) : option (list (jsstring * list Photo.t)) :=
  match photos with
  | [] => Some m
  | ph :: rest =>
      if object_prototype_key (PhotoRow.patient_id ph) then None
      else photosByPatient_from rest (push_photo (PhotoRow.patient_id ph) (photo_of_row ph) m)
  end.

Definition photosByPatient_js (photos : list PhotoRow.t)
  : option (list (jsstring * list Photo.t)) :=
  photosByPatient_from photos [].

(** [photosByPatient[row.id] || []], line 74, on the plain object: for an
    id that names an inherited property the value found is that property
    and not an array of photos ([None]). *)
Definition photos_of_js (m : list (jsstring * list Photo.t)) (id : jsstring)
  : option (list Photo.t) :=
  if object_prototype_key id then None else Some (photos_of m id).

(** [toPatient], lines 49-76, with its throw: a [pasien_list] text that
    parses to [null] leaves [pasienList = null], and [pasienList.length] is
    a TypeError outside the [try]; nothing else in the body throws.  (A
    text that parses to anything else than an array of entries, and a row
    id that names a property of [Object.prototype], give a value outside the
    type [Patient]; [toPatient] above reads the first as no entries and the
    second as no photos.) *)
Definition toPatient_js (m : list (jsstring * list Photo.t)) (row : PatientRow.t)
  : option Patient.t :=
  if opt_truthy (PatientRow.pasien_list row) then
    match Json.parse (opt_or_empty (PatientRow.pasien_list row)) with
    | Some Json.JNull => None
    | _ => Some (toPatient m row)
    end
  else Some (toPatient m row).

(** The text of [pasien_list] is read and gives [null]. *)
Definition entry_list_null (row : PatientRow.t) : bool :=
  opt_truthy (PatientRow.pasien_list row)
  && match Json.parse (opt_or_empty (PatientRow.pasien_list row)) with
     | Some Json.JNull => true
     | _ => false
     end.

(** [s.department_id === d.id] *)
Definition deptSubs_of (d : DepartmentRow.t) (s : SubDepartmentRow.t) : bool :=
  JsString.eqb (SubDepartmentRow.department_id s) (DepartmentRow.id d).

(** [p.department_id === d.id && !p.sub_department_id] *)
Definition directPatients_of (d : DepartmentRow.t) (p : PatientRow.t) : bool :=
  JsString.eqb (PatientRow.department_id p) (DepartmentRow.id d)
  && negb (opt_truthy (PatientRow.sub_department_id p)).

(** [p.sub_department_id === s.id] *)
Definition patients_of_sub (s : SubDepartmentRow.t) (p : PatientRow.t) : bool :=
  match PatientRow.sub_department_id p with
  | Some i => JsString.eqb i (SubDepartmentRow.id s)
  | None => false
  end.

(** The patient row passes one of the filters of [depts.map] and is handed
    to [toPatient]. *)
Definition row_is_read (depts : list DepartmentRow.t) (subs : list SubDepartmentRow.t)
    (p : PatientRow.t) : bool :=
  existsb (fun d =>
             directPatients_of d p
             || existsb (fun s => deptSubs_of d s && patients_of_sub s p) subs)
    depts.

(** The body of [depts.map], lines 78-92. *)
Definition department_js (m : list (jsstring * list Photo.t))
    (subs : list SubDepartmentRow.t) (patients : list PatientRow.t)
    (d : DepartmentRow.t) : option Department.t :=
  let deptSubs := filter (deptSubs_of d) subs in
  let directPatients := filter (directPatients_of d) patients in
  match traverse (toPatient_js m) directPatients with
  | None => None
  | Some direct =>
      match traverse
              (fun s =>
                 match traverse (toPatient_js m) (filter (patients_of_sub s) patients) with
                 | None => None
                 | Some ps =>
                     Some {| SubDepartment.id := SubDepartmentRow.id s;
                             SubDepartment.name := SubDepartmentRow.name s;
                             SubDepartment.patients := ps |}
                 end)
              deptSubs with
      | None => None
      | Some subDepartments =>
          Some {| Department.id := DepartmentRow.id d;
                  Department.name := DepartmentRow.name d;
                  Department.hasSubDepartments := DepartmentRow.has_sub_departments d;
                  Department.patients := direct;
                  Department.subDepartments := Some subDepartments |}
      end
  end.

(** [fetchDepartments], lines 20-93, as the promise it returns.  The four
    queries are awaited one after the other; after a failed first query the
    others are not sent. *)
Definition fetchDepartments_js
    (depts : Awaited DepartmentRow.t) (subs : Awaited SubDepartmentRow.t)
    (patients : Awaited PatientRow.t) (photos : Awaited PhotoRow.t)
  : Outcome (list Department.t) :=
  match depts with
  | Rejects => Rejected
  | Resolves depts =>
      if failed depts then Fulfilled []
      else
        match subs, patients, photos with
        | Resolves subs, Resolves patients, Resolves photos =>
            match photosByPatient_js (rows photos) with
            | None => Rejected
            | Some m =>
                match traverse (department_js m (rows subs) (rows patients)) (rows depts) with
                | None => Rejected
                | Some l => Fulfilled l
                end
            end
        | _, _, _ => Rejected
        end
  end.

(** A row of [appointments] as the client delivers it: [jam] can be
    [null]. *)
Module AppointmentRecord.
Record t : Type := mk
  { id : jsstring;
    tanggal : jsstring;
    jam : option jsstring;
    kubikel : jsstring;
    rencana_perawatan : jsstring;
    kasus : jsstring;
    departemen : jsstring;
    nama_pasien : jsstring;
    nomor_telp : jsstring;
    checklist : bool }.
End AppointmentRecord.

(** The body of [data.map], lines 207-218: [row.jam.substring(0, 5)]
    throws a TypeError on a [null] time. *)
Definition appointment_of_record (row : AppointmentRecord.t) : option Appointment.t :=
  match AppointmentRecord.jam row with
  | None => None
  | Some jam =>
      Some {| Appointment.id := AppointmentRecord.id row;
              Appointment.tanggal := AppointmentRecord.tanggal row;
              Appointment.jam := firstn 5 jam;
              Appointment.kubikel := AppointmentRecord.kubikel row;
              Appointment.rencanaPerawatan := AppointmentRecord.rencana_perawatan row;
              Appointment.kasus := AppointmentRecord.kasus row;
              Appointment.departemen := AppointmentRecord.departemen row;
              Appointment.namaPasien := AppointmentRecord.nama_pasien row;
              Appointment.nomorTelp := AppointmentRecord.nomor_telp row;
              Appointment.checklist := AppointmentRecord.checklist row |}
  end.

(** [fetchAppointments], lines 201-219, as the promise it returns. *)
Definition fetchAppointments_js (q : Awaited AppointmentRecord.t)
  : Outcome (list Appointment.t) :=
  match q with
  | Rejects => Rejected
  | Resolves r =>
      if failed r then Fulfilled []
      else
        match traverse appointment_of_record (rows r) with
        | None => Rejected
        | Some l => Fulfilled l
        end
  end.

(** [fetchWeeklySlots], lines 242-254, as the promise it returns: no row
    makes its map throw. *)
Definition fetchWeeklySlots_js (q : Awaited WeeklySlotRow.t)
  : Outcome (list WeeklySlot.t) :=
  match q with
  | Rejects => Rejected
  | Resolves r => Fulfilled (fetchWeeklySlots r)
  end.

(** Some query of the fetch ends with an error of the persistence service
    or without data. *)
Definition query_failed {A : Type} (q : Awaited A) : Prop :=
  match q with
  | Resolves r => failed r = true
  | Rejects => True
  end.

(* ================================================================== *)
(** ** [src/components/department-card.tsx]: the photo dialog on the page *)

(** [handleAddPhoto] and [handleRemovePhoto], lines 793-812, suspended on
    [uploadPhotoBase64] or [deletePhoto]: the [department] prop and the
    [photoPatient] and [photoSubDeptId] state of the render the handler
    belongs to.  Neither applies anything before its call: the department
    is handed to [onUpdate] when the call is fulfilled. *)
Inductive PhotoClosure : Type :=
| AwaitUploadPhoto (department : Department.t) (photoPatient : Patient.t)
    (photoSubDeptId : option jsstring) (blob : Blob) (now : N)
| AwaitDeletePhoto (department : Department.t) (photoPatient : Patient.t)
    (photoSubDeptId : option jsstring) (index : nat).

(** The page with its photo dialogs: the world above and the photo calls
    awaited, in order of issue. *)
Record Page : Type := mkPage
  { page_world : World;
    photo_calls : list PhotoClosure }.

Definition setWorld (w : World) (p : Page) : Page :=
  {| page_world := w; photo_calls := photo_calls p |}.

(** An event of the world, the photo dialog of a requirement opened and a
    file chosen or a photo removed, or a photo call settling: [answer] is
    [None] when the awaited promise rejects, and otherwise what the service
    answered to the upload. *)
Inductive PageEvent : Type :=
| Base (e : Event)
| AddPhoto (card : nat) (tbl : TableRef) (row : nat) (file : Blob) (now : N)
| RemovePhoto (card : nat) (tbl : TableRef) (row : nat) (index : nat)
| SettlePhoto (i : nat) (answer : option UploadAnswers).

(** The handler resumes after its photo call. *)
Definition resume_photo (k : PhotoClosure) (answer : option UploadAnswers) (p : Page)
  : Page :=
  match answer with
  | None => p
  | Some svc =>
      match k with
      | AwaitUploadPhoto department photoPatient photoSubDeptId blob now =>
          match snd (uploadPhotoBase64 (Patient.id photoPatient) blob now svc) with
          | UploadPhoto photo =>
              let newPhotos := Patient.photos photoPatient ++ [photo] in
              match updatePhotosInState department (Patient.id photoPatient) newPhotos
                      photoSubDeptId with
              | Some updated => setWorld (handleUpdateDepartment updated (page_world p)) p
              | None => p
              end
          | _ => p
          end
      | AwaitDeletePhoto department photoPatient photoSubDeptId index =>
          match handleRemovePhoto department (Some photoPatient) photoSubDeptId index with
          | Some r =>
              match removal_update r with
              | Some updated =>
                  setWorld (toast (removal_toast r)
                              (handleUpdateDepartment updated (page_world p))) p
              | None => p
              end
          | None => p
          end
      end
  end.

Definition page_step (p : Page) (e : PageEvent) : Page :=
  match e with
  | Base e => setWorld (step (page_world p) e) p
  | AddPhoto card tbl row file now =>
      match nth_error (departments (page_world p)) card with
      | Some department =>
          match rendered_table department tbl with
          | Some (subDeptId, patients) =>
              match nth_error patients row with
              | Some patient =>
                  if (MAX_FILE_SIZE_BYTES <? size file)%N then p
                  else
                    {| page_world := page_world p;
                       photo_calls :=
                         photo_calls p
                           ++ [AwaitUploadPhoto department patient (or_null subDeptId)
                                 file now] |}
              | None => p
              end
          | None => p
          end
      | None => p
      end
  | RemovePhoto card tbl row index =>
      match nth_error (departments (page_world p)) card with
      | Some department =>
          match rendered_table department tbl with
          | Some (subDeptId, patients) =>
              match nth_error patients row with
              | Some patient =>
                  match nth_error (Patient.photos patient) index with
                  | Some _ =>
                      {| page_world := page_world p;
                         photo_calls :=
                           photo_calls p
                             ++ [AwaitDeletePhoto department patient (or_null subDeptId)
                                   index] |}
                  | None => p
                  end
              | None => p
              end
          | None => p
          end
      | None => p
      end
  | SettlePhoto i answer =>
      match nth_error (photo_calls p) i with
      | Some k =>
          resume_photo k answer
            {| page_world := page_world p; photo_calls := remove_nth i (photo_calls p) |}
      | None => p
      end
  end.

Definition page_run (es : list PageEvent) (p : Page) : Page := fold_left page_step es p.

(** The page at mount, with no photo call awaited. *)
Definition page_of (w : World) : Page := {| page_world := w; photo_calls := [] |}.

(** Every event of [es] is the fulfilment of an in-flight write of the
    world, whose handler applied its change before it sent the call; no
    photo call settles. *)
Fixpoint optimistic_fulfilments (p : Page) (es : list PageEvent) : bool :=
  match es with
  | [] => true
  | Base (Settle i None) :: rest =>
      match nth_error (inflight (page_world p)) i with
      | Some pending => is_write (closure pending)
      | None => true
      end && optimistic_fulfilments (page_step p (Base (Settle i None))) rest
  | _ :: _ => false
  end.

(* ================================================================== *)
(** * Properties *)

(** ** Strings *)

Module JsStringFacts.
Import JsString.

Lemma eqb_eq (a b : t) : eqb a b = true <-> a = b.
Proof.
  revert b; induction a as [|x a IH]; intros [|y b]; simpl;
    try (split; [discriminate | congruence]); try tauto.
  rewrite andb_true_iff, N.eqb_eq, IH. split.
  - intros [-> ->]; reflexivity.
  - intros E; injection E; auto.
Qed.

Lemma eqb_refl (a : t) : eqb a a = true.
Proof. apply eqb_eq; reflexivity. Qed.

Lemma eqb_neq (a b : t) : eqb a b = false <-> a <> b.
Proof.
  rewrite <- eqb_eq. destruct (eqb a b); split; congruence.
Qed.

Lemma trimStart_head (c : N) (r : t) :
  is_white_space c = false -> trimStart (c :: r) = c :: r.
Proof. intros H; simpl; rewrite H; reflexivity. Qed.

(** A string whose first unit is not white space does not trim to the
    empty string. *)
Lemma trim_head_nonempty (c : N) (r : t) :
  is_white_space c = false -> falsy (trim (c :: r)) = false.
Proof.
  intros H. unfold trim. rewrite (trimStart_head c r H).
  unfold trimEnd. simpl rev.
  assert (G : forall u, falsy (rev (trimStart (u ++ [c]))) = false).
  { induction u as [|x u IH]; simpl.
    - rewrite H. reflexivity.
    - destruct (is_white_space x); [exact IH|].
      simpl. destruct (rev (u ++ [c])); reflexivity. }
  apply G.
Qed.

End JsStringFacts.

(** ** JSON: a quoted string reads back *)

Module JsonFacts.
Import Json.

Lemma hex_value_digit (k : N) : (k < 16)%N -> hex_value (hex_digit k) = Some k.
Proof.
  intros Hk. unfold hex_digit, hex_value.
  destruct (N.ltb_spec k 10).
  - replace ((48 <=? 48 + k) && (48 + k <=? 57))%N with true.
    + f_equal; lia.
    + symmetry; apply andb_true_iff; split; apply N.leb_le; lia.
  - replace ((48 <=? 87 + k) && (87 + k <=? 57))%N with false.
    + replace ((97 <=? 87 + k) && (87 + k <=? 102))%N with true.
      * f_equal; lia.
      * symmetry; apply andb_true_iff; split; apply N.leb_le; lia.
    + symmetry; apply andb_false_iff; right; apply N.leb_gt; lia.
Qed.

Lemma base16_digits (c : N) :
  (c < 65536)%N ->
  ((c / 4096 mod 16) * 4096 + (c / 256 mod 16) * 256
   + (c / 16 mod 16) * 16 + c mod 16 = c)%N.
Proof.
  intros Hc. zify. Z.to_euclidean_division_equations. lia.
Qed.

Lemma hex4_escape (c : N) :
  (c < 65536)%N ->
  hex4 (hex_digit (c / 4096 mod 16)) (hex_digit (c / 256 mod 16))
       (hex_digit (c / 16 mod 16)) (hex_digit (c mod 16)) = Some c.
Proof.
  intros Hc. unfold hex4.
  rewrite !hex_value_digit by (apply N.mod_lt; discriminate).
  f_equal. apply base16_digits, Hc.
Qed.

Lemma surrogate_bound (c : N) : is_surrogate c = true -> (c < 65536)%N.
Proof.
  unfold is_surrogate. rewrite andb_true_iff, !N.leb_le. lia.
Qed.

Lemma parse_chars_plain (c : N) (tail : jsstring) :
  plain c ->
  parse_chars (c :: tail) =
    match parse_chars tail with
    | Some (str, rest) => Some (c :: str, rest)
    | None => None
    end.
Proof.
  intros (H1 & H2 & H3). simpl. rewrite H1, H2, H3. reflexivity.
Qed.

Lemma surrogate_plain (c : N) : is_surrogate c = true -> plain c.
Proof.
  unfold is_surrogate, plain, quote_mark, backslash.
  rewrite andb_true_iff, !N.leb_le, !N.eqb_neq, N.ltb_ge. lia.
Qed.

Lemma high_surrogate_plain (c : N) : is_high_surrogate c = true -> plain c.
Proof.
  intros H. apply surrogate_plain. revert H. unfold is_high_surrogate, is_surrogate.
  rewrite !andb_true_iff, !N.leb_le. lia.
Qed.

Lemma low_surrogate_plain (c : N) : is_low_surrogate c = true -> plain c.
Proof.
  intros H. apply surrogate_plain. revert H. unfold is_low_surrogate, is_surrogate.
  rewrite !andb_true_iff, !N.leb_le. lia.
Qed.

(** Whatever [quote_unit] writes for [c] is read back as [c]. *)
Lemma parse_chars_quote_unit (c : N) (tail str rest : jsstring) :
  parse_chars tail = Some (str, rest) ->
  parse_chars (quote_unit c ++ tail) = Some (c :: str, rest).
Proof.
  intros Ht. unfold quote_unit.
  destruct (N.eqb_spec c 8) as [->|N8]; [simpl; rewrite Ht; reflexivity|].
  destruct (N.eqb_spec c 9) as [->|N9]; [simpl; rewrite Ht; reflexivity|].
  destruct (N.eqb_spec c 10) as [->|N10]; [simpl; rewrite Ht; reflexivity|].
  destruct (N.eqb_spec c 12) as [->|N12]; [simpl; rewrite Ht; reflexivity|].
  destruct (N.eqb_spec c 13) as [->|N13]; [simpl; rewrite Ht; reflexivity|].
  destruct (N.eqb_spec c quote_mark) as [->|Nq]; [simpl; rewrite Ht; reflexivity|].
  destruct (N.eqb_spec c backslash) as [->|Nb]; [simpl; rewrite Ht; reflexivity|].
  destruct ((c <? 32)%N || is_surrogate c) eqn:E.
  - assert (Hc : (c < 65536)%N).
    { apply orb_true_iff in E as [E|E].
      - apply N.ltb_lt in E; lia.
      - apply surrogate_bound, E. }
    unfold unicode_escape.
    change (parse_chars ([backslash; 117%N; hex_digit (c / 4096 mod 16);
                          hex_digit (c / 256 mod 16); hex_digit (c / 16 mod 16);
                          hex_digit (c mod 16)] ++ tail))
      with (match hex4 (hex_digit (c / 4096 mod 16)) (hex_digit (c / 256 mod 16))
                       (hex_digit (c / 16 mod 16)) (hex_digit (c mod 16)),
                  parse_chars tail with
            | Some u, Some (s, r) => Some (u :: s, r)
            | _, _ => None
            end).
    rewrite (hex4_escape c Hc), Ht. reflexivity.
  - apply orb_false_iff in E as [E1 E2].
    change ([c] ++ tail) with (c :: tail).
    rewrite parse_chars_plain, Ht; [reflexivity|].
    repeat split; [apply N.eqb_neq, Nq | apply N.eqb_neq, Nb | exact E1].
Qed.

Lemma quote_units_cons2 (c c' : N) (r' : jsstring) :
  quote_units (c :: c' :: r') =
    if is_high_surrogate c && is_low_surrogate c'
    then c :: c' :: quote_units r'
    else quote_unit c ++ quote_units (c' :: r').
Proof. reflexivity. Qed.

(** The body written by [quote_units], then the closing quote, reads back
    as the string. *)
Lemma parse_chars_quote_units (s rest : jsstring) :
  parse_chars (quote_units s ++ quote_mark :: rest) = Some (s, rest).
Proof.
  assert (G : forall k s, (List.length s <= k)%nat ->
              parse_chars (quote_units s ++ quote_mark :: rest) = Some (s, rest)).
  { induction k as [|k IH]; intros [|c r] Hlen; try reflexivity.
    - simpl in Hlen; lia.
    - simpl in Hlen. destruct r as [|c' r'].
      + change (quote_units [c]) with (quote_unit c).
        apply parse_chars_quote_unit. reflexivity.
      + rewrite quote_units_cons2.
        destruct (is_high_surrogate c && is_low_surrogate c') eqn:E.
        * apply andb_true_iff in E as [Eh El].
          change ((c :: c' :: quote_units r') ++ quote_mark :: rest)
            with (c :: c' :: (quote_units r' ++ quote_mark :: rest)).
          rewrite (parse_chars_plain c _ (high_surrogate_plain c Eh)).
          rewrite (parse_chars_plain c' _ (low_surrogate_plain c' El)).
          rewrite IH by (simpl in Hlen |- *; lia). reflexivity.
        * rewrite <- app_assoc.
          apply parse_chars_quote_unit. apply IH. simpl in Hlen |- *; lia. }
  apply (G (List.length s)). lia.
Qed.

(** *** The fuel of the parser is enough *)

Lemma skip_ws_length (s : jsstring) : (List.length (skip_ws s) <= List.length s)%nat.
Proof.
  induction s as [|c r IH]; cbn; [lia|]. destruct (is_ws c); cbn; lia.
Qed.

Lemma parse_chars_length (s : jsstring) :
  forall str rest, parse_chars s = Some (str, rest) ->
                   (List.length rest < List.length s)%nat.
Proof.
  assert (G : forall k s, (List.length s <= k)%nat ->
              forall str rest, parse_chars s = Some (str, rest) ->
                               (List.length rest < List.length s)%nat).
  { induction k as [|k IH]; intros [|c r] Hlen str rest H; try discriminate H.
    - cbn in Hlen; lia.
    - cbn in Hlen. cbn [parse_chars] in H.
      destruct (c =? quote_mark)%N; [injection H as _ <-; cbn; lia|].
      destruct (c =? backslash)%N.
      + destruct r as [|e r1]; [discriminate|].
        destruct (e =? 117)%N.
        * destruct r1 as [|h1 [|h2 [|h3 [|h4 r2]]]]; try discriminate.
          destruct (hex4 h1 h2 h3 h4); [|discriminate].
          destruct (parse_chars r2) as [[str' rest']|] eqn:E; [|discriminate].
          injection H as _ <-. apply IH in E; cbn in *; lia.
        * destruct (simple_escape e); [|discriminate].
          destruct (parse_chars r1) as [[str' rest']|] eqn:E; [|discriminate].
          injection H as _ <-. apply IH in E; cbn in *; lia.
      + destruct (c <? 32)%N; [discriminate|].
        destruct (parse_chars r) as [[str' rest']|] eqn:E; [|discriminate].
        injection H as _ <-. apply IH in E; cbn in *; lia. }
  intros str rest H. eapply G; [reflexivity | exact H].
Qed.

Lemma span_digits_length (s : jsstring) :
  List.length s = (List.length (fst (span_digits s)) + List.length (snd (span_digits s)))%nat.
Proof.
  induction s as [|c r IH]; cbn; [reflexivity|].
  destruct (is_digit c); [|reflexivity].
  destruct (span_digits r) as [ds rest]. cbn in *. lia.
Qed.

Lemma digits1_length (s ds rest : jsstring) :
  digits1 s = Some (ds, rest) -> (List.length rest < List.length s)%nat.
Proof.
  unfold digits1. pose proof (span_digits_length s) as L.
  destruct (span_digits s) as [[|d ds'] rest']; [discriminate|].
  intros H. injection H as _ <-. cbn in L. lia.
Qed.

Lemma parse_number_length (s lit rest : jsstring) :
  parse_number s = Some (lit, rest) -> (List.length rest < List.length s)%nat.
Proof.
  unfold parse_number.
  destruct (match s with
            | c :: r => if (c =? 45)%N then ([c], r) else ([], s)
            | [] => ([], s)
            end) as [sign s1] eqn:E0.
  assert (L0 : (List.length s1 <= List.length s)%nat).
  { destruct s as [|c r]; [injection E0 as _ <-; lia|].
    destruct (c =? 45)%N; injection E0 as _ <-; cbn; lia. }
  destruct (match s1 with
            | c :: r => if (c =? 48)%N then Some ([c], r) else digits1 s1
            | [] => None
            end) as [[ip s2]|] eqn:E1; [|discriminate].
  assert (L1 : (List.length s2 < List.length s1)%nat).
  { destruct s1 as [|c r]; [discriminate|].
    destruct (c =? 48)%N; [injection E1 as _ <-; cbn; lia|].
    eapply digits1_length, E1. }
  destruct (match s2 with
            | c :: r =>
                if (c =? 46)%N
                then match digits1 r with
                     | Some (ds, rest0) => Some (c :: ds, rest0)
                     | None => None
                     end
                else Some ([], s2)
            | [] => Some ([], s2)
            end) as [[fp s3]|] eqn:E2; [|discriminate].
  assert (L2 : (List.length s3 <= List.length s2)%nat).
  { destruct s2 as [|c r]; [injection E2 as _ <-; lia|].
    destruct (c =? 46)%N; [|injection E2 as _ <-; lia].
    destruct (digits1 r) as [[ds rest0]|] eqn:Ed; [|discriminate].
    injection E2 as _ <-. apply digits1_length in Ed. cbn; lia. }
  destruct (match s3 with
            | c :: r =>
                if ((c =? 101) || (c =? 69))%N
                then
                  let (esign, r') :=
                    match r with
                    | g :: r0 => if ((g =? 43) || (g =? 45))%N then ([g], r0) else ([], r)
                    | [] => ([], r)
                    end in
                  match digits1 r' with
                  | Some (ds, rest0) => Some (c :: esign ++ ds, rest0)
                  | None => None
                  end
                else Some ([], s3)
            | [] => Some ([], s3)
            end) as [[ep s4]|] eqn:E3; [|discriminate].
  assert (L3 : (List.length s4 <= List.length s3)%nat).
  { destruct s3 as [|c r]; [injection E3 as _ <-; lia|].
    destruct ((c =? 101) || (c =? 69))%N; [|injection E3 as _ <-; lia].
    destruct (match r with
              | g :: r0 => if ((g =? 43) || (g =? 45))%N then ([g], r0) else ([], r)
              | [] => ([], r)
              end) as [esign r'] eqn:Es.
    assert (Lr : (List.length r' <= List.length r)%nat).
    { destruct r as [|g r0]; [injection Es as _ <-; lia|].
      destruct ((g =? 43) || (g =? 45))%N; injection Es as _ <-; cbn; lia. }
    destruct (digits1 r') as [[ds rest0]|] eqn:Ed; [|discriminate].
    injection E3 as _ <-. apply digits1_length in Ed. cbn; lia. }
  intros H. injection H as _ <-. lia.
Qed.

Lemma keyword_length (k : jsstring) (v v' : value) (s rest : jsstring) :
  k <> [] -> keyword k v s = Some (v', rest) -> (List.length rest < List.length s)%nat.
Proof.
  unfold keyword. intros Hk H.
  destruct (JsString.startsWith k s) eqn:E; [|discriminate].
  injection H as _ <-.
  assert (G : forall k s, JsString.startsWith k s = true ->
                          (List.length k <= List.length s)%nat).
  { clear. induction k as [|x k IH]; intros s H; cbn; [lia|].
    destruct s as [|y s]; [discriminate|]. cbn in H.
    apply andb_true_iff in H as [_ H]. apply IH in H. cbn. lia. }
  apply G in E. rewrite length_skipn. destruct k; [contradiction|]. cbn in *. lia.
Qed.

Lemma value_ok_step (f : nat) : elements_ok f -> members_ok f -> value_ok (S f).
Proof.
  intros He Hm s v rest H. cbn [parse_value] in H.
  pose proof (skip_ws_length s) as Ls.
  destruct (skip_ws s) as [|c r] eqn:Es; [discriminate|]. cbn in Ls.
  destruct (c =? lbrace)%N eqn:E1.
  { pose proof (skip_ws_length r) as Lr.
    destruct (skip_ws r) as [|c' r'] eqn:Er; [discriminate|]. cbn in Lr.
    destruct (c' =? rbrace)%N eqn:E2.
    - injection H as <- <-. split; [lia|]. intros g Hg.
      destruct g as [|g]; [lia|]. cbn [parse_value]. rewrite Es, E1, Er, E2. reflexivity.
    - destruct (parse_members f [] (c' :: r')) as [[o rest']|] eqn:Em; [|discriminate].
      injection H as <- <-. destruct (Hm _ _ _ _ Em) as [L G]. cbn in L.
      split; [lia|]. intros g Hg. destruct g as [|g]; [lia|].
      cbn [parse_value]. rewrite Es, E1, Er, E2. rewrite G; [reflexivity|]. cbn [List.length]. lia. }
  destruct (c =? lbracket)%N eqn:E2.
  { pose proof (skip_ws_length r) as Lr.
    destruct (skip_ws r) as [|c' r'] eqn:Er; [discriminate|]. cbn in Lr.
    destruct (c' =? rbracket)%N eqn:E3.
    - injection H as <- <-. split; [lia|]. intros g Hg.
      destruct g as [|g]; [lia|]. cbn [parse_value]. rewrite Es, E1, E2, Er, E3. reflexivity.
    - destruct (parse_elements f (c' :: r')) as [[l rest']|] eqn:Em; [|discriminate].
      injection H as <- <-. destruct (He _ _ _ Em) as [L G]. cbn in L.
      split; [lia|]. intros g Hg. destruct g as [|g]; [lia|].
      cbn [parse_value]. rewrite Es, E1, E2, Er, E3. rewrite G; [reflexivity|]. cbn [List.length]. lia. }
  destruct (c =? quote_mark)%N eqn:E3.
  { destruct (parse_chars r) as [[str rest']|] eqn:Ec; [|discriminate].
    injection H as <- <-. apply parse_chars_length in Ec as L.
    split; [lia|]. intros g Hg. destruct g as [|g]; [lia|].
    cbn [parse_value]. rewrite Es, E1, E2, E3, Ec. reflexivity. }
  destruct (c =? 116)%N eqn:E4.
  { apply keyword_length in H as L; [|discriminate]. cbn in L.
    split; [lia|]. intros g Hg. destruct g as [|g]; [lia|].
    cbn [parse_value]. rewrite Es, E1, E2, E3, E4. exact H. }
  destruct (c =? 102)%N eqn:E5.
  { apply keyword_length in H as L; [|discriminate]. cbn in L.
    split; [lia|]. intros g Hg. destruct g as [|g]; [lia|].
    cbn [parse_value]. rewrite Es, E1, E2, E3, E4, E5. exact H. }
  destruct (c =? 110)%N eqn:E6.
  { apply keyword_length in H as L; [|discriminate]. cbn in L.
    split; [lia|]. intros g Hg. destruct g as [|g]; [lia|].
    cbn [parse_value]. rewrite Es, E1, E2, E3, E4, E5, E6. exact H. }
  destruct (parse_number (c :: r)) as [[lit rest']|] eqn:En; [|discriminate].
  injection H as <- <-. apply parse_number_length in En as L. cbn in L.
  split; [lia|]. intros g Hg. destruct g as [|g]; [lia|].
  cbn [parse_value]. rewrite Es, E1, E2, E3, E4, E5, E6, En. reflexivity.
Qed.

Lemma elements_ok_step (f : nat) : value_ok f -> elements_ok f -> elements_ok (S f).
Proof.
  intros Hv He s l rest H. cbn [parse_elements] in H.
  destruct (parse_value f s) as [[v rest1]|] eqn:Ev; [|discriminate].
  destruct (Hv _ _ _ Ev) as [L1 G1].
  pose proof (skip_ws_length rest1) as Lw.
  destruct (skip_ws rest1) as [|c r] eqn:Es; [discriminate|]. cbn in Lw.
  destruct (c =? comma)%N eqn:E1.
  - destruct (parse_elements f r) as [[l' rest']|] eqn:Ee; [|discriminate].
    injection H as <- <-. destruct (He _ _ _ Ee) as [L2 G2].
    split; [lia|]. intros g Hg. destruct g as [|g]; [lia|].
    cbn [parse_elements]. rewrite G1 by lia. rewrite Es, E1. rewrite G2 by lia. reflexivity.
  - destruct (c =? rbracket)%N eqn:E2; [|discriminate].
    injection H as <- <-. split; [lia|]. intros g Hg. destruct g as [|g]; [lia|].
    cbn [parse_elements]. rewrite G1 by lia. rewrite Es, E1, E2. reflexivity.
Qed.

Lemma members_ok_step (f : nat) : value_ok f -> members_ok f -> members_ok (S f).
Proof.
  intros Hv Hm acc s o rest H. cbn [parse_members] in H.
  pose proof (skip_ws_length s) as Ls.
  destruct (skip_ws s) as [|c r] eqn:Es; [discriminate|]. cbn in Ls.
  destruct (c =? quote_mark)%N eqn:E1; [|discriminate].
  destruct (parse_chars r) as [[k rest0]|] eqn:Ec; [|discriminate].
  apply parse_chars_length in Ec as L0.
  pose proof (skip_ws_length rest0) as Lw0.
  destruct (skip_ws rest0) as [|c1 r1] eqn:Es0; [discriminate|]. cbn in Lw0.
  destruct (c1 =? colon)%N eqn:E2; [|discriminate].
  destruct (parse_value f r1) as [[v rest1]|] eqn:Ev; [|discriminate].
  destruct (Hv _ _ _ Ev) as [L1 G1].
  pose proof (skip_ws_length rest1) as Lw1.
  destruct (skip_ws rest1) as [|c2 r2] eqn:Es1; [discriminate|]. cbn in Lw1.
  destruct (c2 =? comma)%N eqn:E3.
  - destruct (Hm _ _ _ _ H) as [L2 G2].
    split; [lia|]. intros g Hg. destruct g as [|g]; [lia|].
    cbn [parse_members]. rewrite Es, E1, Ec, Es0, E2. rewrite G1 by lia.
    rewrite Es1, E3. apply G2. lia.
  - destruct (c2 =? rbrace)%N eqn:E4; [|discriminate].
    injection H as <- <-. split; [lia|]. intros g Hg. destruct g as [|g]; [lia|].
    cbn [parse_members]. rewrite Es, E1, Ec, Es0, E2. rewrite G1 by lia.
    rewrite Es1, E3, E4. reflexivity.
Qed.

Lemma parsers_ok (f : nat) : value_ok f /\ elements_ok f /\ members_ok f.
Proof.
  induction f as [|f (Hv & He & Hm)].
  - unfold value_ok, elements_ok, members_ok.
    split; [|split]; intros; discriminate.
  - split; [apply value_ok_step; assumption|].
    split; [apply elements_ok_step | apply members_ok_step]; assumption.
Qed.

(** The fuel of [parse] is enough: a value read with any fuel is read with
    [fuel_for]. *)
Lemma fuel_for_enough (f : nat) (s : jsstring) (v : value) (rest : jsstring) :
  parse_value f s = Some (v, rest) -> parse_value (fuel_for s) s = Some (v, rest).
Proof.
  intros H. destruct (parsers_ok f) as [Hv _]. destruct (Hv _ _ _ H) as [L G].
  apply G. unfold fuel_for. lia.
Qed.

(** [parse] gives a value exactly when some fuel reads it up to trailing
    white space: [None] is the SyntaxError, never a lack of fuel. *)
Lemma parse_Some_iff (s : jsstring) (v : value) :
  parse s = Some v <->
  exists f rest, parse_value f s = Some (v, rest) /\ skip_ws rest = [].
Proof.
  unfold parse. split.
  - intros H. destruct (parse_value (fuel_for s) s) as [[v' rest]|] eqn:E; [|discriminate].
    destruct (skip_ws rest) eqn:Er; [|discriminate]. injection H as <-.
    exists (fuel_for s), rest. split; assumption.
  - intros (f & rest & H & Hr). rewrite (fuel_for_enough f s v rest H), Hr. reflexivity.
Qed.

End JsonFacts.

(** ** The weekly-slot codec *)

Module CodecFacts.
Import Json.

(** A quoted string followed by [rest] is read as that string. *)
Lemma parse_value_quote (f : nat) (s rest : jsstring) :
  parse_value (S f) (quote s ++ rest) = Some (JString s, rest).
Proof.
  unfold quote. rewrite <- app_comm_cons, <- app_assoc.
  change ([quote_mark] ++ rest) with (quote_mark :: rest).
  cbn -[parse_chars quote_units].
  rewrite JsonFacts.parse_chars_quote_units. reflexivity.
Qed.

(** One member [key:string] of an object, and the separator after it. *)
Lemma parse_members_quote (f : nat) (acc : list (jsstring * value))
      (k v : jsstring) (c2 : N) (r2 : jsstring) :
  is_ws c2 = false ->
  parse_members (S (S f)) acc (quote k ++ colon :: quote v ++ c2 :: r2) =
    if (c2 =? comma)%N then parse_members (S f) (set_field k (JString v) acc) r2
    else if (c2 =? rbrace)%N then Some (set_field k (JString v) acc, r2)
    else None.
Proof.
  intros Hws.
  unfold quote at 1. rewrite <- app_comm_cons, <- app_assoc.
  change ([quote_mark] ++ colon :: quote v ++ c2 :: r2)
    with (quote_mark :: colon :: quote v ++ c2 :: r2).
  cbn -[parse_chars quote_units parse_value quote].
  rewrite JsonFacts.parse_chars_quote_units.
  cbn -[parse_chars quote_units parse_value quote].
  rewrite parse_value_quote.
  cbn -[parse_chars quote_units parse_value quote parse_members].
  rewrite Hws. reflexivity.
Qed.

(** An opening brace followed by a quoted key starts the member list. *)
Lemma parse_value_open (f : nat) (k rest : jsstring) :
  parse_value (S f) (lbrace :: quote k ++ rest) =
    match parse_members f [] (quote k ++ rest) with
    | Some (o, rest') => Some (JObject o, rest')
    | None => None
    end.
Proof. reflexivity. Qed.

(** The text written for a slot, with the members laid out one after the
    other. *)
Lemma serializeSlotData_layout (x : WeeklySlotData.data) :
  serializeSlotData x =
    lbrace ::
      quote (js "n") ++ colon :: quote (WeeklySlotData.n x) ++ comma ::
      quote (js "t") ++ colon :: quote (WeeklySlotData.t x) ++ comma ::
      quote (js "d") ++ colon :: quote (WeeklySlotData.d x) ++ comma ::
      quote (js "pid") ++ colon :: quote (WeeklySlotData.pid x) ++ rbrace :: [].
Proof.
  unfold serializeSlotData, WeeklySlotData.to_object.
  cbn -[quote js]. f_equal.
  repeat (rewrite <- ?app_assoc, <- ?app_comm_cons). reflexivity.
Qed.

Lemma parse_serializeSlotData (x : WeeklySlotData.data) :
  parse (serializeSlotData x) = Some (JObject (WeeklySlotData.to_object x)).
Proof.
  unfold parse.
  assert (F : exists f, fuel_for (serializeSlotData x) = S (S (S (S (S (S f)))))).
  { exists (fuel_for (serializeSlotData x) - 6)%nat.
    rewrite serializeSlotData_layout. unfold fuel_for, quote.
    cbn [List.length app]. lia. }
  destruct F as [f ->].
  rewrite serializeSlotData_layout.
  rewrite parse_value_open.
  rewrite parse_members_quote by reflexivity. cbn -[parse_members quote js].
  rewrite parse_members_quote by reflexivity. cbn -[parse_members quote js].
  rewrite parse_members_quote by reflexivity. cbn -[parse_members quote js].
  rewrite parse_members_quote by reflexivity. cbn -[parse_members quote js].
  reflexivity.
Qed.

Lemma serialized_not_blank (x : WeeklySlotData.data) :
  JsString.falsy (serializeSlotData x)
  || JsString.eqb (JsString.trim (serializeSlotData x)) [] = false.
Proof.
  rewrite serializeSlotData_layout.
  pose proof (JsStringFacts.trim_head_nonempty lbrace
    (quote (js "n") ++ colon :: quote (WeeklySlotData.n x) ++ comma ::
     quote (js "t") ++ colon :: quote (WeeklySlotData.t x) ++ comma ::
     quote (js "d") ++ colon :: quote (WeeklySlotData.d x) ++ comma ::
     quote (js "pid") ++ colon :: quote (WeeklySlotData.pid x) ++ rbrace :: [])
    eq_refl) as H.
  destruct (JsString.trim _); [discriminate H | reflexivity].
Qed.

End CodecFacts.

(** C3.  The codec reads back what it writes: for every structured booking
    value [x] with the fields [n], [t], [d], [pid],
    [parseSlotValue (serializeSlotData x)] is [x]; the break sentinel parses
    to the break sentinel and the empty string to the empty value. *)
Theorem slot_codec_round_trip :
  (forall x : WeeklySlotData.data,
      parseSlotValue (serializeSlotData x) = SlotData (WeeklySlotData.to_object x))
  /\ parseSlotValue (js "ISTIRAHAT") = SlotBreak
  /\ parseSlotValue [] = SlotEmpty.
Proof.
  split; [|split; reflexivity].
  intros x. unfold parseSlotValue.
  rewrite CodecFacts.serialized_not_blank.
  replace (JsString.eqb (serializeSlotData x) (js "ISTIRAHAT")) with false
    by (rewrite CodecFacts.serializeSlotData_layout; reflexivity).
  rewrite CodecFacts.parse_serializeSlotData.
  reflexivity.
Qed.

(** C8, as stated, fails on a cell that holds white space only: one space
    is non-empty, is not the sentinel and is not JSON, yet it parses to the
    empty value and not to a structured one. *)
Lemma legacy_fallback_blank_counterexample :
  ~ (forall val : jsstring,
        val <> [] -> val <> js "ISTIRAHAT" -> Json.parse val = None ->
        parseSlotValue val = SlotData (WeeklySlotData.to_object (legacy_split val))).
Proof.
  intros H. specialize (H (js " ")).
  assert (E : parseSlotValue (js " ") = SlotEmpty) by reflexivity.
  rewrite E in H. discriminate H; [discriminate | discriminate | reflexivity].
Qed.

(** C8, amended.  A raw cell that is not blank (something is left after
    trimming white space), is not the break sentinel and fails JSON parsing
    is never an error: it parses to the structured value whose [n] is the
    text before the first [" - "] (the whole cell when that is empty), whose
    [d] is the text between the first and the second separator, and whose
    [t] and [pid] are empty. *)
Theorem legacy_fallback (val : jsstring) :
  JsString.trim val <> [] ->
  val <> js "ISTIRAHAT" ->
  Json.parse val = None ->
  parseSlotValue val = SlotData (WeeklySlotData.to_object (legacy_split val)).
Proof.
  intros Htrim Hbreak Hjson. unfold parseSlotValue.
  assert (Hf : JsString.falsy val = false).
  { destruct val; [exfalso; apply Htrim; reflexivity | reflexivity]. }
  rewrite Hf. apply JsStringFacts.eqb_neq in Htrim, Hbreak.
  rewrite Htrim, Hbreak, Hjson. reflexivity.
Qed.

(** The legacy cell ["Jane - 2024-01-01"] of the specification. *)
Lemma legacy_fallback_witness :
  JsString.trim (js "Jane - 2024-01-01") <> []
  /\ js "Jane - 2024-01-01" <> js "ISTIRAHAT"
  /\ Json.parse (js "Jane - 2024-01-01") = None
  /\ parseSlotValue (js "Jane - 2024-01-01") =
       SlotData (WeeklySlotData.to_object
                   {| WeeklySlotData.n := js "Jane";
                      WeeklySlotData.t := [];
                      WeeklySlotData.d := js "2024-01-01";
                      WeeklySlotData.pid := [] |}).
Proof.
  split; [discriminate|]. split; [discriminate|]. split; [reflexivity|].
  apply (legacy_fallback (js "Jane - 2024-01-01"));
    [discriminate | discriminate | reflexivity].
Defined.

(** ** Legacy fields *)

Lemma syncLegacyFields_synced (p : Patient.t) :
  legacy_synced (syncLegacyFields p)
  /\ Patient.pasienList (syncLegacyFields p) = Patient.pasienList p.
Proof.
  unfold legacy_synced, syncLegacyFields; cbn.
  destruct (Patient.pasienList p) as [|e l]; cbn.
  - repeat split; try reflexivity; try discriminate. intros H; contradiction.
  - repeat split; try reflexivity; try discriminate.
Qed.

Lemma upsertPatient_row_synced (patient : Patient.t) (departmentId : jsstring)
      (subDepartmentId : option jsstring) :
  row_synced (upsertPatient_row patient departmentId subDepartmentId)
    (Patient.pasienList patient).
Proof.
  unfold row_synced, upsertPatient_row, syncLegacyFields; cbn.
  destruct (Patient.pasienList patient) as [|e l]; cbn.
  - repeat split; try reflexivity; try discriminate. intros H; contradiction.
  - repeat split; try reflexivity; try discriminate.
Qed.

(** The patients of the department built by [update_patients_in] are those
    of the old one or come out of [f]. *)
Lemma update_patients_in_every (department updated : Department.t)
      (subDeptId : option jsstring) (f : list Patient.t -> list Patient.t)
      (P : Patient.t -> Prop) :
  (forall l q, In q (f l) -> In q l \/ P q) ->
  update_patients_in department subDeptId f = Some updated ->
  forall q, In q (every_patient updated) -> In q (every_patient department) \/ P q.
Proof.
  intros Hf Hu q Hq. unfold update_patients_in in Hu.
  destruct (opt_truthy subDeptId && Department.hasSubDepartments department).
  - destruct (Department.subDepartments department) as [subs|] eqn:Es; [|discriminate].
    injection Hu as <-. unfold every_patient, subs_or_empty in *. cbn in Hq.
    rewrite Es. apply in_app_or in Hq as [Hq|Hq].
    + left. apply in_or_app. left. exact Hq.
    + apply in_flat_map in Hq as (s' & Hs' & Hq).
      apply in_map_iff in Hs' as (s & <- & Hs).
      destruct (JsString.eqb (SubDepartment.id s) (opt_or_empty subDeptId)).
      * cbn in Hq. apply Hf in Hq as [Hq|Hq]; [left|right; exact Hq].
        apply in_or_app. right. apply in_flat_map. exists s. split; assumption.
      * left. apply in_or_app. right. apply in_flat_map. exists s. split; assumption.
  - injection Hu as <-. unfold every_patient, subs_or_empty in *. cbn in Hq.
    apply in_app_or in Hq as [Hq|Hq].
    + apply Hf in Hq as [Hq|Hq]; [left|right; exact Hq].
      apply in_or_app. left. exact Hq.
    + left. apply in_or_app. right. exact Hq.
Qed.

Lemma In_handleUpdateDepartment (updated : Department.t) (w : World) (d : Department.t) :
  In d (departments (handleUpdateDepartment updated w)) ->
  In d (departments w) \/ d = updated.
Proof.
  unfold handleUpdateDepartment; cbn. intros H.
  apply in_map_iff in H as (d0 & E & H0).
  destruct (JsString.eqb (Department.id d0) (Department.id updated)).
  - right. symmetry. exact E.
  - left. subst d. exact H0.
Qed.

(** What a handler does to the requirements of a rendered table shows in
    that table of the department it builds. *)
Lemma update_rendered_table (department : Department.t) (tbl : TableRef)
      (subDeptId : option jsstring) (ps : list Patient.t)
      (f : list Patient.t -> list Patient.t) :
  rendered_table department tbl = Some (subDeptId, ps) ->
  subDeptId <> Some [] ->
  exists updated,
    update_patients_in department subDeptId f = Some updated
    /\ Department.id updated = Department.id department
    /\ rendered_table updated tbl = Some (subDeptId, f ps).
Proof.
  intros Hr Hne. unfold rendered_table in Hr. unfold update_patients_in.
  destruct tbl as [|k].
  - destruct (Department.hasSubDepartments department) eqn:Hs; [discriminate|].
    injection Hr as <- <-. cbn [opt_truthy andb].
    eexists. split; [reflexivity|]. split; [reflexivity|].
    unfold rendered_table. cbn. rewrite Hs. reflexivity.
  - destruct (Department.hasSubDepartments department) eqn:Hs; [|discriminate].
    destruct (nth_error (subs_or_empty department) k) as [sub|] eqn:Ek; [|discriminate].
    injection Hr as <- <-.
    assert (Ht : opt_truthy (Some (SubDepartment.id sub)) = true).
    { cbn. destruct (SubDepartment.id sub); [contradiction Hne; reflexivity | reflexivity]. }
    rewrite Ht. cbn [andb]. unfold subs_or_empty in Ek.
    destruct (Department.subDepartments department) as [subs|] eqn:Es;
      [|destruct k; discriminate Ek].
    eexists. split; [reflexivity|]. split; [reflexivity|].
    unfold rendered_table, subs_or_empty. cbn. rewrite Hs.
    rewrite nth_error_map, Ek. cbn. rewrite JsStringFacts.eqb_refl. reflexivity.
Qed.

Lemma or_null_non_empty (subDeptId : option jsstring) :
  subDeptId <> Some [] -> or_null subDeptId = subDeptId.
Proof.
  destruct subDeptId as [[|c r]|]; cbn; intros H; try reflexivity.
  contradiction H. reflexivity.
Qed.

Lemma nth_error_handleUpdateDepartment (updated d : Department.t) (w : World) (card : nat) :
  nth_error (departments w) card = Some d ->
  Department.id d = Department.id updated ->
  nth_error (departments (handleUpdateDepartment updated w)) card = Some updated.
Proof.
  intros Hd Hid. unfold handleUpdateDepartment. cbn.
  rewrite nth_error_map, Hd. cbn. rewrite Hid, JsStringFacts.eqb_refl. reflexivity.
Qed.

(** C4.  Every change of a Patient's entry list goes through
    [syncLegacyFields]: after it, [namaPasien] and [nomorTelp] are those of
    the first entry, or empty when there is none, and [hasPasien] tells
    whether there is one.  This holds for the derivation itself; for the
    requirement in its row after the entry dialog is saved, whatever was
    added, edited and deleted in it; for every requirement that
    [handleSavePasienList] puts into the state; and for the row every
    [upsertPatient] writes. *)
Theorem legacy_fields_follow_first_entry :
  (forall p : Patient.t,
      legacy_synced (syncLegacyFields p)
      /\ Patient.pasienList (syncLegacyFields p) = Patient.pasienList p)
  /\ (forall (w : World) (card : nat) (department : Department.t) (tbl : TableRef)
             (subDeptId : option jsstring) (patients : list Patient.t) (row : nat)
             (patient : Patient.t) (acts : list ModalAction),
         nth_error (departments w) card = Some department ->
         rendered_table department tbl = Some (subDeptId, patients) ->
         subDeptId <> Some [] ->
         nth_error patients row = Some patient ->
         exists updated patients' saved,
           nth_error (departments (step w (Card card (ManagePasien tbl row acts)))) card
           = Some updated
           /\ rendered_table updated tbl = Some (subDeptId, patients')
           /\ nth_error patients' row = Some saved
           /\ Patient.pasienList saved
              = PasienListModal_handleSave
                  (fold_left modal_step acts (PasienListModal_open patient))
           /\ legacy_synced saved)
  /\ (forall (department : Department.t) (patient : Patient.t)
             (subDeptId : option jsstring) (l : list PatientEntry.t) (w : World)
             (d : Department.t) (q : Patient.t),
         In d (departments (handleSavePasienList department (Some patient) subDeptId l w)) ->
         In q (every_patient d) ->
         (exists d0, In d0 (department :: departments w) /\ In q (every_patient d0))
         \/ (legacy_synced q
             /\ Patient.id q = Patient.id patient
             /\ Patient.pasienList q = l))
  /\ (forall (patient : Patient.t) (departmentId : jsstring)
             (subDepartmentId : option jsstring),
         row_synced (upsertPatient_row patient departmentId subDepartmentId)
           (Patient.pasienList patient)).
Proof.
  split; [exact syncLegacyFields_synced|].
  split; [|split; [|exact upsertPatient_row_synced]].
  - intros w card department tbl subDeptId patients row patient acts Hcard Htbl Hne Hrow.
    set (l := PasienListModal_handleSave _).
    set (up := syncLegacyFields (Patient_with_pasienList patient l)).
    destruct (update_rendered_table department tbl subDeptId patients
                (map (fun p => if JsString.eqb (Patient.id p) (Patient.id up)
                               then up else p)) Htbl Hne)
      as (updated & Hupd & Hid & Htbl').
    exists updated. eexists. exists up.
    split; [|split; [exact Htbl'|split; [|split]]].
    + cbn [step]. rewrite Hcard. cbn [card_event]. rewrite Htbl, Hrow.
      unfold handleSavePasienList. rewrite (or_null_non_empty subDeptId Hne).
      fold l. fold up. rewrite Hupd. cbn [departments await].
      apply (nth_error_handleUpdateDepartment updated department w card Hcard).
      symmetry. exact Hid.
    + rewrite nth_error_map, Hrow. cbn [option_map].
      change (Patient.id up) with (Patient.id patient).
      rewrite JsStringFacts.eqb_refl. reflexivity.
    + apply (syncLegacyFields_synced (Patient_with_pasienList patient l)).
    + apply (syncLegacyFields_synced (Patient_with_pasienList patient l)).
  - intros department patient subDeptId l w d q Hd Hq.
    unfold handleSavePasienList in Hd.
    set (up := syncLegacyFields (Patient_with_pasienList patient l)) in *.
    destruct (update_patients_in department subDeptId _) as [updated|] eqn:Eu.
    + cbn in Hd.
      change (In d (departments (handleUpdateDepartment updated w))) in Hd.
      apply In_handleUpdateDepartment in Hd as [Hd | ->].
      * left. exists d. split; [right; exact Hd | exact Hq].
      * destruct (update_patients_in_every department updated subDeptId
                    (map (fun p => if JsString.eqb (Patient.id p) (Patient.id up)
                                   then up else p))
                    (fun q => q = up)) with (q := q) as [Hold|Hnew].
        -- intros l0 q0 H0. apply in_map_iff in H0 as (p0 & E0 & H0).
           destruct (JsString.eqb (Patient.id p0) (Patient.id up)).
           ++ right. symmetry. exact E0.
           ++ left. subst q0. exact H0.
        -- exact Eu.
        -- exact Hq.
        -- left. exists department. split; [left; reflexivity | exact Hold].
        -- right. subst q.
           destruct (syncLegacyFields_synced (Patient_with_pasienList patient l)) as [Hs Hl].
           split; [exact Hs | split; [reflexivity | exact Hl]].
    + left. exists d. split; [right; exact Hd | exact Hq].
Qed.

(** A requirement whose entry list is edited in the dialog and saved. *)
Lemma legacy_fields_follow_first_entry_witness :
  let patient :=
    {| Patient.id := js "p-1"; Patient.requirement := js "Scaling";
       Patient.status := Tindakan; Patient.pasienList := [];
       Patient.hasPasien := false; Patient.namaPasien := []; Patient.nomorTelp := [];
       Patient.photos := [] |} in
  let department :=
    {| Department.id := js "dept-1"; Department.name := js "Perio";
       Department.patients := [patient]; Department.hasSubDepartments := false;
       Department.subDepartments := None |} in
  let w := setDepartments [department] initial_world in
  let acts := [openAdd; typeNewNama (js " Budi "); typeNewTelp (js "0812"); addEntry 7] in
  let saved :=
    {| Patient.id := js "p-1"; Patient.requirement := js "Scaling";
       Patient.status := Tindakan;
       Patient.pasienList :=
         [ {| PatientEntry.id := js "pe-7"; PatientEntry.namaPasien := js "Budi";
              PatientEntry.nomorTelp := js "0812" |} ];
       Patient.hasPasien := true; Patient.namaPasien := js "Budi";
       Patient.nomorTelp := js "0812"; Patient.photos := [] |} in
  departments (step w (Card 0 (ManagePasien DirectTable 0 acts)))
  = [Department_with_patients department [saved]]
  /\ legacy_synced saved.
Proof.
  intros patient department w acts saved.
  destruct (proj1 (proj2 legacy_fields_follow_first_entry)
              w 0%nat department DirectTable None [patient] 0%nat patient acts
              eq_refl eq_refl ltac:(discriminate) eq_refl)
    as (updated & patients' & saved' & H1 & H2 & H3 & H4 & H5).
  split; [reflexivity|].
  assert (E : saved' = saved).
  { cbn in H1. injection H1 as <-. cbn in H2. injection H2 as <-.
    cbn in H3. injection H3 as <-. reflexivity. }
  rewrite <- E. exact H5.
Defined.

(** ** List fetches *)

Lemma failed_iff {A : Type} (r : Response A) :
  failed r = true <-> error r <> None \/ data r = None.
Proof.
  unfold failed. destruct (error r), (data r); split; intros H;
    try reflexivity; try discriminate;
    try (left; discriminate); try (right; reflexivity).
  destruct H as [H|H]; [contradiction | discriminate].
Qed.

Lemma traverse_None {A B : Type} (f : A -> option B) (l : list A) :
  traverse f l = None <-> exists x, In x l /\ f x = None.
Proof.
  induction l as [|x l IH]; cbn [traverse In].
  - split; [discriminate|intros (x & [] & _)].
  - destruct (f x) as [y|] eqn:E.
    + destruct (traverse f l) as [ys|].
      * split; [discriminate|].
        intros (z & [<-|Hz] & Hf); [rewrite E in Hf; discriminate Hf|].
        exfalso. assert (Hn : Some ys = None) by (apply IH; exists z; split; assumption).
        discriminate Hn.
      * split; [|reflexivity]. intros _.
        destruct (proj1 IH eq_refl) as (z & Hz & Hf). exists z. split; [right|]; assumption.
    + split; [|reflexivity]. intros _. exists x. split; [left; reflexivity|exact E].
Qed.

Lemma toPatient_js_None (m : list (jsstring * list Photo.t)) (row : PatientRow.t) :
  toPatient_js m row = None <-> entry_list_null row = true.
Proof.
  unfold toPatient_js, entry_list_null.
  destruct (opt_truthy (PatientRow.pasien_list row)); cbn [andb];
    [|split; discriminate].
  destruct (Json.parse (opt_or_empty (PatientRow.pasien_list row))) as [v|];
    [destruct v|]; split; intros H; try reflexivity; discriminate H.
Qed.

Lemma department_js_None (m : list (jsstring * list Photo.t))
    (subs : list SubDepartmentRow.t) (patients : list PatientRow.t) (d : DepartmentRow.t) :
  department_js m subs patients d = None <->
  exists row, In row patients /\ entry_list_null row = true
              /\ (directPatients_of d row
                  || existsb (fun s => deptSubs_of d s && patients_of_sub s row) subs) = true.
Proof.
  unfold department_js.
  destruct (traverse (toPatient_js m) (filter (directPatients_of d) patients)) eqn:E1.
  - match goal with
    | |- context [traverse ?f (filter (deptSubs_of d) subs)] =>
        destruct (traverse f (filter (deptSubs_of d) subs)) eqn:E2
    end.
    + split; [discriminate|]. intros (row & Hin & Hnull & Hor). exfalso.
      apply orb_true_iff in Hor as [Hd|Hs].
      * assert (N : traverse (toPatient_js m) (filter (directPatients_of d) patients) = None).
        { apply traverse_None. exists row. split; [apply filter_In; split; assumption|].
          apply toPatient_js_None, Hnull. }
        rewrite N in E1. discriminate E1.
      * apply existsb_exists in Hs as (s & Hs & Hand).
        apply andb_true_iff in Hand as [Ha Hb].
        assert (N : traverse (toPatient_js m) (filter (patients_of_sub s) patients) = None).
        { apply traverse_None. exists row. split; [apply filter_In; split; assumption|].
          apply toPatient_js_None, Hnull. }
        apply (f_equal (fun o => match o with None => true | Some _ => false end)) in E2.
        assert (T : traverse
                      (fun s =>
                         match traverse (toPatient_js m)
                                 (filter (patients_of_sub s) patients) with
                         | None => None
                         | Some ps =>
                             Some {| SubDepartment.id := SubDepartmentRow.id s;
                                     SubDepartment.name := SubDepartmentRow.name s;
                                     SubDepartment.patients := ps |}
                         end) (filter (deptSubs_of d) subs) = None).
        { apply traverse_None. exists s. split; [apply filter_In; split; assumption|].
          rewrite N. reflexivity. }
        rewrite T in E2. discriminate E2.
    + split; [|reflexivity]. intros _.
      apply traverse_None in E2 as (s & Hs & Hf). apply filter_In in Hs as [Hs Hd].
      destruct (traverse (toPatient_js m) (filter (patients_of_sub s) patients)) eqn:E3;
        [discriminate Hf|].
      apply traverse_None in E3 as (row & Hr & Hn). apply filter_In in Hr as [Hr Hp].
      exists row. split; [exact Hr|]. split; [apply toPatient_js_None in Hn; exact Hn|].
      apply orb_true_iff. right. apply existsb_exists. exists s. split; [exact Hs|].
      rewrite Hd, Hp. reflexivity.
  - split; [|reflexivity]. intros _.
    apply traverse_None in E1 as (row & Hr & Hn). apply filter_In in Hr as [Hr Hp].
    exists row. split; [exact Hr|]. split; [apply toPatient_js_None in Hn; exact Hn|].
    rewrite Hp. reflexivity.
Qed.

Lemma departments_map_None (m : list (jsstring * list Photo.t))
    (depts : list DepartmentRow.t) (subs : list SubDepartmentRow.t)
    (patients : list PatientRow.t) :
  traverse (department_js m subs patients) depts = None <->
  exists row, In row patients /\ row_is_read depts subs row = true
              /\ entry_list_null row = true.
Proof.
  rewrite traverse_None. unfold row_is_read. split.
  - intros (d & Hd & Hn). apply department_js_None in Hn as (row & Hr & Hnull & Hor).
    exists row. split; [exact Hr|]. split; [|exact Hnull].
    apply existsb_exists. exists d. split; assumption.
  - intros (row & Hr & Hread & Hnull). apply existsb_exists in Hread as (d & Hd & Hor).
    exists d. split; [exact Hd|]. apply department_js_None. exists row.
    split; [exact Hr|]. split; assumption.
Qed.

Lemma photosByPatient_from_None (photos : list PhotoRow.t) :
  forall m : list (jsstring * list Photo.t),
    photosByPatient_from photos m = None <->
    exists ph, In ph photos /\ object_prototype_key (PhotoRow.patient_id ph) = true.
Proof.
  induction photos as [|ph photos IH]; intros m; cbn [photosByPatient_from In].
  - split; [discriminate|intros (ph & [] & _)].
  - destruct (object_prototype_key (PhotoRow.patient_id ph)) eqn:E.
    + split; [|reflexivity]. intros _. exists ph. split; [left; reflexivity|exact E].
    + rewrite IH. split.
      * intros (x & Hx & Hk). exists x. split; [right|]; assumption.
      * intros (x & [<-|Hx] & Hk); [rewrite E in Hk; discriminate Hk|].
        exists x. split; assumption.
Qed.

(** C10, as stated, fails for the further queries of [fetchDepartments]
    and for a query whose promise rejects.  With the departments read and
    the sub-department query ending in an error, the departments come back,
    without their sub-departments, and not the empty list; a rejected query
    promise makes the fetch reject, and so do an appointment row with a
    [null] time, a photo row of the patient [constructor] and a patient row
    whose entry list text is [null]. *)
Lemma list_fetch_failure_not_empty_counterexample :
  let dept := {| DepartmentRow.id := js "d1"; DepartmentRow.name := js "Perio";
                 DepartmentRow.has_sub_departments := true |} in
  let sub := {| SubDepartmentRow.id := js "s1"; SubDepartmentRow.department_id := js "d1";
                SubDepartmentRow.name := js "Bedah" |} in
  let row :=
    {| AppointmentRecord.id := js "a-1"; AppointmentRecord.tanggal := js "2024-01-01";
       AppointmentRecord.jam := None; AppointmentRecord.kubikel := js "1";
       AppointmentRecord.rencana_perawatan := js "Scaling";
       AppointmentRecord.kasus := js "Karang"; AppointmentRecord.departemen := js "Perio";
       AppointmentRecord.nama_pasien := js "Budi"; AppointmentRecord.nomor_telp := js "0812";
       AppointmentRecord.checklist := false |} in
  let photo := {| PhotoRow.id := js "ph-1"; PhotoRow.patient_id := js "constructor";
                  PhotoRow.photo_url := js "https://cdn/1.png";
                  PhotoRow.storage_path := js "constructor/1.png" |} in
  let patient :=
    {| PatientRow.id := js "p-1"; PatientRow.department_id := js "d1";
       PatientRow.sub_department_id := Some (js "s1"); PatientRow.requirement := js "Scaling";
       PatientRow.status := Tindakan; PatientRow.has_pasien := false;
       PatientRow.nama_pasien := None; PatientRow.nomor_telp := None;
       PatientRow.pasien_list := Some (js "null") |} in
  ~ (forall (depts : Awaited DepartmentRow.t) (subs : Awaited SubDepartmentRow.t)
            (patients : Awaited PatientRow.t) (photos : Awaited PhotoRow.t),
        query_failed depts \/ query_failed subs \/ query_failed patients
        \/ query_failed photos ->
        fetchDepartments_js depts subs patients photos = Fulfilled [])
  /\ ~ (forall q : Awaited AppointmentRecord.t,
          query_failed q -> fetchAppointments_js q = Fulfilled [])
  /\ ~ (forall q : Awaited WeeklySlotRow.t,
          query_failed q -> fetchWeeklySlots_js q = Fulfilled [])
  /\ fetchDepartments_js (Resolves (answered [dept])) (Resolves (answered [sub]))
       (Resolves (answered [])) (Resolves (answered []))
     = Fulfilled
         [ {| Department.id := js "d1"; Department.name := js "Perio";
              Department.patients := []; Department.hasSubDepartments := true;
              Department.subDepartments :=
                Some [ {| SubDepartment.id := js "s1"; SubDepartment.name := js "Bedah";
                          SubDepartment.patients := [] |} ] |} ]
  /\ fetchDepartments_js (Resolves (answered [dept])) (Resolves (mkResponse None (Some (js "timeout"))))
       (Resolves (answered [])) (Resolves (answered []))
     = Fulfilled
         [ {| Department.id := js "d1"; Department.name := js "Perio";
              Department.patients := []; Department.hasSubDepartments := true;
              Department.subDepartments := Some [] |} ]
  /\ fetchDepartments_js (Resolves (answered [dept])) Rejects
       (Resolves (answered [])) (Resolves (answered [])) = Rejected
  /\ fetchAppointments_js (Resolves (answered [row])) = Rejected
  /\ fetchDepartments_js (Resolves (answered [dept])) (Resolves (answered [sub]))
       (Resolves (answered [])) (Resolves (answered [photo])) = Rejected
  /\ fetchDepartments_js (Resolves (answered [dept])) (Resolves (answered [sub]))
       (Resolves (answered [patient])) (Resolves (answered [])) = Rejected.
Proof.
  intros dept sub row photo patient.
  split; [|split; [|split; [|repeat split]]].
  - intros H.
    specialize (H (Resolves (answered [dept])) (Resolves (mkResponse None (Some (js "timeout"))))
                  (Resolves (answered [])) (Resolves (answered []))
                  (or_intror (or_introl eq_refl))).
    discriminate H.
  - intros H. specialize (H Rejects I). discriminate H.
  - intros H. specialize (H Rejects I). discriminate H.
Qed.

(** C10, amended.  Each list fetch is fulfilled with the empty list when
    its own list query resolves with an error or without data, whatever the
    rows then are; this is what it is fulfilled with for an empty table.
    [fetchDepartments] then sends no further query; when its first query
    succeeds, the errors of the three further queries are not looked at and
    missing data is read as an empty table, so the departments come back
    without those parts.  The fetches are not total: [fetchAppointments]
    rejects exactly when its query promise rejects or a row read has no
    time, [fetchWeeklySlots] exactly when its query promise rejects, and
    [fetchDepartments] exactly when its first query promise rejects or,
    the first query having succeeded, a further query promise rejects, a
    photo row has a [patient_id] that names a property of
    [Object.prototype], or a patient row handed to [toPatient] has an entry
    list text that reads as [null]. *)
Theorem list_fetches_empty_on_failure :
  (forall (depts : Response DepartmentRow.t) (subs : Awaited SubDepartmentRow.t)
          (patients : Awaited PatientRow.t) (photos : Awaited PhotoRow.t),
      error depts <> None \/ data depts = None ->
      fetchDepartments_js (Resolves depts) subs patients photos = Fulfilled [])
  /\ (forall r : Response AppointmentRecord.t,
         error r <> None \/ data r = None ->
         fetchAppointments_js (Resolves r) = Fulfilled []
         /\ fetchAppointments_js (Resolves (answered [])) = Fulfilled [])
  /\ (forall r : Response WeeklySlotRow.t,
         error r <> None \/ data r = None ->
         fetchWeeklySlots_js (Resolves r) = Fulfilled []
         /\ fetchWeeklySlots_js (Resolves (answered [])) = Fulfilled [])
  /\ (forall (subs : Response SubDepartmentRow.t) (patients : Response PatientRow.t)
             (photos : Response PhotoRow.t),
         photosByPatient_js (rows photos) <> None ->
         fetchDepartments_js (Resolves (answered [])) (Resolves subs) (Resolves patients)
           (Resolves photos) = Fulfilled [])
  /\ (forall (depts : Response DepartmentRow.t) (subs : Response SubDepartmentRow.t)
             (patients : Response PatientRow.t) (photos : Response PhotoRow.t),
         fetchDepartments_js (Resolves depts) (Resolves subs) (Resolves patients)
           (Resolves photos)
         = fetchDepartments_js (Resolves depts) (Resolves (answered (rows subs)))
             (Resolves (answered (rows patients))) (Resolves (answered (rows photos))))
  /\ (forall q : Awaited AppointmentRecord.t,
         fetchAppointments_js q = Rejected <->
         q = Rejects
         \/ exists r row, q = Resolves r /\ failed r = false /\ In row (rows r)
                          /\ AppointmentRecord.jam row = None)
  /\ (forall q : Awaited WeeklySlotRow.t, fetchWeeklySlots_js q = Rejected <-> q = Rejects)
  /\ (forall (depts : Awaited DepartmentRow.t) (subs : Awaited SubDepartmentRow.t)
             (patients : Awaited PatientRow.t) (photos : Awaited PhotoRow.t),
         fetchDepartments_js depts subs patients photos = Rejected <->
         depts = Rejects
         \/ exists d, depts = Resolves d /\ failed d = false
              /\ (subs = Rejects \/ patients = Rejects \/ photos = Rejects
                  \/ exists s p ph,
                       subs = Resolves s /\ patients = Resolves p /\ photos = Resolves ph
                       /\ ((exists row, In row (rows ph)
                                        /\ object_prototype_key (PhotoRow.patient_id row)
                                           = true)
                           \/ exists row, In row (rows p)
                                          /\ row_is_read (rows d) (rows s) row = true
                                          /\ entry_list_null row = true))).
Proof.
  split; [|split; [|split; [|split; [|split; [|split; [|split]]]]]].
  - intros depts subs patients photos H.
    unfold fetchDepartments_js. apply failed_iff in H. rewrite H. reflexivity.
  - intros r H. split; [|reflexivity].
    unfold fetchAppointments_js. apply failed_iff in H. rewrite H. reflexivity.
  - intros r H. split; [|reflexivity].
    unfold fetchWeeklySlots_js, fetchWeeklySlots. apply failed_iff in H. rewrite H.
    reflexivity.
  - intros subs patients photos H. unfold fetchDepartments_js.
    change (failed (answered (@nil DepartmentRow.t))) with false. cbv iota.
    destruct (photosByPatient_js (rows photos)); [reflexivity|contradiction].
  - intros depts subs patients photos. reflexivity.
  - intros q. unfold fetchAppointments_js. split.
    + destruct q as [r|]; [|left; reflexivity].
      destruct (failed r) eqn:Ef; [discriminate|].
      destruct (traverse appointment_of_record (rows r)) eqn:Et; [discriminate|].
      intros _. right. apply traverse_None in Et as (row & Hin & Hrow).
      exists r, row. repeat split; try assumption.
      unfold appointment_of_record in Hrow.
      destruct (AppointmentRecord.jam row); [discriminate Hrow|reflexivity].
    + intros [->|(r & row & -> & Ef & Hin & Hj)]; [reflexivity|].
      rewrite Ef.
      assert (Et : traverse appointment_of_record (rows r) = None).
      { apply traverse_None. exists row. split; [exact Hin|].
        unfold appointment_of_record. rewrite Hj. reflexivity. }
      rewrite Et. reflexivity.
  - intros q. unfold fetchWeeklySlots_js. destruct q; split; intros H;
      try reflexivity; discriminate H.
  - intros depts subs patients photos. unfold fetchDepartments_js. split.
    + destruct depts as [d|]; [|left; reflexivity].
      destruct (failed d) eqn:Ef; [discriminate|].
      intros H. right. exists d. split; [reflexivity|]. split; [exact Ef|].
      destruct subs as [s|]; [|left; reflexivity].
      destruct patients as [p|]; [|right; left; reflexivity].
      destruct photos as [ph|]; [|right; right; left; reflexivity].
      right. right. right. exists s, p, ph. repeat split.
      destruct (photosByPatient_js (rows ph)) as [m|] eqn:Em.
      * right. apply (departments_map_None m).
        destruct (traverse (department_js m (rows s) (rows p)) (rows d));
          [discriminate H|reflexivity].
      * left. apply (photosByPatient_from_None (rows ph) []), Em.
    + intros [->|(d & -> & Ef & H)]; [reflexivity|]. rewrite Ef.
      destruct H as [->|[->|[->|(s & p & ph & -> & -> & -> & H)]]];
        try reflexivity.
      * destruct subs; reflexivity.
      * destruct subs, patients; reflexivity.
      * destruct (photosByPatient_js (rows ph)) as [m|] eqn:Em; [|reflexivity].
        destruct H as [H|H].
        -- apply (photosByPatient_from_None (rows ph) []) in H.
           unfold photosByPatient_js in Em. rewrite H in Em. discriminate Em.
        -- apply (departments_map_None m) in H. rewrite H. reflexivity.
Qed.

(** A query that reports an error next to stale data, and queries that
    yield no data. *)
Lemma list_fetches_empty_on_failure_witness :
  let dept := {| DepartmentRow.id := js "d1"; DepartmentRow.name := js "Perio";
                 DepartmentRow.has_sub_departments := false |} in
  fetchDepartments_js (Resolves (mkResponse (Some [dept]) (Some (js "timeout"))))
    Rejects Rejects Rejects = Fulfilled []
  /\ fetchAppointments_js (Resolves (mkResponse None None)) = Fulfilled []
  /\ fetchWeeklySlots_js (Resolves (mkResponse None (Some (js "timeout")))) = Fulfilled [].
Proof.
  intros dept. split; [|split].
  - apply (proj1 list_fetches_empty_on_failure). left. discriminate.
  - apply (proj1 (proj2 list_fetches_empty_on_failure)). right. reflexivity.
  - apply (proj1 (proj2 (proj2 list_fetches_empty_on_failure))). left. discriminate.
Defined.

(** ** Photo size guard *)

(** C7.  A file of more than 5 MB (5 * 1024 * 1024 bytes) is rejected by
    [handleFileChange] before anything is sent: no storage upload and no row
    insert, and the dialog shows the size error; [uploadPhotoBase64] itself
    refuses such a blob before its first request.  A file of exactly 5 MB
    passes the guard and its upload is sent. *)
Theorem photo_size_guard :
  MAX_FILE_SIZE_BYTES = (5 * 1024 * 1024)%N
  /\ (forall (photoPatient : option Patient.t) (file : Blob) (now : N) (svc : UploadAnswers),
         (5 * 1024 * 1024 < size file)%N ->
         sent (handleFileChange photoPatient (Some file) now svc) = []
         /\ sizeError (handleFileChange photoPatient (Some file) now svc)
            = TooLarge (size file)
         /\ added (handleFileChange photoPatient (Some file) now svc) = None)
  /\ (forall (patientId : jsstring) (blob : Blob) (now : N) (svc : UploadAnswers),
         (5 * 1024 * 1024 < size blob)%N ->
         uploadPhotoBase64 patientId blob now svc
         = ([], UploadThrows (js "Ukuran foto maksimum 5 MB")))
  /\ (forall (patient : Patient.t) (file : Blob) (now : N) (svc : UploadAnswers),
         size file = (5 * 1024 * 1024)%N ->
         sizeError (handleFileChange (Some patient) (Some file) now svc) = NoSizeError
         /\ exists path rest,
             sent (handleFileChange (Some patient) (Some file) now svc)
             = storage_upload path file :: rest).
Proof.
  split; [reflexivity|]. split; [|split].
  - intros photoPatient file now svc H. unfold handleFileChange.
    apply N.ltb_lt in H. change MAX_FILE_SIZE_BYTES with (5 * 1024 * 1024)%N.
    rewrite H. repeat split.
  - intros patientId blob now svc H. unfold uploadPhotoBase64.
    apply N.ltb_lt in H. rewrite H. reflexivity.
  - intros patient file now svc H. unfold handleFileChange, handleAddPhoto, uploadPhotoBase64.
    change MAX_FILE_SIZE_BYTES with (5 * 1024 * 1024)%N.
    rewrite H. rewrite N.ltb_irrefl.
    destruct (uploadError svc); [split; [reflexivity | eexists; eexists; reflexivity]|].
    destruct (inserted_id svc); split; try reflexivity; eexists; eexists; reflexivity.
Qed.

(** One byte over the limit, and the limit itself. *)
Lemma photo_size_guard_witness :
  let patient :=
    {| Patient.id := js "p-1"; Patient.requirement := js "Scaling";
       Patient.status := Tindakan; Patient.pasienList := [];
       Patient.hasPasien := false; Patient.namaPasien := []; Patient.nomorTelp := [];
       Patient.photos := [] |} in
  let svc := {| uploadError := false; publicUrl := js "https://cdn/p-1/9.png";
                inserted_id := Some (js "ph-1") |} in
  (5 * 1024 * 1024 < 5242881)%N
  /\ sent (handleFileChange (Some patient)
             (Some {| size := 5242881; type := js "image/png" |}) 9 svc) = []
  /\ sizeError (handleFileChange (Some patient)
                  (Some {| size := 5242880; type := js "image/png" |}) 9 svc) = NoSizeError.
Proof.
  intros patient svc. split; [reflexivity|]. split.
  - apply (proj1 (proj2 photo_size_guard) (Some patient)
             {| size := 5242881; type := js "image/png" |} 9%N svc).
    reflexivity.
  - apply (proj2 (proj2 (proj2 photo_size_guard)) patient
             {| size := 5242880; type := js "image/png" |} 9%N svc).
    reflexivity.
Defined.

(** ** The celebration effect *)

Section CelebrationFacts.

Variable round_percent : N -> N -> N.

(** After a first render the ref holds the progress of the previous render,
    and render [i] celebrates exactly on a crossing to 100. *)
Lemma renders_crossing (ds : list Department.t) :
  forall (st : Celebration) (pw : N) (pt : nat) (i : nat),
    last_deps st = Some (pw, pt) ->
    prevProgressRef st = Z.of_N pw ->
    (nth i (renders round_percent st ds) false = true <->
     exists d, nth_error ds i = Some d
               /\ (0 < totalPatients d)%nat
               /\ weightedProgress round_percent d = 100%N
               /\ progress_before round_percent pw ds i <> 100%N).
Proof.
  induction ds as [|d rest IH]; intros st pw pt i Hdeps Hprev.
  - destruct i; cbn; split; try discriminate; intros (d & H & _); discriminate.
  - cbn [renders]. unfold render at 1 2. rewrite Hdeps.
    destruct ((pw =? weightedProgress round_percent d)%N
              && (pt =? totalPatients d)%nat) eqn:Esame.
    + apply andb_true_iff in Esame as [Ew Et]. apply N.eqb_eq in Ew.
      destruct i as [|i]; cbn [nth fst snd].
      * split; [discriminate|]. intros (d0 & Hd0 & _ & H100 & Hbefore).
        cbn in Hd0, Hbefore. injection Hd0 as <-. congruence.
      * rewrite (IH st pw pt i Hdeps Hprev). cbn [nth_error].
        split; intros (d0 & Hd0 & Ht & H100 & Hb); exists d0; repeat split; trivial.
        -- destruct i; cbn in *; [congruence | exact Hb].
        -- destruct i; cbn in *; [congruence | exact Hb].
    + unfold celebration_effect. cbn [fst snd].
      destruct i as [|i]; cbn [nth].
      * rewrite Hprev. cbn [nth_error progress_before].
        rewrite !andb_true_iff, !negb_true_iff, Nat.ltb_lt, N.eqb_eq, !Z.eqb_neq.
        split.
        -- intros [[[Ht H100] Hp] _]. exists d. repeat split; trivial. lia.
        -- intros (d0 & Hd0 & Ht & H100 & Hb). injection Hd0 as <-.
           repeat split; trivial; lia.
      * match goal with
        | |- context [renders round_percent ?s rest] =>
            rewrite (IH s (weightedProgress round_percent d) (totalPatients d) i
                       eq_refl eq_refl)
        end.
        cbn [nth_error].
        split; intros (d0 & Hd0 & Ht & H100 & Hb); exists d0; repeat split; trivial.
        -- destruct i; cbn in *; [exact Hb | exact Hb].
        -- destruct i; cbn in *; [exact Hb | exact Hb].
Qed.

End CelebrationFacts.

(** C5.  Over the successive renders of a department card, render [i]
    triggers the celebration exactly when the weighted progress of that
    render is 100, the progress of the render before it was not 100, and the
    department has at least one requirement.  The first render never
    triggers it, whatever its progress, and a render without requirements
    never does. *)
Theorem celebration_exactly_on_crossing (round_percent : N -> N -> N)
    (ds : list Department.t) (i : nat) :
  nth i (celebrations round_percent ds) false = true <->
  exists before d i',
    i = S i'
    /\ nth_error ds i' = Some before
    /\ nth_error ds i = Some d
    /\ weightedProgress round_percent before <> 100%N
    /\ weightedProgress round_percent d = 100%N
    /\ (0 < totalPatients d)%nat.
Proof.
  unfold celebrations. destruct ds as [|d0 rest].
  - destruct i; cbn; split; try discriminate;
      intros (b & d & i' & _ & _ & H & _); discriminate.
  - cbn [renders]. unfold render at 1 2. cbn [last_deps Celebration_mount].
    unfold celebration_effect. cbn [fst snd prevProgressRef Celebration_mount].
    destruct i as [|i]; cbn [nth].
    + rewrite andb_false_r. split; [discriminate|].
      intros (b & d & i' & H & _); discriminate.
    + match goal with
      | |- context [renders round_percent ?s rest] =>
          rewrite (renders_crossing round_percent rest s
                     (weightedProgress round_percent d0)
                     (totalPatients d0) i eq_refl eq_refl)
      end.
      split.
      * intros (d & Hd & Ht & H100 & Hb).
        destruct i as [|i]; cbn in Hb.
        -- exists d0, d, O. repeat split; trivial.
        -- destruct (nth_error rest i) as [b|] eqn:Eb.
           ++ exists b, d, (S i). repeat split; trivial.
           ++ exfalso. apply nth_error_None in Eb.
              assert (nth_error rest (S i) <> None) by congruence.
              apply nth_error_Some in H. lia.
      * intros (b & d & i' & Hi & Hb & Hd & Hnb & H100 & Ht).
        injection Hi as <-. exists d. cbn in Hd. repeat split; trivial.
        destruct i as [|i]; cbn in *.
        -- injection Hb as <-. exact Hnb.
        -- rewrite Hb. exact Hnb.
Qed.

(** A department that completes its only requirement, seen under the exact
    rounding: the first render is silent, the completing one celebrates. *)
Lemma celebration_exactly_on_crossing_witness :
  let p := {| Patient.id := js "p-1"; Patient.requirement := js "Scaling";
              Patient.status := KontrolPascaTindakan; Patient.pasienList := [];
              Patient.hasPasien := false; Patient.namaPasien := [];
              Patient.nomorTelp := []; Patient.photos := [] |} in
  let d := {| Department.id := js "dept-1"; Department.name := js "Perio";
              Department.patients := [p]; Department.hasSubDepartments := false;
              Department.subDepartments := None |} in
  let d' := Department_with_patients d [Patient_with_status p Selesai] in
  nth 1 (celebrations round_percent_exact [d; d']) false = true
  /\ nth 0 (celebrations round_percent_exact [d'; d']) false = false.
Proof.
  intros p d d'. split.
  - apply (proj2 (celebration_exactly_on_crossing round_percent_exact [d; d'] 1)).
    exists d, d', O. repeat split; [discriminate | apply Nat.lt_0_1].
  - destruct (nth 0 (celebrations round_percent_exact [d'; d']) false) eqn:E;
      [|reflexivity].
    apply (proj1 (celebration_exactly_on_crossing round_percent_exact [d'; d'] 0)) in E.
    destruct E as (b & x & i' & H & _). discriminate H.
Defined.

(** ** The world: departments under the handlers *)

Lemma departments_toast (t : Toast) (w : World) : departments (toast t w) = departments w.
Proof. reflexivity. Qed.


Lemma inflight_handleUpdateDepartment (updated : Department.t) (w : World) :
  inflight (handleUpdateDepartment updated w)
  = inflight w ++ [ {| closure := AwaitUpdateDepartment (departments w);
                       calls := [upsertDepartment updated] |} ].
Proof. reflexivity. Qed.

Lemma toasts_handleUpdateDepartment (updated : Department.t) (w : World) :
  toasts (handleUpdateDepartment updated w) = toasts w.
Proof. reflexivity. Qed.

Lemma nth_error_app_at {A : Type} (l : list A) (x : A) (rest : list A) :
  nth_error (l ++ x :: rest) (List.length l) = Some x.
Proof. induction l; cbn; auto. Qed.

(** ** Reordering by drag and drop *)

(** C6.  In a rendered table whose requirements are [[A; B; C]], dragging
    [C] onto [A] makes the local order [[C; A; B]] and sends the whole new
    order as one batch of position writes, [C] at 1, [A] at 2, [B] at 3;
    when any one of the three writes is rejected, the department is put back
    as it was before the drag, with the order [[A; B; C]], and one error is
    shown. *)
Theorem reorder_and_rollback (w : World) (card : nat) (department : Department.t)
    (tbl : TableRef) (subDeptId : option jsstring) (A B C : Patient.t) (j : nat) :
  nth_error (departments w) card = Some department ->
  rendered_table department tbl = Some (subDeptId, [A; B; C]) ->
  subDeptId <> Some [] ->
  Patient.id A <> Patient.id B ->
  Patient.id A <> Patient.id C ->
  Patient.id B <> Patient.id C ->
  (j < 3)%nat ->
  let w1 :=
    step w (Card card (DragRequirement tbl (Patient.id C) (Some (Patient.id A)))) in
  let batch := S (List.length (inflight w)) in
  let w2 := step w1 (Settle batch (Some j)) in
  (exists updated,
      nth_error (departments w1) card = Some updated
      /\ rendered_table updated tbl = Some (subDeptId, [C; A; B]))
  /\ nth_error (inflight w1) batch
     = Some {| closure := AwaitReorderPatients department;
               calls := [ upsertPatientSortOrder (Patient.id C) 1;
                          upsertPatientSortOrder (Patient.id A) 2;
                          upsertPatientSortOrder (Patient.id B) 3 ] |}
  /\ nth_error (departments w2) card = Some department
  /\ rendered_table department tbl = Some (subDeptId, [A; B; C])
  /\ toasts w2 = toasts w ++ [toast_error (js "Gagal menyimpan urutan.")].
Proof.
  intros Hcard Htbl Hne HAB HAC HBC Hj w1 batch w2.
  apply JsStringFacts.eqb_neq in HAB, HAC, HBC.
  assert (HCA : JsString.eqb (Patient.id C) (Patient.id A) = false).
  { apply JsStringFacts.eqb_neq. apply JsStringFacts.eqb_neq in HAC. congruence. }
  assert (Hdrag : handleDragEnd [A; B; C] (Patient.id C) (Some (Patient.id A))
                  = Some [C; A; B]).
  { unfold handleDragEnd. rewrite HCA. cbn.
    rewrite HAC, HBC, !JsStringFacts.eqb_refl. reflexivity. }
  destruct (update_rendered_table department tbl subDeptId [A; B; C]
              (fun _ => [C; A; B]) Htbl Hne)
    as (updated & Hupd & Hid & Htbl').
  assert (E1 : w1 = await (AwaitReorderPatients department)
                      (sort_order_writes [C; A; B] 0)
                      (handleUpdateDepartment updated w)).
  { unfold w1, step. rewrite Hcard. unfold card_event.
    rewrite Htbl, Hdrag. unfold handleReorderPatients. rewrite Hupd. reflexivity. }
  assert (D1 : nth_error (departments w1) card = Some updated).
  { rewrite E1. apply (nth_error_handleUpdateDepartment updated department w card Hcard).
    symmetry. exact Hid. }
  assert (I1 : nth_error (inflight w1) batch
               = Some {| closure := AwaitReorderPatients department;
                         calls := sort_order_writes [C; A; B] 0 |}).
  { rewrite E1. cbn [inflight await]. rewrite inflight_handleUpdateDepartment.
    rewrite <- app_assoc. cbn [app]. unfold batch.
    change (S (List.length (inflight w))) with (1 + List.length (inflight w))%nat.
    rewrite Nat.add_comm.
    rewrite nth_error_app2 by lia.
    replace (List.length (inflight w) + 1 - List.length (inflight w))%nat with 1%nat by lia.
    reflexivity. }
  split; [exists updated; split; [exact D1 | exact Htbl']|]. split; [exact I1|].
  assert (E2 : w2 = toast (toast_error (js "Gagal menyimpan urutan."))
                      (handleUpdateDepartment department
                         (setInflight (remove_nth batch (inflight w1)) w1))).
  { unfold w2, step, settle. rewrite I1. cbn [calls closure sort_order_writes List.length].
    unfold promise_all. apply Nat.ltb_lt in Hj. rewrite Hj. reflexivity. }
  split; [|split; [exact Htbl|]].
  - rewrite E2, departments_toast.
    apply (nth_error_handleUpdateDepartment department updated _ card); [exact D1 | exact Hid].
  - rewrite E2, E1. reflexivity.
Qed.

(** Three requirements of a sub-department, the third dragged onto the
    first, the second write rejected. *)
Lemma reorder_and_rollback_witness :
  let mk := fun (i r : jsstring) =>
    {| Patient.id := i; Patient.requirement := r;
       Patient.status := BelumDikerjakan; Patient.pasienList := [];
       Patient.hasPasien := false; Patient.namaPasien := []; Patient.nomorTelp := [];
       Patient.photos := [] |} in
  let A := mk (js "A") (js "Scaling") in
  let B := mk (js "B") (js "Tambal") in
  let C := mk (js "C") (js "Cabut") in
  let sub := fun l =>
    {| SubDepartment.id := js "sub-1"; SubDepartment.name := js "Endo";
       SubDepartment.patients := l |} in
  let department := fun l =>
    {| Department.id := js "dept-1"; Department.name := js "Konservasi";
       Department.patients := []; Department.hasSubDepartments := true;
       Department.subDepartments := Some [sub l] |} in
  let w := setDepartments [department [A; B; C]] initial_world in
  let w1 := step w (Card 0 (DragRequirement (SubTable 0) (js "C") (Some (js "A")))) in
  let w2 := step w1 (Settle 1 (Some 1%nat)) in
  departments w1 = [department [C; A; B]]
  /\ departments w2 = [department [A; B; C]]
  /\ toasts w2 = [toast_error (js "Gagal menyimpan urutan.")].
Proof.
  intros mk A B C sub department w w1 w2.
  pose proof (reorder_and_rollback w 0 (department [A; B; C]) (SubTable 0)
                (Some (js "sub-1")) A B C 1 eq_refl eq_refl
                ltac:(discriminate) ltac:(discriminate) ltac:(discriminate)
                ltac:(discriminate) ltac:(repeat constructor))
    as (H1 & H2 & H3 & H4 & H5).
  split; [|split].
  - reflexivity.
  - reflexivity.
  - exact H5.
Defined.

(** ** Rejected calls *)

(** Every suspended write other than the one of [handleAddSubDept] answers
    a rejection with one error toast and nothing else. *)
Lemma rejection_reports_once (k : Closure) (w : World) :
  is_write k = true ->
  (forall department newSub, k <> AwaitAddSubDept department newSub) ->
  exists msg, toasts (resume k false w) = toasts w ++ [toast_error msg].
Proof.
  intros Hw Hk. destruct k; try discriminate Hw; cbn; try (eexists; reflexivity).
  exfalso. eapply Hk. reflexivity.
Qed.

(** A rejected write whose closure holds a snapshot of the list puts that
    snapshot back. *)
Lemma rejection_writes_snapshot_back (w : World) :
  (forall snapshot, departments (resume (AwaitUpdateDepartment snapshot) false w) = snapshot)
  /\ (forall snapshot, departments (resume (AwaitDeleteDepartment snapshot) false w) = snapshot)
  /\ (forall snapshot name,
         departments (resume (AwaitAddDepartment snapshot name) false w) = snapshot)
  /\ (forall snapshot editing,
         appointments (resume (AwaitSubmitAppointment snapshot editing) false w) = snapshot)
  /\ (forall snapshot, appointments (resume (AwaitDeleteAppointment snapshot) false w) = snapshot)
  /\ (forall snapshot, appointments (resume (AwaitToggleChecklist snapshot) false w) = snapshot)
  /\ (forall snapshot caller,
         weeklySlots (resume (AwaitUpdateSlot snapshot caller) false w) = snapshot).
Proof. repeat split. Qed.

(** A rejected write of a card puts the department of its closure back in
    the place of every department with its id. *)
Lemma rejection_puts_department_back (k : Closure) (department : Department.t) (w : World) :
  In k [ AwaitSavePatientForm department FormAdd; AwaitSavePatientForm department FormEdit;
         AwaitSavePasienList department; AwaitStatusChange department;
         AwaitDeletePatient department; AwaitReorderPatients department ] ->
  departments (resume k false w)
  = map (fun d => if JsString.eqb (Department.id d) (Department.id department)
                  then department else d) (departments w).
Proof.
  cbn [In]. intros H. repeat (destruct H as [<-|H]; [reflexivity|]). contradiction.
Qed.

(** C1, at its failing input.  A department with sub-departments, the
    sub-department [Ortho] added, and [upsertSubDepartment] rejected while
    the department upsert is still in flight: the departments are back at
    the snapshot, but two notifications are shown, the failure and then the
    success message that [handleAddSubDept] emits after its [try]/[catch]
    whatever the outcome. *)
Theorem handleAddSubDept_rejection_also_reports_success :
  let department :=
    {| Department.id := js "dept-1"; Department.name := js "Konservasi";
       Department.patients := []; Department.hasSubDepartments := true;
       Department.subDepartments := Some [] |} in
  let newSub :=
    {| SubDepartment.id := js "sub-42"; SubDepartment.name := js "Ortho";
       SubDepartment.patients := [] |} in
  let w0 := setDepartments [department] initial_world in
  let w1 := step w0 (Card 0 (AddSubDepartment (js "Ortho") 42)) in
  let w2 := step w1 (Settle 1 (Some 0%nat)) in
  departments w1 = [Department_with_subDepartments department [newSub]]
  /\ nth_error (inflight w1) 1
     = Some {| closure := AwaitAddSubDept department newSub;
               calls := [upsertSubDepartment newSub (js "dept-1")] |}
  /\ departments w2 = departments w0
  /\ toasts w2
     = [ toast_error (js "Gagal menambah sub-departemen. Perubahan dibatalkan.");
         toast_success (js "Sub-departemen " ++ [Json.quote_mark] ++ js "Ortho"
                          ++ [Json.quote_mark] ++ js " ditambahkan") ].
Proof.
  vm_compute. repeat split.
Qed.

(** ** Fulfilled calls *)

Lemma resume_fulfilled_write (k : Closure) (w : World) :
  is_write k = true ->
  local_state (resume k true w) = local_state w
  /\ filter is_error (toasts (resume k true w)) = filter is_error (toasts w).
Proof.
  intros Hw. destruct k; try discriminate Hw; cbn;
    try (split; reflexivity);
    try (split; [reflexivity | rewrite filter_app; cbn; apply app_nil_r]).
Qed.

(** C2, as stated, fails when calls overlap.  Two appointments are ticked
    one after the other; the second upsert is fulfilled, then the first one
    is rejected: its handler writes back the snapshot it took before either
    tick, and the tick of the fulfilled call is gone.  The same with two
    requirements of one department edited one after the other
    ([handleSavePatientForm]): every call of the second edit is fulfilled,
    then the patient upsert of the first is rejected and the department is
    put back as it was before both edits.  And it fails for the photo
    flows without any rejection: a file is chosen for a requirement, then
    the status of the requirement is changed and both upserts of that change
    are fulfilled; when the upload is fulfilled, [handleAddPhoto] hands
    [onUpdate] the department of the render in which the file was chosen,
    and the status is back at its old value. *)
Lemma fulfilled_mutation_reverted_counterexample :
  let mk := fun (i : jsstring) =>
    {| Appointment.id := i; Appointment.tanggal := js "2024-01-01";
       Appointment.jam := js "09:00"; Appointment.kubikel := js "1";
       Appointment.rencanaPerawatan := js "Scaling"; Appointment.kasus := js "Karang";
       Appointment.departemen := js "Perio"; Appointment.namaPasien := js "Budi";
       Appointment.nomorTelp := js "0812"; Appointment.checklist := false |} in
  let w0 := setAppointments [mk (js "a-1"); mk (js "a-2")] initial_world in
  let w1 := step w0 (ToggleChecklist 0) in
  let w2 := step w1 (ToggleChecklist 1) in
  let w3 := step w2 (Settle 1 None) in
  let w4 := step w3 (Settle 0 (Some 0%nat)) in
  let p := fun (i : jsstring) (s : PatientStatus) (ph : list Photo.t) =>
    {| Patient.id := i; Patient.requirement := js "Scaling"; Patient.status := s;
       Patient.pasienList := []; Patient.hasPasien := false; Patient.namaPasien := [];
       Patient.nomorTelp := []; Patient.photos := ph |} in
  let dept := fun (l : list Patient.t) =>
    {| Department.id := js "dept-1"; Department.name := js "Perio";
       Department.patients := l; Department.hasSubDepartments := false;
       Department.subDepartments := None |} in
  let v0 := setDepartments [dept [p (js "p-1") Tindakan []; p (js "p-2") Tindakan []]]
              initial_world in
  let v1 := step v0 (Card 0 (EditRequirement DirectTable 0 (js "Scaling") Selesai)) in
  let v2 := step v1 (Card 0 (EditRequirement DirectTable 1 (js "Scaling") Selesai)) in
  let v3 := run [Settle 3 None; Settle 2 None; Settle 0 None] v2 in
  let v4 := step v3 (Settle 0 (Some 0%nat)) in
  let file := {| size := 1024; type := js "image/png" |} in
  let svc := {| uploadError := false; publicUrl := js "https://cdn/p-1/7.png";
                inserted_id := Some (js "ph-1") |} in
  let photo := {| Photo.id := js "ph-1"; Photo.url := js "https://cdn/p-1/7.png";
                  Photo.storagePath := js "p-1/7.png" |} in
  let q0 := page_of (setDepartments [dept [p (js "p-1") Tindakan []]] initial_world) in
  let q1 := page_step q0 (AddPhoto 0 DirectTable 0 file 7) in
  let q2 := page_step q1 (Base (Card 0 (ChangeStatus DirectTable 0 Selesai))) in
  let q3 := page_run [Base (Settle 1 None); Base (Settle 0 None)] q2 in
  let q4 := page_step q3 (SettlePhoto 0 (Some svc)) in
  (appointments w2 = [Appointment_toggle (mk (js "a-1")); Appointment_toggle (mk (js "a-2"))]
   /\ appointments w3 = appointments w2
   /\ inflight w4 = []
   /\ appointments w4 = appointments w0
   /\ appointments w4 <> appointments w2)
  /\ (departments v2 = [dept [p (js "p-1") Selesai []; p (js "p-2") Selesai []]]
      /\ departments v3 = departments v2
      /\ map closure (inflight v3)
         = [AwaitSavePatientForm
              (dept [p (js "p-1") Tindakan []; p (js "p-2") Tindakan []]) FormEdit]
      /\ departments v4 = departments v0
      /\ departments v4 <> departments v2)
  /\ (departments (page_world q1) = departments (page_world q0)
      /\ departments (page_world q2) = [dept [p (js "p-1") Selesai []]]
      /\ departments (page_world q3) = departments (page_world q2)
      /\ inflight (page_world q3) = []
      /\ toasts (page_world q4) = []
      /\ departments (page_world q4) = [dept [p (js "p-1") Tindakan [photo]]]
      /\ departments (page_world q4) <> departments (page_world q2)).
Proof.
  vm_compute. repeat split; discriminate.
Qed.

(** C2, amended.  The fulfilment of a write whose handler applied its
    change before the call (every flow of the page but the two photo flows,
    which apply nothing before their call) never touches the local state
    and shows no error: over any run that only fulfils such writes, in any
    order and with any photo calls still awaited, the departments,
    appointments and weekly slots stay what they were, in particular the
    state a handler applied optimistically before its call was sent.  (A
    rejection of another call that is still in flight, or the fulfilment of
    a photo call, can replace that state by an older one.) *)
Theorem fulfilment_keeps_optimistic_state (p : Page) (es : list PageEvent) :
  optimistic_fulfilments p es = true ->
  local_state (page_world (page_run es p)) = local_state (page_world p)
  /\ filter is_error (toasts (page_world (page_run es p)))
     = filter is_error (toasts (page_world p))
  /\ photo_calls (page_run es p) = photo_calls p.
Proof.
  revert p. induction es as [|e es IH]; intros p H; [repeat split|].
  cbn [optimistic_fulfilments] in H. destruct e as [e| | |]; try discriminate H.
  destruct e; try discriminate H.
  destruct rejected; [discriminate H|].
  apply andb_true_iff in H as [Hk Hrest].
  cbn [page_run fold_left]. fold (page_run es (page_step p (Base (Settle i None)))).
  destruct (IH _ Hrest) as (IH1 & IH2 & IH3). rewrite IH1, IH2, IH3.
  cbn [page_step setWorld page_world photo_calls step]. unfold settle.
  destruct (nth_error (inflight (page_world p)) i) as [pending|]; [|repeat split].
  cbn [promise_all].
  destruct (resume_fulfilled_write (closure pending)
              (setInflight (remove_nth i (inflight (page_world p))) (page_world p)) Hk)
    as [R1 R2].
  rewrite R1, R2. repeat split.
Qed.

(** An appointment is ticked while a photo upload is awaited, and the
    upsert of the tick is fulfilled. *)
Lemma fulfilment_keeps_optimistic_state_witness :
  let a :=
    {| Appointment.id := js "a-1"; Appointment.tanggal := js "2024-01-01";
       Appointment.jam := js "09:00"; Appointment.kubikel := js "1";
       Appointment.rencanaPerawatan := js "Scaling"; Appointment.kasus := js "Karang";
       Appointment.departemen := js "Perio"; Appointment.namaPasien := js "Budi";
       Appointment.nomorTelp := js "0812"; Appointment.checklist := false |} in
  let req :=
    {| Patient.id := js "p-1"; Patient.requirement := js "Scaling";
       Patient.status := Tindakan; Patient.pasienList := []; Patient.hasPasien := false;
       Patient.namaPasien := []; Patient.nomorTelp := []; Patient.photos := [] |} in
  let dept :=
    {| Department.id := js "dept-1"; Department.name := js "Perio";
       Department.patients := [req]; Department.hasSubDepartments := false;
       Department.subDepartments := None |} in
  let p1 :=
    page_run [ AddPhoto 0 DirectTable 0 {| size := 1024; type := js "image/png" |} 7;
               Base (ToggleChecklist 0) ]
      (page_of (setDepartments [dept] (setAppointments [a] initial_world))) in
  optimistic_fulfilments p1 [Base (Settle 0 None)] = true
  /\ List.length (photo_calls p1) = 1%nat
  /\ appointments (page_world p1) = [Appointment_toggle a]
  /\ local_state (page_world (page_run [Base (Settle 0 None)] p1))
     = local_state (page_world p1).
Proof.
  intros a req dept p1. split; [reflexivity|]. split; [reflexivity|].
  split; [reflexivity|].
  apply (proj1 (fulfilment_keeps_optimistic_state p1 [Base (Settle 0 None)] eq_refl)).
Defined.

(** ** Requirements on one level only *)

(** C9, as stated, fails at load.  [fetchDepartments] hangs every patient
    row without [sub_department_id] on its department whatever the flag:
    with one such row and one row in a sub-department, a department with
    [hasSubDepartments] comes back populated on both levels. *)
Lemma fetchDepartments_both_levels_counterexample :
  ~ (forall (depts : Response DepartmentRow.t) (subs : Response SubDepartmentRow.t)
            (patients : Response PatientRow.t) (photos : Response PhotoRow.t)
            (d : Department.t),
        In d (fetchDepartments depts subs patients photos) -> exclusive d).
Proof.
  intros H.
  set (row := fun (i : jsstring) (sub : option jsstring) =>
    {| PatientRow.id := i; PatientRow.department_id := js "d1";
       PatientRow.sub_department_id := sub; PatientRow.requirement := js "Scaling";
       PatientRow.status := BelumDikerjakan; PatientRow.has_pasien := false;
       PatientRow.nama_pasien := None; PatientRow.nomor_telp := None;
       PatientRow.pasien_list := None |}).
  set (depts := mkResponse
    (Some [ {| DepartmentRow.id := js "d1"; DepartmentRow.name := js "Konservasi";
               DepartmentRow.has_sub_departments := true |} ]) None).
  set (subs := mkResponse
    (Some [ {| SubDepartmentRow.id := js "s1"; SubDepartmentRow.department_id := js "d1";
               SubDepartmentRow.name := js "Endo" |} ]) None).
  set (patients := mkResponse (Some [row (js "p1") None; row (js "p2") (Some (js "s1"))]) None).
  set (photos := @mkResponse PhotoRow.t (Some []) None).
  destruct (fetchDepartments depts subs patients photos) as [|d l] eqn:E;
    [discriminate E|].
  specialize (H depts subs patients photos d).
  rewrite E in H. specialize (H (or_introl eq_refl)).
  vm_compute in E. injection E as <- _.
  apply H; [reflexivity|]. split; [discriminate|].
  eexists. split; [left; reflexivity | discriminate].
Qed.

Lemma well_kept_exclusive (d : Department.t) : well_kept d -> exclusive d.
Proof.
  intros H Hsub [Hdirect _]. destruct (H Hsub) as [E _]. contradiction.
Qed.

Lemma world_kept_await (k : Closure) (cs : list RemoteCall) (w : World) :
  closure_kept k -> world_kept w -> world_kept (await k cs w).
Proof.
  intros Hk [Hd Hi]. split; [exact Hd|]. cbn.
  apply Forall_app. split; [exact Hi|]. constructor; [exact Hk | constructor].
Qed.

Lemma world_kept_setDepartments (l : list Department.t) (w : World) :
  Forall well_kept l -> world_kept w -> world_kept (setDepartments l w).
Proof. intros Hl [_ Hi]. split; assumption. Qed.

Lemma world_kept_handleUpdateDepartment (updated : Department.t) (w : World) :
  well_kept updated -> world_kept w -> world_kept (handleUpdateDepartment updated w).
Proof.
  intros Hu Hw. unfold handleUpdateDepartment.
  apply world_kept_setDepartments.
  - destruct Hw as [Hd _]. apply Forall_forall. intros d Hin.
    apply in_map_iff in Hin as (d0 & E & H0).
    destruct (JsString.eqb (Department.id d0) (Department.id updated)).
    + subst d. exact Hu.
    + subst d. rewrite Forall_forall in Hd. apply Hd, H0.
  - apply world_kept_await; [|exact Hw]. cbn. apply Hw.
Qed.

(** The department built by a handler is kept when, on a department with
    sub-departments, the handler was given a sub-department id. *)
Lemma update_patients_in_kept (department updated : Department.t)
      (subDeptId : option jsstring) (f : list Patient.t -> list Patient.t) :
  well_kept department ->
  (Department.hasSubDepartments department = true -> opt_truthy subDeptId = true) ->
  update_patients_in department subDeptId f = Some updated ->
  well_kept updated.
Proof.
  intros Hk Hid Hu. unfold update_patients_in in Hu.
  destruct (Department.hasSubDepartments department) eqn:Hs.
  - rewrite (Hid eq_refl) in Hu. cbn in Hu.
    destruct (Department.subDepartments department) as [subs|] eqn:Es; [|discriminate].
    injection Hu as <-. intros _. destruct (Hk Hs) as [Hp Hids]. split; [exact Hp|].
    unfold subs_or_empty in *. rewrite Es in Hids. cbn.
    apply Forall_forall. intros s' Hin. apply in_map_iff in Hin as (s & <- & Hin).
    rewrite Forall_forall in Hids.
    destruct (JsString.eqb (SubDepartment.id s) (opt_or_empty subDeptId)); cbn;
      apply Hids, Hin.
  - rewrite andb_false_r in Hu. injection Hu as <-.
    intros H. cbn in H. congruence.
Qed.

(** On a kept department the rendered tables hand a non-empty
    sub-department id to their callbacks. *)
Lemma rendered_table_sub_id (department : Department.t) (tbl : TableRef)
      (subDeptId : option jsstring) (patients : list Patient.t) :
  well_kept department ->
  rendered_table department tbl = Some (subDeptId, patients) ->
  Department.hasSubDepartments department = true ->
  opt_truthy subDeptId = true /\ or_null subDeptId = subDeptId.
Proof.
  intros Hk Hr Hs. destruct (Hk Hs) as [_ Hids].
  unfold rendered_table in Hr. rewrite Hs in Hr. destruct tbl as [|j]; [discriminate|].
  destruct (nth_error (subs_or_empty department) j) as [sub|] eqn:Ej; [|discriminate].
  injection Hr as <- _. apply nth_error_In in Ej.
  rewrite Forall_forall in Hids. specialize (Hids sub Ej).
  cbn. destruct (SubDepartment.id sub); [contradiction | split; reflexivity].
Qed.

Lemma rendered_table_or_null (department : Department.t) (tbl : TableRef)
      (subDeptId : option jsstring) (patients : list Patient.t) :
  well_kept department ->
  rendered_table department tbl = Some (subDeptId, patients) ->
  Department.hasSubDepartments department = true ->
  opt_truthy (or_null subDeptId) = true.
Proof.
  intros Hk Hr Hs.
  destruct (rendered_table_sub_id department tbl subDeptId patients Hk Hr Hs) as [H1 H2].
  rewrite H2. exact H1.
Qed.

Lemma card_event_kept (department : Department.t) (a : CardAction) (w : World) :
  well_kept department -> world_kept w -> world_kept (card_event department a w).
Proof.
  intros Hk Hw. destruct a; cbn [card_event].
  - (* AddRequirement *)
    destruct (rendered_table department tbl) as [[subDeptId patients]|] eqn:Er; [|exact Hw].
    unfold handleSavePatientForm.
    destruct (update_patients_in department (or_null subDeptId) _) as [updated|] eqn:Eu;
      [|exact Hw].
    apply world_kept_await; [|exact Hw]. split; [exact Hk|].
    eapply update_patients_in_kept; [exact Hk | | exact Eu].
    eapply rendered_table_or_null; eassumption.
  - (* EditRequirement *)
    destruct (rendered_table department tbl) as [[subDeptId patients]|] eqn:Er; [|exact Hw].
    destruct (nth_error patients row) as [patient|]; [|exact Hw].
    unfold handleSavePatientForm.
    destruct (update_patients_in department (or_null subDeptId) _) as [updated|] eqn:Eu;
      [|exact Hw].
    unfold savePatientForm_commit.
    apply world_kept_await; [exact Hk|].
    apply world_kept_handleUpdateDepartment; [|exact Hw].
    eapply update_patients_in_kept; [exact Hk | | exact Eu].
    eapply rendered_table_or_null; eassumption.
  - (* ChangeStatus *)
    destruct (rendered_table department tbl) as [[subDeptId patients]|] eqn:Er; [|exact Hw].
    destruct (nth_error patients row) as [patient|]; [|exact Hw].
    unfold handleStatusChange.
    destruct (update_patients_in department subDeptId _) as [updated|] eqn:Eu; [|exact Hw].
    assert (Hu : world_kept (handleUpdateDepartment updated w)).
    { apply world_kept_handleUpdateDepartment; [|exact Hw].
      eapply update_patients_in_kept; [exact Hk | | exact Eu].
      intros Hs. eapply rendered_table_sub_id; eassumption. }
    destruct (find _ (allPatients department)); [|exact Hu].
    apply world_kept_await; [exact Hk | exact Hu].
  - (* ManagePasien *)
    destruct (rendered_table department tbl) as [[subDeptId patients]|] eqn:Er; [|exact Hw].
    destruct (nth_error patients row) as [patient|]; [|exact Hw].
    unfold handleSavePasienList.
    destruct (update_patients_in department (or_null subDeptId) _) as [updated|] eqn:Eu;
      [|exact Hw].
    apply world_kept_await; [exact Hk|].
    apply world_kept_handleUpdateDepartment; [|exact Hw].
    eapply update_patients_in_kept; [exact Hk | | exact Eu].
    eapply rendered_table_or_null; eassumption.
  - (* DeleteRequirement *)
    destruct (rendered_table department tbl) as [[subDeptId patients]|] eqn:Er; [|exact Hw].
    destruct (nth_error patients row) as [patient|]; [|exact Hw].
    unfold confirmDeletePatient.
    destruct (opt_truthy (Some (Patient.id patient))); [|exact Hw].
    destruct (update_patients_in department (or_null subDeptId) _) as [updated|] eqn:Eu;
      [|exact Hw].
    apply world_kept_await; [exact Hk|].
    apply world_kept_handleUpdateDepartment; [|exact Hw].
    eapply update_patients_in_kept; [exact Hk | | exact Eu].
    eapply rendered_table_or_null; eassumption.
  - (* DragRequirement *)
    destruct (rendered_table department tbl) as [[subDeptId patients]|] eqn:Er; [|exact Hw].
    destruct (handleDragEnd patients active over) as [reordered|]; [|exact Hw].
    unfold handleReorderPatients.
    destruct (update_patients_in department subDeptId _) as [updated|] eqn:Eu; [|exact Hw].
    apply world_kept_await; [exact Hk|].
    apply world_kept_handleUpdateDepartment; [|exact Hw].
    eapply update_patients_in_kept; [exact Hk | | exact Eu].
    intros Hs. eapply rendered_table_sub_id; eassumption.
  - (* AddSubDepartment *)
    destruct (Department.hasSubDepartments department) eqn:Hs; [|exact Hw].
    unfold handleAddSubDept.
    destruct (JsString.falsy (JsString.trim name)); [exact Hw|].
    apply world_kept_await; [exact Hk|].
    apply world_kept_handleUpdateDepartment; [|exact Hw].
    intros _. destruct (Hk Hs) as [Hp Hids]. split; [exact Hp|].
    cbn. apply Forall_app. split; [exact Hids|].
    constructor; [discriminate | constructor].
Qed.

Lemma resume_kept (k : Closure) (ok : bool) (w : World) :
  closure_kept k -> world_kept w -> world_kept (resume k ok w).
Proof.
  intros Hk Hw.
  destruct k; cbn [resume closure_kept] in *; destruct ok;
    try exact Hw;
    try (apply world_kept_setDepartments; [exact Hk | exact Hw]);
    try (apply world_kept_handleUpdateDepartment; [exact Hk | exact Hw]).
  (* getNextSortOrder fulfilled: the optimistic update and the upsert *)
  destruct Hk as [Hd Hu]. unfold savePatientForm_commit.
  apply world_kept_await; [exact Hd|].
  apply world_kept_handleUpdateDepartment; [exact Hu | exact Hw].
Qed.

Lemma In_remove_nth {A : Type} (i : nat) (l : list A) (x : A) :
  In x (remove_nth i l) -> In x l.
Proof.
  unfold remove_nth. revert l. induction i as [|i IH]; intros [|y l]; cbn; auto.
  intros [->|H]; [left; reflexivity | right; apply IH, H].
Qed.

Lemma Forall_remove_nth {A : Type} (P : A -> Prop) (i : nat) (l : list A) :
  Forall P l -> Forall P (remove_nth i l).
Proof.
  rewrite !Forall_forall. intros H x Hx. eapply H, In_remove_nth, Hx.
Qed.

Lemma step_kept (w : World) (e : Event) : world_kept w -> world_kept (step w e).
Proof.
  intros Hw. destruct e; cbn [step].
  - (* SubmitAddDepartment *)
    unfold AddDepartmentModal_handleSubmit.
    destruct (JsString.falsy (JsString.trim name)); [exact Hw|].
    unfold handleAddDepartment. apply world_kept_setDepartments.
    + apply Forall_app. split; [apply Hw|]. constructor; [|constructor].
      intros Hs. cbn in *. subst hasSub. split; [reflexivity | constructor].
    + apply world_kept_await; [|exact Hw]. cbn. apply Hw.
  - (* ConfirmDeleteDepartment *)
    destruct (nth_error (departments w) card) as [dept|]; [|exact Hw].
    unfold handleDeleteDepartment. apply world_kept_setDepartments.
    + destruct Hw as [Hd _]. rewrite Forall_forall in *. intros d Hin.
      apply filter_In in Hin as [Hin _]. apply Hd, Hin.
    + apply world_kept_await; [|exact Hw]. cbn. apply Hw.
  - (* Card *)
    destruct (nth_error (departments w) card) as [department|] eqn:Ec; [|exact Hw].
    apply card_event_kept; [|exact Hw].
    destruct Hw as [Hd _]. rewrite Forall_forall in Hd. apply Hd.
    eapply nth_error_In, Ec.
  - (* SubmitAppointment *)
    destruct editing as [row|].
    + destruct (nth_error (appointments w) row); [|exact Hw].
      unfold Appointments_handleSubmit. apply world_kept_await; [exact I | exact Hw].
    + unfold Appointments_handleSubmit. apply world_kept_await; [exact I | exact Hw].
  - (* ConfirmDeleteAppointment *)
    destruct (nth_error (appointments w) row); [|exact Hw].
    unfold Appointments_confirmDelete.
    destruct (opt_truthy _); [|exact Hw].
    apply world_kept_await; [exact I | exact Hw].
  - (* ToggleChecklist *)
    destruct (nth_error (appointments w) row); [|exact Hw].
    unfold toggleChecklist. destruct (find _ _); [|exact Hw].
    apply world_kept_await; [exact I | exact Hw].
  - (* SaveSlot *)
    destruct (nth_error (weeklySlots w) row) as [slot|]; [|exact Hw].
    destruct (slot_rendered slot); [|exact Hw].
    assert (G : world_kept (WeeklyPlanning_handleSave (Some (WeeklySlot.id slot)) day form w)).
    { unfold WeeklyPlanning_handleSave.
      destruct (negb (opt_truthy (Some (WeeklySlot.id slot))) || saving w); [exact Hw|].
      destruct (valueToSave form w); [|exact Hw].
      unfold updateSlot. destruct (find _ _); [|exact Hw].
      apply world_kept_await; [exact I | exact Hw]. }
    destruct (parseSlotValue (WeeklySlot_get slot day)); [exact G | exact Hw | exact G].
  - (* ClearSlot *)
    destruct (nth_error (weeklySlots w) row) as [slot|]; [|exact Hw].
    destruct (slot_rendered slot); [|exact Hw].
    destruct (parseSlotValue (WeeklySlot_get slot day)); try exact Hw.
    unfold WeeklyPlanning_handleClear.
    destruct (negb (opt_truthy (Some (WeeklySlot.id slot))) || saving w); [exact Hw|].
    unfold updateSlot. destruct (find _ _); [|exact Hw].
    apply world_kept_await; [exact I | exact Hw].
  - (* Settle *)
    unfold settle.
    destruct (nth_error (inflight w) i) as [p|] eqn:Ep; [|exact Hw].
    destruct (promise_all _ rejected) as [ok|]; [|exact Hw].
    apply resume_kept.
    + destruct Hw as [_ Hi]. rewrite Forall_forall in Hi. apply Hi.
      eapply nth_error_In, Ep.
    + destruct Hw as [Hd Hi]. split; [exact Hd|]. cbn.
      apply Forall_remove_nth, Hi.
Qed.

Lemma run_kept (es : list Event) (w : World) : world_kept w -> world_kept (run es w).
Proof.
  revert w. induction es as [|e es IH]; intros w Hw; [exact Hw|].
  cbn. apply IH, step_kept, Hw.
Qed.

(** C9, amended.  From a state in which every department with
    [hasSubDepartments] has an empty direct list and sub-departments with
    non-empty ids (the state at mount is one, and so is the department the
    add dialog creates), every run of the page, whatever the user does and
    however the calls settle, rollbacks included, leaves each such
    department with an empty direct list: requirements are never on both
    levels.  Loading is not part of a run. *)
Theorem mutations_keep_one_level (w : World) (es : list Event) :
  world_kept w ->
  world_kept (run es w)
  /\ Forall exclusive (departments (run es w))
  /\ forall d, In d (departments (run es w)) ->
               Department.hasSubDepartments d = true -> Department.patients d = [].
Proof.
  intros Hw. pose proof (run_kept es w Hw) as H. split; [exact H|].
  destruct H as [Hd _]. rewrite Forall_forall in Hd. split.
  - apply Forall_forall. intros d Hin. apply well_kept_exclusive, Hd, Hin.
  - intros d Hin Hs. apply (Hd d Hin Hs).
Qed.

Lemma initial_world_kept : world_kept initial_world.
Proof. split; constructor. Qed.

(** From the state at mount: a department with sub-departments is created,
    a sub-department is added, a requirement is added to it, its sort order
    is read and its upsert fulfilled. *)
Lemma mutations_keep_one_level_witness :
  let es :=
    [ SubmitAddDepartment (js "Konservasi") true 1;
      Card 0 (AddSubDepartment (js "Endo") 2);
      Card 0 (AddRequirement (SubTable 0) (js "Scaling") BelumDikerjakan 3);
      Settle 3 None;
      Settle 4 None ] in
  world_kept initial_world
  /\ exists d,
      In d (departments (run es initial_world))
      /\ Department.hasSubDepartments d = true
      /\ Department.patients d = []
      /\ List.length (flat_map SubDepartment.patients (subs_or_empty d)) = 1%nat.
Proof.
  intros es. split; [exact initial_world_kept|].
  destruct (departments (run es initial_world)) as [|d l] eqn:E; [discriminate E|].
  exists d. split; [left; reflexivity|].
  assert (Hs : Department.hasSubDepartments d = true).
  { vm_compute in E. injection E as <- _. reflexivity. }
  split; [exact Hs|]. split.
  - apply (proj2 (proj2 (mutations_keep_one_level initial_world es initial_world_kept)) d).
    + rewrite E. left. reflexivity.
    + exact Hs.
  - vm_compute in E. injection E as <- _. reflexivity.
Defined.

(* ================================================================== *)
(** * Further properties of the sources *)

(** ** The WhatsApp number *)

Lemma filter_forallb {A : Type} (f : A -> bool) (l : list A) :
  forallb f (filter f l) = true.
Proof.
  induction l as [|x l IH]; [reflexivity|].
  cbn [filter]. destruct (f x) eqn:E; [|exact IH].
  cbn [forallb]. rewrite E. exact IH.
Qed.

Lemma filter_all {A : Type} (f : A -> bool) (l : list A) :
  forallb f l = true -> filter f l = l.
Proof.
  induction l as [|x l IH]; [reflexivity|].
  cbn [forallb filter]. intros H. apply andb_prop in H as [Hx Hl].
  rewrite Hx, (IH Hl). reflexivity.
Qed.

(** The number that [formatPhoneForWA] returns: the country code and then
    kept units. *)
Lemma formatPhoneForWA_shape (phone : jsstring) :
  exists r, formatPhoneForWA phone = 54%N :: 50%N :: r /\ forallb phone_unit r = true.
Proof.
  unfold formatPhoneForWA.
  pose proof (filter_forallb phone_unit phone) as Hc.
  destruct (filter phone_unit phone) as [|a c].
  - exists []. split; reflexivity.
  - change (js "0") with [48%N]. change (js "+62") with [43%N; 54%N; 50%N].
    change (js "62") with [54%N; 50%N].
    cbn [forallb] in Hc. apply andb_prop in Hc as [Ha Hc].
    cbn [JsString.startsWith].
    destruct (N.eqb_spec 48 a) as [<-|H48].
    + exists c. split; [reflexivity|exact Hc].
    + cbn [andb]. destruct (N.eqb_spec 43 a) as [<-|H43].
      * cbn [andb]. destruct c as [|b c].
        { exists [43%N]. split; reflexivity. }
        destruct (N.eqb_spec 54 b) as [<-|H54].
        -- cbn [andb]. destruct c as [|d c].
           { exists [43%N; 54%N]. split; reflexivity. }
           destruct (N.eqb_spec 50 d) as [<-|H50].
           ++ cbn [andb skipn]. exists c. split; [reflexivity|].
              cbn [forallb] in Hc. apply andb_prop in Hc as [_ Hc].
              apply andb_prop in Hc as [_ Hc]. exact Hc.
           ++ cbn [andb negb app]. exists (43%N :: 54%N :: d :: c).
              split; [reflexivity|]. cbn [forallb] in Hc |- *. rewrite Hc. reflexivity.
        -- cbn [andb negb app]. exists (43%N :: b :: c).
           split; [reflexivity|]. cbn [forallb] in Hc |- *. rewrite Hc. reflexivity.
      * cbn [andb]. destruct (N.eqb_spec 54 a) as [<-|H54].
        -- cbn [andb]. destruct c as [|b c].
           { exists [54%N]. split; reflexivity. }
           destruct (N.eqb_spec 50 b) as [<-|H50].
           ++ cbn [andb negb]. exists c. split; [reflexivity|].
              cbn [forallb] in Hc. apply andb_prop in Hc as [_ Hc]. exact Hc.
           ++ cbn [andb negb app]. exists (54%N :: b :: c).
              split; [reflexivity|]. cbn [forallb] in Hc |- *. rewrite Hc. reflexivity.
        -- cbn [andb negb app]. exists (a :: c).
           split; [reflexivity|]. cbn [forallb]. rewrite Ha, Hc. reflexivity.
Qed.

(** X1.  Whatever text is given, [formatPhoneForWA] returns a number that
    starts with the country code 62 and holds only digits and plus signs,
    and formatting that number again changes nothing. *)
Theorem formatPhoneForWA_normal_form (phone : jsstring) :
  JsString.startsWith (js "62") (formatPhoneForWA phone) = true
  /\ forallb phone_unit (formatPhoneForWA phone) = true
  /\ formatPhoneForWA (formatPhoneForWA phone) = formatPhoneForWA phone.
Proof.
  destruct (formatPhoneForWA_shape phone) as (r & -> & Hr).
  split; [reflexivity|]. split.
  - cbn [forallb]. rewrite Hr. reflexivity.
  - unfold formatPhoneForWA.
    rewrite (filter_all phone_unit (54%N :: 50%N :: r))
      by (cbn [forallb]; rewrite Hr; reflexivity).
    reflexivity.
Qed.

(** X2.  The local form with a leading zero, the international form with
    [+62] and the form that starts with 62 of the same subscriber number
    are formatted to the same text. *)
Theorem formatPhoneForWA_forms_agree (rest : jsstring) :
  formatPhoneForWA (js "0" ++ rest) = js "62" ++ filter phone_unit rest
  /\ formatPhoneForWA (js "+62" ++ rest) = js "62" ++ filter phone_unit rest
  /\ formatPhoneForWA (js "62" ++ rest) = js "62" ++ filter phone_unit rest.
Proof.
  unfold formatPhoneForWA. repeat split.
Qed.

(** ** The completed counter and the progress *)

Lemma weight_fold_acc (patients : list Patient.t) (a : N) :
  fold_left (fun a p => (a + STATUS_WEIGHT (Patient.status p))%N) patients a
  = (a + weight_sum patients)%N.
Proof.
  unfold weight_sum. revert a.
  induction patients as [|p l IH]; intros a; cbn [fold_left].
  - lia.
  - rewrite (IH (a + _)%N), (IH (0 + _)%N). lia.
Qed.

Lemma weight_sum_cons (p : Patient.t) (l : list Patient.t) :
  weight_sum (p :: l) = (STATUS_WEIGHT (Patient.status p) + weight_sum l)%N.
Proof.
  unfold weight_sum at 1. cbn [fold_left]. rewrite weight_fold_acc. lia.
Qed.

Lemma completed_and_weight (patients : list Patient.t) :
  (calcCompleted patients <= List.length patients)%nat
  /\ (weight_sum patients <= N.of_nat (List.length patients) * 5)%N
  /\ (calcCompleted patients = List.length patients
      <-> weight_sum patients = (N.of_nat (List.length patients) * 5)%N).
Proof.
  induction patients as [|p l (IH1 & IH2 & IH3)].
  - unfold calcCompleted, weight_sum. cbn. repeat split; lia.
  - rewrite weight_sum_cons. unfold calcCompleted in *. cbn [filter List.length].
    destruct (Patient.status p); cbn [PatientStatus_eqb STATUS_WEIGHT List.length];
      repeat split; try lia.
Qed.

(** X3.  The completed counter of a card equals the number of its
    requirements exactly when the status weights add up to the maximum, five
    per requirement; and then, on a card that holds a requirement, the
    weighted progress is 100 for every rounding that sends the quotient 1 to
    100. *)
Theorem all_completed_is_full_progress (round_percent : N -> N -> N)
    (patients : list Patient.t) :
  (forall t, (0 < t)%N -> round_percent t t = 100%N) ->
  (calcCompleted patients = List.length patients
   <-> weight_sum patients = (N.of_nat (List.length patients) * 5)%N)
  /\ (patients <> [] ->
      calcCompleted patients = List.length patients ->
      calcWeightedProgress round_percent patients = 100%N).
Proof.
  intros Hround.
  destruct (completed_and_weight patients) as (_ & _ & Hiff).
  split; [exact Hiff|].
  intros Hne Hall. unfold calcWeightedProgress.
  destruct patients as [|p l]; [contradiction|].
  cbn [List.length Nat.eqb].
  change (fold_left _ (p :: l) 0%N) with (weight_sum (p :: l)).
  rewrite (proj1 Hiff Hall). apply Hround. cbn [List.length]. lia.
Qed.

Lemma round_percent_exact_one (t : N) : (0 < t)%N -> round_percent_exact t t = 100%N.
Proof.
  intros Ht. unfold round_percent_exact.
  symmetry. apply (N.div_unique _ _ _ t); lia.
Qed.

Lemma all_completed_is_full_progress_witness :
  let patients :=
    [ {| Patient.id := js "p-1"; Patient.requirement := js "Scaling";
         Patient.status := Selesai; Patient.pasienList := [];
         Patient.hasPasien := false; Patient.namaPasien := []; Patient.nomorTelp := [];
         Patient.photos := [] |} ] in
  (forall t, (0 < t)%N -> round_percent_exact t t = 100%N)
  /\ calcCompleted patients = List.length patients
  /\ calcWeightedProgress round_percent_exact patients = 100%N.
Proof.
  intros patients. split; [exact round_percent_exact_one|].
  split; [reflexivity|].
  apply (proj2 (all_completed_is_full_progress round_percent_exact patients
                  round_percent_exact_one)).
  - discriminate.
  - reflexivity.
Defined.

(** ** The entry list through [upsertPatient] and [fetchDepartments] *)

Module EntryListFacts.
Import Json.

Lemma entry_text_layout (e : PatientEntry.t) (rest : jsstring) :
  stringify (entry_to_json e) ++ rest =
    lbrace ::
      quote (js "id") ++ colon :: quote (PatientEntry.id e) ++ comma ::
      quote (js "namaPasien") ++ colon :: quote (PatientEntry.namaPasien e) ++ comma ::
      quote (js "nomorTelp") ++ colon :: quote (PatientEntry.nomorTelp e) ++ rbrace :: rest.
Proof.
  unfold entry_to_json. cbn -[quote js]. f_equal.
  repeat (rewrite <- ?app_assoc, <- ?app_comm_cons). reflexivity.
Qed.

Lemma entry_text_length (e : PatientEntry.t) :
  (6 <= List.length (stringify (entry_to_json e)))%nat.
Proof.
  rewrite <- (app_nil_r (stringify (entry_to_json e))), entry_text_layout.
  unfold quote. cbn [List.length app].
  repeat (rewrite length_app; cbn [List.length app]). lia.
Qed.

(** One entry followed by [rest] is read as that entry. *)
Lemma parse_value_entry (f : nat) (e : PatientEntry.t) (rest : jsstring) :
  parse_value (5 + f) (stringify (entry_to_json e) ++ rest) = Some (entry_to_json e, rest).
Proof.
  rewrite entry_text_layout. cbn [Nat.add].
  rewrite CodecFacts.parse_value_open.
  rewrite CodecFacts.parse_members_quote by reflexivity. cbn -[parse_members quote js].
  rewrite CodecFacts.parse_members_quote by reflexivity. cbn -[parse_members quote js].
  rewrite CodecFacts.parse_members_quote by reflexivity. cbn -[parse_members quote js].
  reflexivity.
Qed.

Lemma parse_elements_S (f : nat) (s : jsstring) :
  parse_elements (S f) s =
    match parse_value f s with
    | Some (v, rest) =>
        match skip_ws rest with
        | c :: r =>
            if (c =? comma)%N then
              match parse_elements f r with
              | Some (l, rest') => Some (v :: l, rest')
              | None => None
              end
            else if (c =? rbracket)%N then Some ([v], r)
            else None
        | [] => None
        end
    | None => None
    end.
Proof. reflexivity. Qed.

(** The entries of a non-empty array up to the closing bracket. *)
Lemma parse_elements_entries (l : list PatientEntry.t) :
  forall (e : PatientEntry.t) (g : nat) (rest : jsstring),
    (2 * List.length (join_comma (map stringify (map entry_to_json (e :: l)))) <= g)%nat ->
    parse_elements g
      (join_comma (map stringify (map entry_to_json (e :: l))) ++ rbracket :: rest)
    = Some (map entry_to_json (e :: l), rest).
Proof.
  induction l as [|e' l IH]; intros e g rest Hg.
  - cbn [map join_comma] in *.
    pose proof (entry_text_length e) as He.
    destruct g as [|g]; [lia|].
    rewrite parse_elements_S.
    replace g with (5 + (g - 5))%nat by lia.
    rewrite parse_value_entry. reflexivity.
  - change (map entry_to_json (e :: e' :: l))
      with (entry_to_json e :: map entry_to_json (e' :: l)) in *.
    change (map stringify (entry_to_json e :: map entry_to_json (e' :: l)))
      with (stringify (entry_to_json e) :: map stringify (map entry_to_json (e' :: l))) in *.
    change (join_comma (stringify (entry_to_json e)
                          :: map stringify (map entry_to_json (e' :: l))))
      with (stringify (entry_to_json e)
              ++ comma :: join_comma (map stringify (map entry_to_json (e' :: l)))) in *.
    pose proof (entry_text_length e) as He.
    rewrite length_app in Hg. cbn [List.length] in Hg.
    destruct g as [|g]; [lia|].
    rewrite parse_elements_S.
    rewrite <- app_assoc, <- app_comm_cons.
    replace g with (5 + (g - 5))%nat at 1 by lia.
    rewrite parse_value_entry.
    cbn [skip_ws is_ws]. change (is_ws comma) with false. cbv iota.
    change (comma =? comma)%N with true. cbv iota.
    rewrite IH by lia. reflexivity.
Qed.

Lemma entries_of_items_entries (l : list PatientEntry.t) :
  entries_of_items (map entry_to_json l) = Some l.
Proof.
  induction l as [|e l IH]; [reflexivity|].
  cbn [map entries_of_items]. rewrite IH. destruct e. reflexivity.
Qed.

(** The text [upsertPatient] writes for an entry list is read back as that
    list. *)
Lemma parse_entry_list (l : list PatientEntry.t) :
  parse (stringify (JArray (map entry_to_json l))) = Some (JArray (map entry_to_json l)).
Proof.
  destruct l as [|e l]; [reflexivity|].
  apply JsonFacts.parse_Some_iff.
  exists (S (2 * List.length (join_comma (map stringify (map entry_to_json (e :: l)))))), [].
  split; [|reflexivity].
  cbn [stringify].
  change ((fix map (l0 : list value) : list jsstring :=
             match l0 with
             | [] => []
             | a :: l1 => stringify a :: map l1
             end) (map entry_to_json (e :: l)))
    with (map stringify (map entry_to_json (e :: l))).
  pose proof (parse_elements_entries l e _ [] (Nat.le_refl _)) as H.
  remember (join_comma (map stringify (map entry_to_json (e :: l)))) as txt eqn:Etxt.
  assert (Hhead : exists r, txt = lbrace :: r).
  { subst txt. clear H. destruct l as [|e' l]; cbn [map].
    - cbn [join_comma]. rewrite <- (app_nil_r (stringify (entry_to_json e))).
      rewrite entry_text_layout. eexists. reflexivity.
    - change (join_comma (stringify (entry_to_json e)
                :: stringify (entry_to_json e') :: map stringify (map entry_to_json l)))
        with (stringify (entry_to_json e)
                ++ comma :: join_comma (stringify (entry_to_json e')
                                          :: map stringify (map entry_to_json l))).
      rewrite entry_text_layout. eexists. reflexivity. }
  destruct Hhead as [r Hr]. rewrite Hr in *.
  cbn -[parse_elements]. cbn -[parse_elements] in H. rewrite H. reflexivity.
Qed.

End EntryListFacts.

(** What [toPatient] reads from the row that [upsertPatient] writes. *)
Lemma toPatient_upsertPatient_row (m : list (jsstring * list Photo.t)) (p : Patient.t)
    (departmentId : jsstring) (subDepartmentId : option jsstring) :
  toPatient m (upsertPatient_row p departmentId subDepartmentId)
  = Patient_with_photos (syncLegacyFields p) (photos_of m (Patient.id p)).
Proof.
  unfold toPatient, upsertPatient_row.
  cbn [PatientRow.pasien_list PatientRow.has_pasien PatientRow.nama_pasien
       PatientRow.nomor_telp PatientRow.id PatientRow.requirement PatientRow.status
       opt_or_empty].
  assert (Ht : opt_truthy
                 (Some (Json.stringify
                          (Json.JArray (map entry_to_json
                                          (Patient.pasienList (syncLegacyFields p))))))
               = true) by reflexivity.
  rewrite Ht, EntryListFacts.parse_entry_list.
  unfold entries_of_json. rewrite EntryListFacts.entries_of_items_entries.
  unfold syncLegacyFields, Patient_with_photos.
  cbn [Patient.pasienList Patient.hasPasien Patient.namaPasien Patient.nomorTelp
       Patient.id Patient.requirement Patient.status Patient.photos].
  destruct (Patient.pasienList p) as [|e l]; reflexivity.
Qed.


(** X5.  A row from before the entry list existed, with no list text, the
    [has_pasien] flag, a name and a number (the column is not [null]), is
    read as a requirement with one entry made of the legacy name and number
    under the id [pe-] and the row id; its legacy fields are already
    synchronised, and saving and loading it again gives the same
    requirement. *)
Theorem legacy_row_migrates (m : list (jsstring * list Photo.t)) (row : PatientRow.t)
    (n t : jsstring) :
  In (PatientRow.pasien_list row) [None; Some []; Some (js "[]")] ->
  PatientRow.has_pasien row = true ->
  PatientRow.nama_pasien row = Some n ->
  n <> [] ->
  PatientRow.nomor_telp row = Some t ->
  Patient.pasienList (toPatient m row)
  = [ {| PatientEntry.id := js "pe-" ++ PatientRow.id row;
         PatientEntry.namaPasien := n;
         PatientEntry.nomorTelp := t |} ]
  /\ Patient.namaPasien (toPatient m row) = n
  /\ Patient.nomorTelp (toPatient m row) = t
  /\ Patient.hasPasien (toPatient m row) = true
  /\ syncLegacyFields (toPatient m row) = toPatient m row
  /\ forall departmentId subDepartmentId,
       toPatient m (upsertPatient_row (toPatient m row) departmentId subDepartmentId)
       = toPatient m row.
Proof.
  intros Hl Hh Hn Hne Ht.
  assert (E : toPatient m row
              = {| Patient.id := PatientRow.id row;
                   Patient.requirement := PatientRow.requirement row;
                   Patient.status := PatientRow.status row;
                   Patient.pasienList :=
                     [ {| PatientEntry.id := js "pe-" ++ PatientRow.id row;
                          PatientEntry.namaPasien := n;
                          PatientEntry.nomorTelp := t |} ];
                   Patient.hasPasien := true;
                   Patient.namaPasien := n;
                   Patient.nomorTelp := t;
                   Patient.photos := photos_of m (PatientRow.id row) |}).
  { unfold toPatient. rewrite Hh, Hn, Ht.
    assert (Hy : opt_truthy (Some n) = true) by (destruct n; [contradiction|reflexivity]).
    rewrite Hy.
    cbn [In] in Hl. destruct Hl as [<-|[<-|[<-|[]]]]; reflexivity. }
  rewrite E. repeat split.
  intros d s. rewrite toPatient_upsertPatient_row. reflexivity.
Qed.

Lemma legacy_row_migrates_witness :
  let row :=
    {| PatientRow.id := js "p-1"; PatientRow.department_id := js "dept-1";
       PatientRow.sub_department_id := None; PatientRow.requirement := js "Scaling";
       PatientRow.status := Tindakan; PatientRow.has_pasien := true;
       PatientRow.nama_pasien := Some (js "Budi");
       PatientRow.nomor_telp := Some (js "0812");
       PatientRow.pasien_list := None |} in
  Patient.pasienList (toPatient [] row)
  = [ {| PatientEntry.id := js "pe-p-1"; PatientEntry.namaPasien := js "Budi";
         PatientEntry.nomorTelp := js "0812" |} ].
Proof.
  intros row.
  exact (proj1 (legacy_row_migrates [] row (js "Budi") (js "0812")
                  (or_introl eq_refl) eq_refl eq_refl ltac:(discriminate) eq_refl)).
Defined.

(** ** The photos of a requirement *)

Lemma photos_of_push_photo (k id : jsstring) (ph : Photo.t)
    (m : list (jsstring * list Photo.t)) :
  photos_of (push_photo k ph m) id
  = if JsString.eqb k id then photos_of m id ++ [ph] else photos_of m id.
Proof.
  unfold photos_of. induction m as [|[k' l] m IH]; cbn [push_photo find fst].
  - destruct (JsString.eqb k id); reflexivity.
  - destruct (JsString.eqb k' k) eqn:Ek; cbn [find fst].
    + apply JsStringFacts.eqb_eq in Ek. subst k'.
      destruct (JsString.eqb k id); reflexivity.
    + destruct (JsString.eqb k' id) eqn:Ei.
      * apply JsStringFacts.eqb_eq in Ei. subst k'.
        destruct (JsString.eqb k id) eqn:Eki; [|reflexivity].
        apply JsStringFacts.eqb_eq in Eki. subst k.
        rewrite JsStringFacts.eqb_refl in Ek. discriminate.
      * exact IH.
Qed.

Lemma photos_of_fold (id : jsstring) (photos : list PhotoRow.t) :
  forall m : list (jsstring * list Photo.t),
    photos_of
      (fold_left (fun m ph => push_photo (PhotoRow.patient_id ph) (photo_of_row ph) m)
         photos m) id
    = photos_of m id
        ++ map photo_of_row
             (filter (fun ph => JsString.eqb (PhotoRow.patient_id ph) id) photos).
Proof.
  induction photos as [|ph photos IH]; intros m; cbn [fold_left filter].
  - rewrite app_nil_r. reflexivity.
  - rewrite IH, photos_of_push_photo.
    destruct (JsString.eqb (PhotoRow.patient_id ph) id); [|reflexivity].
    cbn [map]. rewrite <- app_assoc. reflexivity.
Qed.

Lemma photosByPatient_from_Some (photos : list PhotoRow.t) :
  forall m m' : list (jsstring * list Photo.t),
    photosByPatient_from photos m = Some m' ->
    m' = fold_left (fun m ph => push_photo (PhotoRow.patient_id ph) (photo_of_row ph) m)
           photos m.
Proof.
  induction photos as [|ph photos IH]; intros m m' H; cbn [photosByPatient_from] in H.
  - injection H as <-. reflexivity.
  - destruct (object_prototype_key (PhotoRow.patient_id ph)); [discriminate H|].
    cbn [fold_left]. exact (IH _ _ H).
Qed.

(** X6.  The loop that groups the photos throws exactly when a photo row
    has a [patient_id] that names a property of [Object.prototype].  When
    it does not throw, the photos that [fetchDepartments] attaches to a
    requirement whose id names no such property are the rows of the photo
    table with that [patient_id], all of them and in the order of the
    table; for an id that names such a property the value attached is not a
    list of photos. *)
Theorem photos_grouped_by_patient (photos : list PhotoRow.t) :
  (photosByPatient_js photos = None <->
   exists ph, In ph photos /\ object_prototype_key (PhotoRow.patient_id ph) = true)
  /\ forall (m : list (jsstring * list Photo.t)) (id : jsstring),
       photosByPatient_js photos = Some m ->
       photos_of_js m id
       = if object_prototype_key id then None
         else Some (map photo_of_row
                      (filter (fun ph => JsString.eqb (PhotoRow.patient_id ph) id) photos)).
Proof.
  split; [apply photosByPatient_from_None|].
  intros m id Hm. apply photosByPatient_from_Some in Hm. subst m.
  unfold photos_of_js. destruct (object_prototype_key id); [reflexivity|].
  f_equal. exact (photos_of_fold id photos []).
Qed.

(** ** Appointments and weekly slots through their upserts and fetches *)

(** X7.  Whatever rows the appointment query returns and in whatever
    order, a row that comes back as [upsertAppointment] wrote it is read by
    [fetchAppointments], at the place of the row, as the appointment written
    with its time cut to the first five code units; when the time is no
    longer than that, as the appointment written. *)
Theorem appointment_save_load_round_trip (reply : list AppointmentRow.t) (i : nat)
    (a : Appointment.t) :
  nth_error reply i = Some (upsertAppointment_row a) ->
  List.length (fetchAppointments (answered reply)) = List.length reply
  /\ nth_error (fetchAppointments (answered reply)) i
     = Some (Appointment_with_jam a (firstn 5 (Appointment.jam a)))
  /\ ((List.length (Appointment.jam a) <= 5)%nat ->
      nth_error (fetchAppointments (answered reply)) i = Some a).
Proof.
  intros H. unfold fetchAppointments, answered, failed, rows. cbn [data error].
  split; [apply length_map|].
  assert (E : nth_error
                (map (fun row =>
                        {| Appointment.id := AppointmentRow.id row;
                           Appointment.tanggal := AppointmentRow.tanggal row;
                           Appointment.jam := firstn 5 (AppointmentRow.jam row);
                           Appointment.kubikel := AppointmentRow.kubikel row;
                           Appointment.rencanaPerawatan := AppointmentRow.rencana_perawatan row;
                           Appointment.kasus := AppointmentRow.kasus row;
                           Appointment.departemen := AppointmentRow.departemen row;
                           Appointment.namaPasien := AppointmentRow.nama_pasien row;
                           Appointment.nomorTelp := AppointmentRow.nomor_telp row;
                           Appointment.checklist := AppointmentRow.checklist row |}) reply) i
              = Some (Appointment_with_jam a (firstn 5 (Appointment.jam a)))).
  { rewrite nth_error_map, H. reflexivity. }
  split; [exact E|].
  intros Hj. rewrite E. rewrite firstn_all2 by exact Hj. destruct a; reflexivity.
Qed.

Lemma appointment_save_load_round_trip_witness :
  let a (k : jsstring) :=
    {| Appointment.id := k; Appointment.tanggal := js "2025-01-06";
       Appointment.jam := js "08:30"; Appointment.kubikel := js "3";
       Appointment.rencanaPerawatan := js "Scaling"; Appointment.kasus := js "Karies";
       Appointment.departemen := js "Konservasi"; Appointment.namaPasien := js "Budi";
       Appointment.nomorTelp := js "0812"; Appointment.checklist := false |} in
  let reply := [upsertAppointment_row (a (js "a-2")); upsertAppointment_row (a (js "a-1"))] in
  nth_error (fetchAppointments (answered reply)) 1 = Some (a (js "a-1")).
Proof.
  intros a reply.
  apply (proj2 (proj2 (appointment_save_load_round_trip reply 1 (a (js "a-1")) eq_refl))).
  cbn. lia.
Defined.

(** X8.  Whatever rows the slot query returns and in whatever order, a
    row that comes back as [upsertWeeklySlot] wrote it is read by
    [fetchWeeklySlots], at the place of the row, as the slot written, cell
    by cell. *)
Theorem weekly_slot_save_load_round_trip (reply : list WeeklySlotRow.t) (i : nat)
    (slot : WeeklySlot.t) :
  nth_error reply i = Some (upsertWeeklySlot_row slot) ->
  List.length (fetchWeeklySlots (answered reply)) = List.length reply
  /\ nth_error (fetchWeeklySlots (answered reply)) i = Some slot.
Proof.
  intros H. unfold fetchWeeklySlots, answered, failed, rows. cbn [data error].
  split; [apply length_map|].
  rewrite nth_error_map, H. destruct slot. reflexivity.
Qed.

Lemma weekly_slot_save_load_round_trip_witness :
  let reply := map upsertWeeklySlot_row DEFAULT_WEEKLY in
  nth_error (fetchWeeklySlots (answered reply)) 4 = Some (break_slot "w5" "12:00").
Proof.
  intros reply.
  exact (proj2 (weekly_slot_save_load_round_trip reply 4 (break_slot "w5" "12:00") eq_refl)).
Defined.

(** ** Loading the page *)

(** X9.  Whatever the three fetches return, after [loadAll] the planner
    holds the fetched plan or [DEFAULT_WEEKLY] and never fewer rows than
    [DEFAULT_WEEKLY] has; upserts are sent only when no row was fetched,
    and then they are the rows of [DEFAULT_WEEKLY], one upsert each. *)
Theorem loadAll_weekly_slots (depts : list Department.t) (appts : list Appointment.t)
    (slots : list WeeklySlot.t) (w : World) :
  let w' := fst (loadAll depts appts slots w) in
  let sent := snd (loadAll depts appts slots w) in
  (List.length DEFAULT_WEEKLY <= List.length (weeklySlots w'))%nat
  /\ (weeklySlots w' = slots \/ weeklySlots w' = DEFAULT_WEEKLY)
  /\ (slots <> [] -> sent = [])
  /\ (slots = [] ->
      weeklySlots w' = DEFAULT_WEEKLY /\ sent = map upsertWeeklySlot DEFAULT_WEEKLY).
Proof.
  unfold loadAll.
  destruct (List.length DEFAULT_WEEKLY <=? List.length slots)%nat eqn:E.
  - apply Nat.leb_le in E. cbn [fst snd setWeeklySlots weeklySlots].
    split; [exact E|]. split; [left; reflexivity|]. split; [reflexivity|].
    intros ->. cbn in E. lia.
  - destruct (List.length slots =? 0)%nat eqn:E0; cbn [fst snd setWeeklySlots weeklySlots].
    + apply Nat.eqb_eq in E0. split; [lia|]. split; [right; reflexivity|].
      split; [|intros _; split; reflexivity].
      intros H. destruct slots; [contradiction|discriminate E0].
    + split; [lia|]. split; [right; reflexivity|]. split; [reflexivity|].
      intros ->. discriminate E0.
Qed.

(** X10.  When the queries of the mount fail, the departments and the
    appointments on the page stay as they are, the planner shows
    [DEFAULT_WEEKLY], and the failed slot query is taken for an empty
    table: the seventeen default rows are upserted. *)
Theorem failed_mount_seeds_defaults
    (depts : Response DepartmentRow.t) (subs : Response SubDepartmentRow.t)
    (patients : Response PatientRow.t) (photos : Response PhotoRow.t)
    (appts : Response AppointmentRow.t) (slots : Response WeeklySlotRow.t) (w : World) :
  failed depts = true -> failed appts = true -> failed slots = true ->
  let w' := fst (Dashboard_mount depts subs patients photos appts slots w) in
  departments w' = departments w
  /\ appointments w' = appointments w
  /\ weeklySlots w' = DEFAULT_WEEKLY
  /\ snd (Dashboard_mount depts subs patients photos appts slots w)
     = map upsertWeeklySlot DEFAULT_WEEKLY
  /\ List.length (snd (Dashboard_mount depts subs patients photos appts slots w)) = 17%nat.
Proof.
  intros Hd Ha Hs.
  unfold Dashboard_mount, fetchDepartments, fetchAppointments, fetchWeeklySlots.
  rewrite Hd, Ha, Hs. repeat split.
Qed.

Lemma failed_mount_seeds_defaults_witness :
  let down (A : Type) : Response A := {| data := None; error := Some (js "fetch failed") |} in
  weeklySlots (fst (Dashboard_mount (down _) (down _) (down _) (down _) (down _) (down _) initial_world))
  = DEFAULT_WEEKLY
  /\ List.length (snd (Dashboard_mount (down _) (down _) (down _) (down _) (down _) (down _) initial_world))
     = 17%nat.
Proof.
  intros down.
  pose proof (failed_mount_seeds_defaults (down _) (down _) (down _) (down _) (down _) (down _)
                initial_world
                eq_refl eq_refl eq_refl) as (_ & _ & H3 & _ & H5).
  split; [exact H3|exact H5].
Defined.

(** ** Deleting a requirement and its photos *)

Lemma truthy_paths_spec (photos : list (option jsstring)) (p : jsstring) :
  In p (truthy_paths photos) <-> In (Some p) photos /\ p <> [].
Proof.
  induction photos as [|c photos IH]; cbn [truthy_paths In].
  - split; [contradiction|intros [[] _]].
  - destruct c as [s|]; cbn [opt_truthy opt_or_empty].
    + destruct s as [|a s]; cbn [JsString.falsy negb In].
      * rewrite IH. split.
        -- intros [H1 H2]. split; [right; exact H1|exact H2].
        -- intros [[H|H] H2]; [injection H as <-; contradiction|split; assumption].
      * rewrite IH. split.
        -- intros [<-|[H1 H2]]; [split; [left; reflexivity|discriminate]|].
           split; [right; exact H1|exact H2].
        -- intros [[H|H] H2]; [injection H as <-; left; reflexivity|right; split; assumption].
    + rewrite IH. split.
      * intros [H1 H2]. split; [right; exact H1|exact H2].
      * intros [[H|H] H2]; [discriminate H|split; assumption].
Qed.

(** X11.  [deletePatient] first asks for the storage paths of the photos
    and always ends with the delete of the requirement row.  It asks the
    storage to remove files only when a photo row has a path: the request
    then names every path that is neither null nor empty, and no other. *)
Theorem deletePatient_cleans_storage (id : jsstring)
    (photos : option (list (option jsstring))) :
  exists between,
    deletePatient_calls id photos
    = select_storage_paths id :: between ++ [delete_patient_row id]
    /\ (between = []
        \/ exists paths, between = [storage_remove paths] /\ paths <> [])
    /\ forall paths, In (storage_remove paths) (deletePatient_calls id photos) ->
         paths <> []
         /\ exists l, photos = Some l
                      /\ forall p, In p paths <-> In (Some p) l /\ p <> [].
Proof.
  unfold deletePatient_calls.
  destruct photos as [l|].
  - destruct (0 <? List.length l)%nat eqn:El.
    + destruct (truthy_paths l) as [|p0 ps] eqn:Ep; cbn [List.length Nat.ltb Nat.leb].
      * exists []. split; [reflexivity|]. split; [left; reflexivity|].
        intros paths [H|[H|[]]]; discriminate H.
      * exists [storage_remove (p0 :: ps)]. split; [reflexivity|].
        split; [right; eexists; split; [reflexivity|discriminate]|].
        intros paths [H|[H|[H|[]]]]; try discriminate H.
        injection H as <-. split; [discriminate|].
        exists l. split; [reflexivity|]. intros p. rewrite <- Ep.
        apply truthy_paths_spec.
    + exists []. split; [reflexivity|]. split; [left; reflexivity|].
      intros paths [H|[H|[]]]; discriminate H.
  - exists []. split; [reflexivity|]. split; [left; reflexivity|].
    intros paths [H|[H|[]]]; discriminate H.
Qed.

(** ** Removing a photo *)

Lemma filter_index_past {A : Type} (l : list A) :
  forall (i j : nat), (i < j)%nat ->
    filter_index (fun k => negb (k =? i)%nat) j l = l.
Proof.
  induction l as [|x l IH]; intros i j Hij; cbn [filter_index]; [reflexivity|].
  replace (j =? i)%nat with false by (symmetry; apply Nat.eqb_neq; lia).
  cbn [negb]. f_equal. apply IH. lia.
Qed.

Lemma filter_index_remove {A : Type} (l : list A) :
  forall (i index : nat),
    filter_index (fun j => negb (j =? i + index)%nat) i l = remove_nth index l.
Proof.
  unfold remove_nth.
  induction l as [|x l IH]; intros i index; cbn [filter_index].
  - destruct index; reflexivity.
  - destruct index as [|index].
    + rewrite Nat.add_0_r, Nat.eqb_refl. cbn [negb firstn skipn app].
      apply filter_index_past. lia.
    + replace (i =? i + S index)%nat with false by (symmetry; apply Nat.eqb_neq; lia).
      cbn [negb firstn skipn app]. f_equal.
      replace (i + S index)%nat with (S i + index)%nat by lia.
      exact (IH (S i) index).
Qed.

(** X12.  [handleRemovePhoto] on a photo that exists drops that photo and
    keeps the others in their order: one photo fewer.  It asks for the row
    of the photo to be deleted, and for its file to be removed only when
    the photo has a storage path.  With no photo at the index, or no
    requirement open, it does nothing. *)
Theorem handleRemovePhoto_drops_one (department : Department.t) (pp : Patient.t)
    (photoSubDeptId : option jsstring) (index : nat) :
  (index < List.length (Patient.photos pp))%nat ->
  exists photo r,
    nth_error (Patient.photos pp) index = Some photo
    /\ handleRemovePhoto department (Some pp) photoSubDeptId index = Some r
    /\ Patient.photos (removal_patient r) = remove_nth index (Patient.photos pp)
    /\ S (List.length (Patient.photos (removal_patient r))) = List.length (Patient.photos pp)
    /\ last (removal_calls r) (delete_photo_row []) = delete_photo_row (Photo.id photo)
    /\ (In (storage_remove [Photo.storagePath photo]) (removal_calls r)
        <-> Photo.storagePath photo <> [])
    /\ removal_update r
       = updatePhotosInState department (Patient.id pp)
           (remove_nth index (Patient.photos pp)) photoSubDeptId.
Proof.
  intros Hi. unfold handleRemovePhoto.
  destruct (nth_error (Patient.photos pp) index) as [photo|] eqn:E.
  2:{ apply nth_error_None in E. lia. }
  exists photo. eexists. split; [reflexivity|]. split; [reflexivity|].
  cbn [removal_patient removal_calls removal_update Patient_with_photos Patient.photos].
  change (filter_index (fun i => negb (i =? index)%nat) 0 (Patient.photos pp))
    with (filter_index (fun j => negb (j =? 0 + index)%nat) 0 (Patient.photos pp)).
  rewrite (filter_index_remove (Patient.photos pp) 0 index).
  split; [reflexivity|]. split.
  { unfold remove_nth. rewrite length_app, length_firstn, length_skipn. lia. }
  unfold deletePhoto_calls.
  destruct (Photo.storagePath photo) as [|c s] eqn:Es; cbn [JsString.falsy app last].
  - split; [reflexivity|]. split; [|reflexivity].
    split; [intros [H|[]]; discriminate H|intros H; contradiction].
  - split; [reflexivity|]. split; [|reflexivity].
    split; [discriminate|intros _; left; reflexivity].
Qed.

Lemma handleRemovePhoto_drops_one_witness :
  let photo (k : jsstring) :=
    {| Photo.id := k; Photo.url := js "https://cdn/x.jpg";
       Photo.storagePath := js "p-1/1.jpg" |} in
  let pp :=
    {| Patient.id := js "p-1"; Patient.requirement := js "Scaling";
       Patient.status := Tindakan; Patient.pasienList := [];
       Patient.hasPasien := false; Patient.namaPasien := []; Patient.nomorTelp := [];
       Patient.photos := [photo (js "ph-1"); photo (js "ph-2"); photo (js "ph-3")] |} in
  let department :=
    {| Department.id := js "dept-1"; Department.name := js "Konservasi";
       Department.patients := [pp]; Department.hasSubDepartments := false;
       Department.subDepartments := None |} in
  exists r,
    handleRemovePhoto department (Some pp) None 1 = Some r
    /\ Patient.photos (removal_patient r) = [photo (js "ph-1"); photo (js "ph-3")].
Proof.
  intros photo pp department.
  destruct (handleRemovePhoto_drops_one department pp None 1 ltac:(cbn; lia))
    as (ph & r & _ & Hr & Hp & _).
  exists r. split; [exact Hr|]. rewrite Hp. reflexivity.
Defined.

(** ** Dragging a requirement *)

Lemma findIndex_Some {A : Type} (f : A -> bool) (l : list A) (i : nat) :
  findIndex f l = Some i ->
  exists x, nth_error l i = Some x /\ f x = true.
Proof.
  revert i. induction l as [|y l IH]; intros i; cbn [findIndex]; [discriminate|].
  destruct (f y) eqn:E.
  - intros H. injection H as <-. exists y. split; [reflexivity|exact E].
  - destruct (findIndex f l) as [k|]; cbn [option_map]; [|discriminate].
    intros H. injection H as <-. exact (IH k eq_refl).
Qed.

Lemma remove_nth_length {A : Type} (i : nat) (l : list A) :
  (i < List.length l)%nat -> S (List.length (remove_nth i l)) = List.length l.
Proof.
  intros H. unfold remove_nth. rewrite length_app, length_firstn, length_skipn. lia.
Qed.

Lemma remove_nth_Permutation {A : Type} (i : nat) :
  forall (l : list A) (x : A),
    nth_error l i = Some x -> Permutation l (x :: remove_nth i l).
Proof.
  unfold remove_nth.
  induction i as [|i IH]; intros [|y l] x H; try discriminate H.
  - injection H as <-. reflexivity.
  - cbn [nth_error] in H. cbn [firstn skipn app].
    etransitivity; [apply perm_skip, (IH l x H)|]. apply perm_swap.
Qed.

Lemma remove_nth_middle {A : Type} (a b : list A) (x : A) :
  remove_nth (List.length a) (a ++ x :: b) = a ++ b.
Proof.
  unfold remove_nth. induction a as [|y a IH]; [reflexivity|].
  cbn [List.length app firstn skipn]. cbn [skipn] in IH. rewrite IH. reflexivity.
Qed.

(** [arrayMove] with both indices inside the array. *)
Lemma arrayMove_spec {A : Type} (array : list A) (from to : nat) (x : A) :
  nth_error array from = Some x ->
  (to < List.length array)%nat ->
  nth_error (arrayMove array from to) to = Some x
  /\ remove_nth to (arrayMove array from to) = remove_nth from array
  /\ List.length (arrayMove array from to) = List.length array
  /\ Permutation array (arrayMove array from to).
Proof.
  intros Hx Hto. unfold arrayMove. rewrite Hx.
  fold (remove_nth from array).
  assert (Hfrom : (from < List.length array)%nat)
    by (apply nth_error_Some; rewrite Hx; discriminate).
  pose proof (remove_nth_length from array Hfrom) as Hlen.
  pose proof (remove_nth_Permutation from array x Hx) as Hperm.
  set (rest := remove_nth from array) in *.
  assert (Hf : List.length (firstn to rest) = to) by (rewrite length_firstn; lia).
  pose proof (firstn_skipn to rest) as Hsplit.
  set (a := firstn to rest) in *. set (b := skipn to rest) in *.
  rewrite <- Hf. repeat split.
  - rewrite nth_error_app2 by lia. rewrite Nat.sub_diag. reflexivity.
  - rewrite remove_nth_middle. exact Hsplit.
  - rewrite length_app. cbn [List.length]. rewrite <- Hlen, <- Hsplit, length_app. lia.
  - etransitivity; [exact Hperm|]. rewrite <- Hsplit. apply Permutation_middle.
Qed.

(** X13.  When [handleDragEnd] hands a list to [onReorder], the dragged
    requirement stands at the place of the one it was dropped on, the other
    requirements keep their order, and the list is a rearrangement of the
    table: nothing is lost and nothing is doubled. *)
Theorem handleDragEnd_moves_one (patients reordered : list Patient.t)
    (active : jsstring) (over : option jsstring) :
  handleDragEnd patients active over = Some reordered ->
  exists oldIndex newIndex p overId,
    over = Some overId
    /\ findIndex (fun q => JsString.eqb (Patient.id q) active) patients = Some oldIndex
    /\ findIndex (fun q => JsString.eqb (Patient.id q) overId) patients = Some newIndex
    /\ nth_error patients oldIndex = Some p
    /\ Patient.id p = active
    /\ nth_error reordered newIndex = Some p
    /\ remove_nth newIndex reordered = remove_nth oldIndex patients
    /\ List.length reordered = List.length patients
    /\ Permutation patients reordered.
Proof.
  unfold handleDragEnd. destruct over as [overId|]; [|discriminate].
  destruct (JsString.eqb active overId); [discriminate|].
  destruct (findIndex _ patients) as [oldIndex|] eqn:Eo; [|discriminate].
  destruct (findIndex (fun p => JsString.eqb (Patient.id p) overId) patients)
    as [newIndex|] eqn:En; [|discriminate].
  intros H. injection H as <-.
  destruct (findIndex_Some _ _ _ Eo) as (p & Hp & Hid).
  destruct (findIndex_Some _ _ _ En) as (q & Hq & _).
  apply JsStringFacts.eqb_eq in Hid.
  assert (Hn : (newIndex < List.length patients)%nat)
    by (apply nth_error_Some; rewrite Hq; discriminate).
  destruct (arrayMove_spec patients oldIndex newIndex p Hp Hn) as (H1 & H2 & H3 & H4).
  exists oldIndex, newIndex, p, overId. repeat split; assumption.
Qed.

Lemma handleDragEnd_moves_one_witness :
  let req (k : jsstring) :=
    {| Patient.id := k; Patient.requirement := js "Scaling";
       Patient.status := Tindakan; Patient.pasienList := [];
       Patient.hasPasien := false; Patient.namaPasien := []; Patient.nomorTelp := [];
       Patient.photos := [] |} in
  let patients := [req (js "p-1"); req (js "p-2"); req (js "p-3")] in
  handleDragEnd patients (js "p-1") (Some (js "p-3"))
  = Some [req (js "p-2"); req (js "p-3"); req (js "p-1")]
  /\ Permutation patients [req (js "p-2"); req (js "p-3"); req (js "p-1")].
Proof.
  intros req patients.
  assert (E : handleDragEnd patients (js "p-1") (Some (js "p-3"))
              = Some [req (js "p-2"); req (js "p-3"); req (js "p-1")]) by reflexivity.
  split; [exact E|].
  destruct (handleDragEnd_moves_one patients _ (js "p-1") (Some (js "p-3")) E)
    as (? & ? & ? & ? & _ & _ & _ & _ & _ & _ & _ & _ & H).
  exact H.
Defined.

(** ** The entry dialog *)

Lemma names_filled_edit (m : PasienListModal) (l : list PatientEntry.t) :
  JsString.falsy (JsString.trim (editNama m)) = false ->
  names_filled l -> names_filled (map (edit_entry m) l).
Proof.
  intros Hn H. unfold names_filled in *. induction H as [|e l He _ IH]; cbn [map].
  - constructor.
  - constructor; [|exact IH].
    unfold edit_entry. destruct (editingId m) as [i|]; [|exact He].
    destruct (JsString.eqb (PatientEntry.id e) i); [|exact He].
    cbn [PatientEntry.namaPasien]. intros E. rewrite E in Hn. discriminate Hn.
Qed.

Lemma names_filled_step (m : PasienListModal) (a : ModalAction) :
  names_filled (list_ m) -> names_filled (list_ (modal_step m a)).
Proof.
  intros H. destruct a; cbn [modal_step]; try exact H.
  - destruct (nth_error (list_ m) row); exact H.
  - destruct (JsString.falsy (JsString.trim (editNama m))) eqn:E; [exact H|].
    cbn [list_]. apply names_filled_edit; assumption.
  - destruct (nth_error (list_ m) row) as [entry|]; [|exact H].
    cbn [list_]. unfold names_filled in *.
    apply Forall_forall. intros e He. apply filter_In in He as [He _].
    exact (proj1 (Forall_forall _ _) H e He).
  - destruct (JsString.falsy (JsString.trim (newNama m))) eqn:E; [exact H|].
    cbn [list_]. unfold names_filled in *. apply Forall_app. split; [exact H|].
    constructor; [|constructor].
    cbn [PatientEntry.namaPasien]. intros E'. rewrite E' in E. discriminate E.
Qed.

(** X14.  The entry dialog never produces an entry without a name: when
    every entry of the requirement has a name, so has every entry of the
    list that the dialog hands to [onSave], whatever was edited, added or
    deleted before. *)
Theorem dialog_keeps_names_filled (patient : Patient.t) (acts : list ModalAction) :
  names_filled (Patient.pasienList patient) ->
  names_filled
    (PasienListModal_handleSave (fold_left modal_step acts (PasienListModal_open patient))).
Proof.
  intros H.
  assert (Hm : names_filled (list_ (fold_left modal_step acts (PasienListModal_open patient)))).
  { assert (H0 : names_filled (list_ (PasienListModal_open patient))).
    { cbn [PasienListModal_open list_]. rewrite map_id. exact H. }
    revert H0. generalize (PasienListModal_open patient).
    induction acts as [|a acts IH]; intros m Hm; cbn [fold_left]; [exact Hm|].
    apply IH, names_filled_step, Hm. }
  unfold PasienListModal_handleSave.
  destruct (opt_truthy _); cbn [andb]; [|exact Hm].
  destruct (JsString.falsy (JsString.trim _)) eqn:E; cbn [negb]; [exact Hm|].
  apply names_filled_edit; assumption.
Qed.

Lemma dialog_keeps_names_filled_witness :
  let patient :=
    {| Patient.id := js "p-1"; Patient.requirement := js "Scaling";
       Patient.status := Tindakan;
       Patient.pasienList :=
         [ {| PatientEntry.id := js "pe-1"; PatientEntry.namaPasien := js "Budi";
              PatientEntry.nomorTelp := js "0812" |} ];
       Patient.hasPasien := true; Patient.namaPasien := js "Budi";
       Patient.nomorTelp := js "0812"; Patient.photos := [] |} in
  let acts := [ openAdd; typeNewNama (js "   "); addEntry 7;
                startEdit 0; typeEditNama (js " Siti ") ] in
  names_filled (Patient.pasienList patient)
  /\ names_filled
       (PasienListModal_handleSave
          (fold_left modal_step acts (PasienListModal_open patient))).
Proof.
  intros patient acts.
  assert (H : names_filled (Patient.pasienList patient)).
  { constructor; [discriminate|constructor]. }
  split; [exact H|].
  exact (dialog_keeps_names_filled patient acts H).
Defined.

(** X15.  Pressing the save button of the dialog while a row is being
    edited gives the list that confirming the row first and saving then
    would give, for a row whose entry id is not the empty string. *)
Theorem dialog_save_commits_open_edit (m : PasienListModal) :
  editingId m <> Some [] ->
  PasienListModal_handleSave m = PasienListModal_handleSave (modal_step m saveEdit).
Proof.
  intros Hid. unfold PasienListModal_handleSave. cbn [modal_step].
  destruct (JsString.falsy (JsString.trim (editNama m))) eqn:E.
  - rewrite E. cbn [negb]. rewrite andb_false_r. reflexivity.
  - cbn [negb editingId opt_truthy andb list_]. rewrite andb_true_r.
    destruct (editingId m) as [i|] eqn:Ei.
    + destruct i as [|c i]; [contradiction|]. reflexivity.
    + cbn [opt_truthy]. symmetry. unfold edit_entry. rewrite Ei. apply map_id.
Qed.

Lemma dialog_save_commits_open_edit_witness :
  let m :=
    {| list_ := [ {| PatientEntry.id := js "pe-1"; PatientEntry.namaPasien := js "Budi";
                     PatientEntry.nomorTelp := js "0812" |} ];
       editingId := Some (js "pe-1"); editNama := js " Siti "; editTelp := js "0813";
       addMode := false; newNama := []; newTelp := [] |} in
  PasienListModal_handleSave m
  = [ {| PatientEntry.id := js "pe-1"; PatientEntry.namaPasien := js "Siti";
         PatientEntry.nomorTelp := js "0813" |} ]
  /\ PasienListModal_handleSave (modal_step m saveEdit) = PasienListModal_handleSave m.
Proof.
  intros m. split; [reflexivity|].
  symmetry. apply (dialog_save_commits_open_edit m). discriminate.
Defined.

(** ** A rejected call after one action *)

Lemma NoDup_map_inj {A B : Type} (f : A -> B) (l : list A) (a b : A) :
  NoDup (map f l) -> In a l -> In b l -> f a = f b -> a = b.
Proof.
  induction l as [|x l IH]; cbn [map In]; [contradiction|].
  intros Hnd Ha Hb Hf. apply NoDup_cons_iff in Hnd as [Hx Hnd].
  destruct Ha as [<-|Ha], Hb as [<-|Hb].
  - reflexivity.
  - exfalso. apply Hx. rewrite Hf. apply in_map, Hb.
  - exfalso. apply Hx. rewrite <- Hf. apply in_map, Ha.
  - exact (IH Hnd Ha Hb Hf).
Qed.

(** Replacing a department by an update with its id and then by itself
    again gives the list back when ids are not repeated. *)
Lemma replace_and_put_back (l : list Department.t) (d u : Department.t) :
  NoDup (map Department.id l) -> In d l -> Department.id u = Department.id d ->
  map (fun e => if JsString.eqb (Department.id e) (Department.id d) then d else e)
    (map (fun e => if JsString.eqb (Department.id e) (Department.id u) then u else e) l)
  = l.
Proof.
  intros Hnd Hd Hid. rewrite map_map. rewrite <- (map_id l) at 2.
  apply map_ext_in. intros e He. rewrite Hid.
  destruct (JsString.eqb (Department.id e) (Department.id d)) eqn:E.
  - rewrite Hid, JsStringFacts.eqb_refl. apply JsStringFacts.eqb_eq in E.
    symmetry. exact (NoDup_map_inj Department.id l e d Hnd He Hd E).
  - rewrite E. reflexivity.
Qed.

Lemma update_patients_in_id (department updated : Department.t)
    (subDeptId : option jsstring) (f : list Patient.t -> list Patient.t) :
  update_patients_in department subDeptId f = Some updated ->
  Department.id updated = Department.id department.
Proof.
  unfold update_patients_in.
  destruct (opt_truthy subDeptId && Department.hasSubDepartments department).
  - destruct (Department.subDepartments department); [|discriminate].
    intros H. injection H as <-. reflexivity.
  - intros H. injection H as <-. reflexivity.
Qed.

Lemma handleDragEnd_nonempty (patients reordered : list Patient.t)
    (active : jsstring) (over : option jsstring) :
  handleDragEnd patients active over = Some reordered -> reordered <> [].
Proof.
  unfold handleDragEnd. destruct over as [overId|]; [|discriminate].
  destruct (JsString.eqb active overId); [discriminate|].
  destruct (findIndex _ patients) as [oldIndex|] eqn:Eo; [|discriminate].
  destruct (findIndex (fun p => JsString.eqb (Patient.id p) overId) patients)
    as [newIndex|] eqn:En; [|discriminate].
  intros H. injection H as <-.
  destruct (findIndex_Some _ _ _ Eo) as (p & Hp & _).
  destruct (findIndex_Some _ _ _ En) as (q & Hq & _).
  assert (Hn : (newIndex < List.length patients)%nat)
    by (apply nth_error_Some; rewrite Hq; discriminate).
  destruct (arrayMove_spec patients oldIndex newIndex p Hp Hn) as (_ & _ & H3 & _).
  intros E. rewrite E in H3. cbn in H3. lia.
Qed.

(** The state after the write of a card handler is rejected while the
    department upsert of [handleUpdateDepartment] is still in flight. *)
Lemma card_write_rejected (w : World) (department updated : Department.t)
    (k : Closure) (c : RemoteCall) (cs : list RemoteCall) :
  inflight w = [] ->
  NoDup (map Department.id (departments w)) ->
  In department (departments w) ->
  Department.id updated = Department.id department ->
  (In k [ AwaitSavePatientForm department FormAdd; AwaitSavePatientForm department FormEdit;
          AwaitSavePasienList department; AwaitStatusChange department;
          AwaitDeletePatient department; AwaitReorderPatients department ]
   \/ exists newSub, k = AwaitAddSubDept department newSub) ->
  local_state
    (settle
       (List.length (inflight (await k (c :: cs) (handleUpdateDepartment updated w))) - 1)
       (Some 0%nat) (await k (c :: cs) (handleUpdateDepartment updated w)))
  = local_state w.
Proof.
  intros Hin Hnd Hd Hid Hk.
  set (w1 := await k (c :: cs) (handleUpdateDepartment updated w)).
  assert (E : local_state (settle (List.length (inflight w1) - 1) (Some 0%nat) w1)
              = (map (fun e => if JsString.eqb (Department.id e) (Department.id department)
                               then department else e)
                   (map (fun e => if JsString.eqb (Department.id e) (Department.id updated)
                                  then updated else e) (departments w)),
                 appointments w, weeklySlots w)).
  { subst w1. destruct w as [ds aps ws sv ts fl]. cbn in Hin. subst fl.
    unfold settle.
    cbn [await handleUpdateDepartment setDepartments inflight app List.length Nat.sub
         nth_error calls closure promise_all Nat.ltb Nat.leb departments appointments
         weeklySlots saving toasts].
    destruct Hk as [Hk|[newSub ->]].
    - cbn [In] in Hk.
      repeat (destruct Hk as [<-|Hk]; [reflexivity|]). contradiction.
    - reflexivity. }
  rewrite E. unfold local_state. f_equal. f_equal.
  apply replace_and_put_back; assumption.
Qed.

Lemma settle_idle (w : World) (i : nat) (rejected : option nat) :
  inflight w = [] -> settle i rejected w = w.
Proof.
  intros H. unfold settle. rewrite H. destruct i; reflexivity.
Qed.

Ltac settle_nothing Hin := cbn [step]; rewrite settle_idle by exact Hin; reflexivity.

Ltac settle_snapshot w Hin :=
  destruct w as [ds aps ws sv ts fl]; cbn in Hin; subst fl; reflexivity.

(** X16.  One action on a page with no call in flight, followed by the
    rejection of the call that its handler awaits: the departments, the
    appointments and the weekly plan are again what they were before the
    action, provided that no two departments share an id.  This holds for
    every control of the page, the add-sub-department dialog included. *)
Theorem rejected_action_restores_state (w : World) (e : Event) :
  inflight w = [] ->
  NoDup (map Department.id (departments w)) ->
  local_state
    (step (step w e) (Settle (List.length (inflight (step w e)) - 1) (Some 0%nat)))
  = local_state w.
Proof.
  intros Hin Hnd. destruct e as [name hasSub now|card|card a|editing formData now|row|row
                                 |row day form|row day|i rejected].
  - cbn [step]. unfold AddDepartmentModal_handleSubmit.
    destruct (JsString.falsy (JsString.trim name)); [settle_nothing Hin|].
    settle_snapshot w Hin.
  - cbn [step]. destruct (nth_error (departments w) card); [|settle_nothing Hin].
    settle_snapshot w Hin.
  - cbn [step].
    destruct (nth_error (departments w) card) as [department|] eqn:Ecard;
      [|settle_nothing Hin].
    pose proof (nth_error_In _ _ Ecard) as Hd.
    destruct a as [tbl requirement status now|tbl row requirement status|tbl row status
                   |tbl row acts|tbl row|tbl active over|name now]; cbn [card_event].
    + destruct (rendered_table department tbl) as [[subDeptId patients]|];
        [|settle_nothing Hin].
      unfold handleSavePatientForm.
      destruct (update_patients_in department (or_null subDeptId) _);
        [|settle_nothing Hin].
      settle_snapshot w Hin.
    + destruct (rendered_table department tbl) as [[subDeptId patients]|];
        [|settle_nothing Hin].
      destruct (nth_error patients row) as [patient|]; [|settle_nothing Hin].
      unfold handleSavePatientForm.
      destruct (update_patients_in department (or_null subDeptId) _) as [updated|] eqn:Eu;
        [|settle_nothing Hin].
      unfold savePatientForm_commit.
      apply (card_write_rejected w department); try assumption.
      * exact (update_patients_in_id _ _ _ _ Eu).
      * left. cbn [In]. tauto.
    + destruct (rendered_table department tbl) as [[subDeptId patients]|];
        [|settle_nothing Hin].
      destruct (nth_error patients row) as [patient|]; [|settle_nothing Hin].
      unfold handleStatusChange.
      destruct (update_patients_in department subDeptId _) as [updated|] eqn:Eu;
        [|settle_nothing Hin].
      destruct (find _ (allPatients department)).
      * apply (card_write_rejected w department); try assumption.
        -- exact (update_patients_in_id _ _ _ _ Eu).
        -- left. cbn [In]. tauto.
      * settle_snapshot w Hin.
    + destruct (rendered_table department tbl) as [[subDeptId patients]|];
        [|settle_nothing Hin].
      destruct (nth_error patients row) as [patient|]; [|settle_nothing Hin].
      unfold handleSavePasienList.
      destruct (update_patients_in department (or_null subDeptId) _) as [updated|] eqn:Eu;
        [|settle_nothing Hin].
      apply (card_write_rejected w department); try assumption.
      * exact (update_patients_in_id _ _ _ _ Eu).
      * left. cbn [In]. tauto.
    + destruct (rendered_table department tbl) as [[subDeptId patients]|];
        [|settle_nothing Hin].
      destruct (nth_error patients row) as [patient|]; [|settle_nothing Hin].
      unfold confirmDeletePatient.
      destruct (opt_truthy (Some (Patient.id patient))); [|settle_nothing Hin].
      destruct (update_patients_in department (or_null subDeptId) _) as [updated|] eqn:Eu;
        [|settle_nothing Hin].
      apply (card_write_rejected w department); try assumption.
      * exact (update_patients_in_id _ _ _ _ Eu).
      * left. cbn [In]. tauto.
    + destruct (rendered_table department tbl) as [[subDeptId patients]|];
        [|settle_nothing Hin].
      destruct (handleDragEnd patients active over) as [reordered|] eqn:Edrag;
        [|settle_nothing Hin].
      unfold handleReorderPatients.
      destruct (update_patients_in department subDeptId _) as [updated|] eqn:Eu;
        [|settle_nothing Hin].
      pose proof (handleDragEnd_nonempty _ _ _ _ Edrag) as Hne.
      destruct reordered as [|p reordered]; [contradiction|].
      cbn [sort_order_writes].
      apply (card_write_rejected w department); try assumption.
      * exact (update_patients_in_id _ _ _ _ Eu).
      * left. cbn [In]. tauto.
    + destruct (Department.hasSubDepartments department); [|settle_nothing Hin].
      unfold handleAddSubDept.
      destruct (JsString.falsy (JsString.trim name)); [settle_nothing Hin|].
      apply (card_write_rejected w department); try assumption.
      * reflexivity.
      * right. eexists. reflexivity.
  - cbn [step]. destruct editing as [row|].
    + destruct (nth_error (appointments w) row); [|settle_nothing Hin].
      settle_snapshot w Hin.
    + settle_snapshot w Hin.
  - cbn [step]. destruct (nth_error (appointments w) row) as [appt|];
      [|settle_nothing Hin].
    unfold Appointments_confirmDelete.
    destruct (opt_truthy (Some (Appointment.id appt))); [|settle_nothing Hin].
    settle_snapshot w Hin.
  - cbn [step]. destruct (nth_error (appointments w) row) as [appt|] eqn:Eappt;
      [|settle_nothing Hin].
    unfold toggleChecklist.
    destruct (find _ _) eqn:Efind; [settle_snapshot w Hin|].
    exfalso.
    pose proof (nth_error_In _ _ Eappt) as Ha.
    apply (in_map (fun a => if JsString.eqb (Appointment.id a) (Appointment.id appt)
                            then Appointment_toggle a else a)) in Ha.
    pose proof (find_none _ _ Efind _ Ha) as Hf. cbn beta in Hf.
    rewrite JsStringFacts.eqb_refl in Hf. cbn [Appointment_toggle Appointment.id] in Hf.
    rewrite JsStringFacts.eqb_refl in Hf. discriminate Hf.
  - cbn [step]. destruct (nth_error (weeklySlots w) row) as [slot|];
      [|settle_nothing Hin].
    destruct (slot_rendered slot); [|settle_nothing Hin].
    assert (Hsave : local_state
                      (settle
                         (List.length
                            (inflight (WeeklyPlanning_handleSave (Some (WeeklySlot.id slot))
                                         day form w)) - 1)
                         (Some 0%nat)
                         (WeeklyPlanning_handleSave (Some (WeeklySlot.id slot)) day form w))
                    = local_state w).
    { unfold WeeklyPlanning_handleSave.
      destruct (negb (opt_truthy (Some (WeeklySlot.id slot))) || saving w);
        [rewrite settle_idle by exact Hin; reflexivity|].
      destruct (valueToSave form w) as [value|]; [|settle_snapshot w Hin].
      unfold updateSlot. cbn [weeklySlots setSaving].
      destruct (find _ _); settle_snapshot w Hin. }
    destruct (parseSlotValue (WeeklySlot_get slot day));
      [exact Hsave|settle_nothing Hin|exact Hsave].
  - cbn [step]. destruct (nth_error (weeklySlots w) row) as [slot|];
      [|settle_nothing Hin].
    destruct (slot_rendered slot); [|settle_nothing Hin].
    destruct (parseSlotValue (WeeklySlot_get slot day));
      [settle_nothing Hin|settle_nothing Hin|].
    unfold WeeklyPlanning_handleClear.
    destruct (negb (opt_truthy (Some (WeeklySlot.id slot))) || saving w);
      [settle_nothing Hin|].
    unfold updateSlot. cbn [weeklySlots setSaving].
    destruct (find _ _); settle_snapshot w Hin.
  - cbn [step]. rewrite (settle_idle w i rejected Hin).
    rewrite settle_idle by exact Hin. reflexivity.
Qed.

Lemma rejected_action_restores_state_witness :
  let department :=
    {| Department.id := js "dept-1"; Department.name := js "Konservasi";
       Department.patients := []; Department.hasSubDepartments := true;
       Department.subDepartments := Some [] |} in
  let w := setDepartments [department] initial_world in
  let e := Card 0 (AddSubDepartment (js "Ortho") 42) in
  NoDup (map Department.id (departments w))
  /\ departments (step w e) <> departments w
  /\ local_state
       (step (step w e) (Settle (List.length (inflight (step w e)) - 1) (Some 0%nat)))
     = local_state w.
Proof.
  intros department w e.
  assert (Hnd : NoDup (map Department.id (departments w))).
  { constructor; [intros []|constructor]. }
  split; [exact Hnd|]. split; [discriminate|].
  exact (rejected_action_restores_state w e eq_refl Hnd).
Defined.

(** ** The [saving] flag of the planner *)

Lemma tracks_await (k : Closure) (cs : list RemoteCall) (w : World) :
  slot_closure k = false ->
  saving_tracks_updateSlot w -> saving_tracks_updateSlot (await k cs w).
Proof.
  unfold saving_tracks_updateSlot, updateSlot_calls. intros Hk H.
  cbn [await inflight saving]. rewrite filter_app, length_app, H.
  cbn [filter]. unfold is_updateSlot_call. cbn [closure]. rewrite Hk. cbn [List.length]. lia.
Qed.

Lemma tracks_setDepartments (l : list Department.t) (w : World) :
  saving_tracks_updateSlot w -> saving_tracks_updateSlot (setDepartments l w).
Proof. exact (fun H => H). Qed.

Lemma tracks_setAppointments (l : list Appointment.t) (w : World) :
  saving_tracks_updateSlot w -> saving_tracks_updateSlot (setAppointments l w).
Proof. exact (fun H => H). Qed.

Lemma tracks_setWeeklySlots (l : list WeeklySlot.t) (w : World) :
  saving_tracks_updateSlot w -> saving_tracks_updateSlot (setWeeklySlots l w).
Proof. exact (fun H => H). Qed.

Lemma tracks_toast (t : Toast) (w : World) :
  saving_tracks_updateSlot w -> saving_tracks_updateSlot (toast t w).
Proof. exact (fun H => H). Qed.

Lemma tracks_handleUpdateDepartment (updated : Department.t) (w : World) :
  saving_tracks_updateSlot w -> saving_tracks_updateSlot (handleUpdateDepartment updated w).
Proof.
  intros H. unfold handleUpdateDepartment.
  apply tracks_setDepartments, tracks_await; [reflexivity|exact H].
Qed.

Create HintDb tracks.
#[local] Hint Resolve tracks_await tracks_setDepartments tracks_setAppointments
  tracks_setWeeklySlots tracks_toast tracks_handleUpdateDepartment : tracks.
#[local] Hint Extern 1 (slot_closure _ = false) => reflexivity : tracks.

Lemma tracks_card_event (department : Department.t) (a : CardAction) (w : World) :
  saving_tracks_updateSlot w -> saving_tracks_updateSlot (card_event department a w).
Proof.
  intros H.
  destruct a; cbn [card_event];
    repeat match goal with
           | |- context [match rendered_table ?d ?t with _ => _ end] =>
               destruct (rendered_table d t) as [[? ?]|]
           | |- context [match nth_error ?l ?i with _ => _ end] => destruct (nth_error l i)
           | |- context [match handleDragEnd ?p ?x ?o with _ => _ end] =>
               destruct (handleDragEnd p x o)
           | |- context [if Department.hasSubDepartments ?d then _ else _] =>
               destruct (Department.hasSubDepartments d)
           end;
    try exact H;
    unfold handleSavePatientForm, savePatientForm_commit, handleStatusChange,
      handleSavePasienList, confirmDeletePatient, handleReorderPatients, handleAddSubDept;
    repeat match goal with
           | |- context [match update_patients_in ?d ?s ?f with _ => _ end] =>
               destruct (update_patients_in d s f)
           | |- context [match find ?f ?l with _ => _ end] => destruct (find f l)
           | |- context [if opt_truthy ?x then _ else _] => destruct (opt_truthy x)
           | |- context [if JsString.falsy ?x then _ else _] => destruct (JsString.falsy x)
           end;
    auto 6 with tracks.
Qed.

Lemma tracks_updateSlot (slotId : jsstring) (day : DayKey) (value : jsstring)
    (caller : SlotCaller) (w : World) :
  saving_tracks_updateSlot w -> saving w = false ->
  saving_tracks_updateSlot
    (match updateSlot slotId day value caller (setSaving true w) with
     | (w1, Some _) => w1
     | (w1, None) => setSaving false w1
     end).
Proof.
  unfold saving_tracks_updateSlot, updateSlot_calls, updateSlot. intros H Hs.
  rewrite Hs in H. cbn [weeklySlots setSaving].
  destruct (find _ _).
  - cbn [await inflight saving setWeeklySlots setSaving].
    rewrite filter_app, length_app, H. reflexivity.
  - cbn [toast inflight saving setWeeklySlots setSaving]. exact H.
Qed.

Lemma filter_remove_nth {A : Type} (f : A -> bool) (i : nat) (l : list A) (p : A) :
  nth_error l i = Some p ->
  List.length (filter f l)
  = ((if f p then 1 else 0) + List.length (filter f (remove_nth i l)))%nat.
Proof.
  intros H. apply nth_error_split in H as (l1 & l2 & -> & <-).
  rewrite remove_nth_middle, !filter_app, !length_app. cbn [filter].
  destruct (f p); cbn [List.length]; lia.
Qed.

Lemma tracks_resume (k : Closure) (ok : bool) (w : World) :
  slot_closure k = false ->
  saving_tracks_updateSlot w -> saving_tracks_updateSlot (resume k ok w).
Proof.
  intros Hk H. destruct k; try discriminate Hk; destruct ok; cbn [resume];
    unfold savePatientForm_commit; auto 6 with tracks.
Qed.

Lemma tracks_settle (i : nat) (rejected : option nat) (w : World) :
  saving_tracks_updateSlot w -> saving_tracks_updateSlot (settle i rejected w).
Proof.
  intros H. unfold settle.
  destruct (nth_error (inflight w) i) as [p|] eqn:Ep; [|exact H].
  destruct (promise_all _ rejected) as [ok|]; [|exact H].
  pose proof (filter_remove_nth is_updateSlot_call i (inflight w) p Ep) as Hcount.
  unfold saving_tracks_updateSlot, updateSlot_calls in H. rewrite H in Hcount.
  unfold is_updateSlot_call in Hcount at 1.
  destruct (closure p) as [| | | | | | | | | | | | |snapshot caller] eqn:Ek;
    cbn [slot_closure] in Hcount;
    try (apply tracks_resume; [reflexivity|];
         unfold saving_tracks_updateSlot, updateSlot_calls;
         cbn [setInflight inflight saving]; cbn [Nat.add] in Hcount;
         rewrite <- Hcount; reflexivity).
  assert (Hz : List.length (filter is_updateSlot_call (remove_nth i (inflight w))) = 0%nat).
  { destruct (saving w); lia. }
  unfold saving_tracks_updateSlot, updateSlot_calls.
  destruct ok; cbn [resume toast setSaving setWeeklySlots setInflight inflight saving];
    exact Hz.
Qed.

Lemma tracks_step (w : World) (e : Event) :
  saving_tracks_updateSlot w -> saving_tracks_updateSlot (step w e).
Proof.
  intros H. destruct e; cbn [step].
  - unfold AddDepartmentModal_handleSubmit, handleAddDepartment.
    destruct (JsString.falsy _); auto with tracks.
  - destruct (nth_error _ _); [|exact H].
    unfold handleDeleteDepartment. auto with tracks.
  - destruct (nth_error _ _); [|exact H]. apply tracks_card_event, H.
  - unfold Appointments_handleSubmit.
    destruct editing as [row|]; [destruct (nth_error _ _)|]; auto with tracks.
  - destruct (nth_error _ _); [|exact H]. unfold Appointments_confirmDelete.
    destruct (opt_truthy _); auto with tracks.
  - destruct (nth_error _ _); [|exact H]. unfold toggleChecklist.
    destruct (find _ _); auto with tracks.
  - destruct (nth_error _ _) as [slot|]; [|exact H].
    destruct (slot_rendered slot); [|exact H].
    assert (Hsave : saving_tracks_updateSlot
                      (WeeklyPlanning_handleSave (Some (WeeklySlot.id slot)) day form w)).
    { unfold WeeklyPlanning_handleSave.
      destruct (saving w) eqn:Es; [rewrite orb_true_r; exact H|].
      destruct (negb _); cbn [orb]; [exact H|].
      destruct (valueToSave form w).
      - apply tracks_updateSlot; assumption.
      - unfold saving_tracks_updateSlot, updateSlot_calls in *.
        cbn [setSaving inflight saving]. rewrite Es in H. exact H. }
    destruct (parseSlotValue _); [exact Hsave|exact H|exact Hsave].
  - destruct (nth_error _ _) as [slot|]; [|exact H].
    destruct (slot_rendered slot); [|exact H].
    destruct (parseSlotValue _); [exact H|exact H|].
    unfold WeeklyPlanning_handleClear.
    destruct (saving w) eqn:Es; [rewrite orb_true_r; exact H|].
    destruct (negb _); cbn [orb]; [exact H|].
    apply tracks_updateSlot; assumption.
  - apply tracks_settle, H.
Qed.

(** X17.  On every run of the page the [saving] flag of the planner is
    set exactly while one call of [updateSlot] is suspended on its
    [upsertWeeklySlot]: the dialog never has two of its writes awaited at
    once, and the flag never stays set once the write has settled.  (The
    upserts that [loadAll] sends at mount without awaiting them are not
    counted.) *)
Theorem one_updateSlot_at_a_time (w : World) (es : list Event) :
  saving_tracks_updateSlot w ->
  saving_tracks_updateSlot (run es w)
  /\ (updateSlot_calls (run es w) <= 1)%nat
  /\ (saving (run es w) = true <-> updateSlot_calls (run es w) = 1%nat).
Proof.
  intros H.
  assert (Hrun : saving_tracks_updateSlot (run es w)).
  { unfold run. revert w H. induction es as [|e es IH]; intros w H; cbn [fold_left].
    - exact H.
    - apply IH, tracks_step, H. }
  split; [exact Hrun|]. unfold saving_tracks_updateSlot in Hrun.
  destruct (saving (run es w)); rewrite Hrun;
    (split; [lia|]); split; intros E; try reflexivity; discriminate E.
Qed.

Lemma one_updateSlot_at_a_time_witness :
  let form :=
    {| inputMode := manual; selectedDeptId := []; selectedPatientId := [];
       manualName := js "Budi"; manualTelp := js "0812"; manualDept := js "__none__" |} in
  let es := [ SaveSlot 0 senin form; SaveSlot 1 selasa form ] in
  saving_tracks_updateSlot initial_world
  /\ saving (run es initial_world) = true
  /\ updateSlot_calls (run es initial_world) = 1%nat.
Proof.
  intros form es.
  assert (H : saving_tracks_updateSlot initial_world) by reflexivity.
  split; [exact H|]. split; [reflexivity|].
  destruct (one_updateSlot_at_a_time initial_world es H) as (_ & _ & Hiff).
  apply Hiff. reflexivity.
Defined.

(** ** The pages of the appointment table *)

Lemma firstn_add_skipn {A : Type} (a b : nat) (l : list A) :
  firstn (a + b) l = firstn a l ++ firstn b (skipn a l).
Proof.
  revert l. induction a as [|a IH]; intros l; [reflexivity|].
  destruct l as [|x l]; cbn [Nat.add firstn skipn app].
  - rewrite firstn_nil. reflexivity.
  - rewrite IH. reflexivity.
Qed.

Lemma pages_concat {A : Type} (l : list A) (size k : nat) :
  List.concat (map (fun j => slice l ((j - 1) * size) (j * size)) (seq 1 k))
  = firstn (k * size) l.
Proof.
  induction k as [|k IH]; [reflexivity|].
  rewrite seq_S, map_app, concat_app, IH. cbn [map List.concat Nat.add].
  rewrite app_nil_r. unfold slice.
  replace (S k - 1)%nat with k by lia.
  replace (S k * size - k * size)%nat with size by lia.
  replace (S k * size)%nat with (k * size + size)%nat by lia.
  symmetry. apply firstn_add_skipn.
Qed.

Lemma ceil_div_covers (a b : nat) : (0 < b)%nat -> (a <= ceil_div a b * b)%nat.
Proof.
  intros Hb. unfold ceil_div.
  pose proof (Nat.div_mod_eq (a + b - 1) b) as E.
  pose proof (Nat.mod_upper_bound (a + b - 1) b ltac:(lia)) as Hm.
  nia.
Qed.

Lemma ceil_div_tight (a b : nat) : (0 < b)%nat -> (0 < a)%nat -> ((ceil_div a b - 1) * b < a)%nat.
Proof.
  intros Hb Ha. unfold ceil_div.
  pose proof (Nat.div_mod_eq (a + b - 1) b) as E.
  pose proof (Nat.mod_upper_bound (a + b - 1) b ltac:(lia)) as Hm.
  nia.
Qed.

Lemma effectivePageSize_pos (pageSize : PageSize) (n : nat) :
  (0 < effectivePageSize pageSize n)%nat.
Proof.
  destruct pageSize; cbn [effectivePageSize]; [lia|].
  destruct (Nat.eqb_spec n 0); lia.
Qed.

(** X18.  The pages of the appointment table, from the first to
    [totalPages], laid end to end are the filtered rows: every row is on
    exactly one page, in order, and no page holds more rows than the page
    size. *)
Theorem pages_partition_rows {A : Type} (pageSize : PageSize) (filtered : list A) :
  List.concat (map (paged pageSize filtered)
            (seq 1 (totalPages pageSize (List.length filtered))))
  = filtered
  /\ forall currentPage,
       (List.length (paged pageSize filtered currentPage)
        <= effectivePageSize pageSize (List.length filtered))%nat.
Proof.
  split.
  - destruct pageSize.
    + assert (E : forall j, In j (seq 1 (totalPages Ten (List.length filtered))) ->
                    paged Ten filtered j
                    = slice filtered ((j - 1) * 10) (j * 10)).
      { intros j Hj. apply in_seq in Hj. unfold paged, page.
        rewrite Nat.min_l by lia. reflexivity. }
      rewrite (map_ext_in _ _ _ E), pages_concat.
      apply firstn_all2. unfold totalPages. cbn [effectivePageSize].
      pose proof (ceil_div_covers (List.length filtered) 10 ltac:(lia)). lia.
    + unfold totalPages, ceil_div. cbn [effectivePageSize paged].
      destruct (Nat.eqb_spec (List.length filtered) 0) as [E|E].
      * rewrite E. cbn. apply app_nil_r.
      * replace ((List.length filtered + List.length filtered - 1) / List.length filtered)%nat
          with 1%nat.
        -- cbn. apply app_nil_r.
        -- apply (Nat.div_unique _ _ _ (List.length filtered - 1)); lia.
  - intros currentPage. destruct pageSize; cbn [paged effectivePageSize].
    + unfold slice. rewrite length_firstn. lia.
    + destruct (Nat.eqb_spec (List.length filtered) 0); lia.
Qed.

(** X19.  The page shown is never past the last one: for a current page
    of at least one it lies between one and [totalPages], and when there
    are rows the page shown holds some, also after rows were deleted or
    filtered away under a current page that no longer exists. *)
Theorem stale_page_is_clamped {A : Type} (pageSize : PageSize) (filtered : list A)
    (currentPage : nat) :
  (1 <= currentPage)%nat ->
  (1 <= page pageSize (List.length filtered) currentPage
   <= totalPages pageSize (List.length filtered))%nat
  /\ (filtered <> [] -> paged pageSize filtered currentPage <> []).
Proof.
  intros Hc. split.
  - unfold page, totalPages. lia.
  - intros Hne. destruct pageSize; cbn [paged]; [|exact Hne].
    assert (Hn : (0 < List.length filtered)%nat)
      by (destruct filtered; [contradiction|cbn; lia]).
    cbn [effectivePageSize]. unfold page, totalPages. cbn [effectivePageSize].
    pose proof (ceil_div_tight (List.length filtered) 10 ltac:(lia) Hn) as Ht.
    set (p := Nat.min currentPage (Nat.max 1 (ceil_div (List.length filtered) 10))).
    assert (Hp : (1 <= p)%nat /\ ((p - 1) * 10 < List.length filtered)%nat).
    { subst p. split; [lia|]. 
      destruct (Nat.max_spec 1 (ceil_div (List.length filtered) 10)) as [[_ ->]|[_ ->]];
        [|lia].
      assert ((Nat.min currentPage (ceil_div (List.length filtered) 10) - 1) * 10
              <= (ceil_div (List.length filtered) 10 - 1) * 10)%nat
        by (apply Nat.mul_le_mono_r; lia).
      lia. }
    destruct Hp as [Hp1 Hp2]. unfold slice. intros E.
    apply (f_equal (@List.length A)) in E.
    rewrite length_firstn, length_skipn in E. cbn [List.length] in E. lia.
Qed.

Lemma stale_page_is_clamped_witness :
  let rows := seq 0 23 in
  page Ten (List.length rows) 7 = 3%nat
  /\ paged Ten rows 7 = [20; 21; 22]%nat
  /\ paged Ten rows 7 <> [].
Proof.
  intros rows. split; [reflexivity|]. split; [reflexivity|].
  apply (stale_page_is_clamped Ten rows 7 ltac:(lia)). discriminate.
Defined.

Ltac decide_positive :=
  repeat match goal with
         | |- context [(0 <? ?x)%Z] => destruct (Z.ltb_spec 0 x); try lia
         end.

(** X20.  The pager always offers the page shown, starts with page one
    and ends with the last page; its page buttons are numbers between one
    and [totalPages] in growing order, so no page has two buttons, and
    there are at most seven buttons and ellipses. *)
Theorem pageNums_buttons (totalPages page : Z) :
  (1 <= page <= totalPages)%Z ->
  In page (pageNums totalPages page)
  /\ hd 0%Z (pageNums totalPages page) = 1%Z
  /\ last (pageNums totalPages page) 0%Z = totalPages
  /\ increasing (filter (fun n => (0 <? n)%Z) (pageNums totalPages page))
  /\ Forall (fun n => (0 < n)%Z -> (1 <= n <= totalPages)%Z) (pageNums totalPages page)
  /\ (List.length (pageNums totalPages page) <= 7)%nat.
Proof.
  intros Hp. unfold pageNums.
  destruct (Z.leb_spec totalPages 7) as [H7|H7].
  - assert (Hcases : (totalPages = 1 \/ totalPages = 2 \/ totalPages = 3 \/ totalPages = 4
                      \/ totalPages = 5 \/ totalPages = 6 \/ totalPages = 7)%Z) by lia.
    destruct Hcases as [E|[E|[E|[E|[E|[E|E]]]]]]; subst totalPages;
      match goal with
      | |- context [map ?f (seq 0 (Z.to_nat ?t))] =>
          let l := eval compute in (map f (seq 0 (Z.to_nat t))) in
          change (map f (seq 0 (Z.to_nat t))) with l
      end;
      cbn [In hd last filter List.length Z.ltb Z.compare increasing];
      (split; [lia|]); (split; [reflexivity|]); (split; [reflexivity|]);
      (split; [repeat split; lia|]); (split; [repeat constructor; lia|]); lia.
  - destruct (Z.leb_spec page 4) as [H4|H4].
    + cbn [In hd last filter List.length].
      decide_positive. cbn [increasing].
      repeat split; try lia. repeat constructor; lia.
    + destruct (Z.leb_spec (totalPages - 3) page) as [H3|H3].
      * cbn [In hd last filter List.length].
        decide_positive. cbn [increasing].
        repeat split; try lia. repeat constructor; lia.
      * cbn [In hd last filter List.length].
        decide_positive. cbn [increasing].
        repeat split; try lia. repeat constructor; lia.
Qed.

Lemma pageNums_buttons_witness :
  pageNums 12 6 = [1; -1; 5; 6; 7; -2; 12]%Z
  /\ In 6%Z (pageNums 12 6)
  /\ increasing (filter (fun n => (0 <? n)%Z) (pageNums 12 6)).
Proof.
  split; [reflexivity|].
  destruct (pageNums_buttons 12 6 ltac:(lia)) as (H1 & _ & _ & H4 & _).
  split; [exact H1|exact H4].
Defined.

(** ** The photo viewer *)

(** X21.  In the viewer of a requirement with more than one photo the
    previous and the next button keep the index inside the photos, and each
    undoes the other: from the first photo back to the last and on to the
    first again. *)
Theorem viewer_buttons_cycle (photos viewingIndex : nat) :
  (1 < photos)%nat -> (viewingIndex < photos)%nat ->
  exists before after,
    viewer_prev photos viewingIndex = Some before
    /\ viewer_next photos viewingIndex = Some after
    /\ (before < photos)%nat /\ (after < photos)%nat
    /\ before <> viewingIndex /\ after <> viewingIndex
    /\ viewer_next photos before = Some viewingIndex
    /\ viewer_prev photos after = Some viewingIndex.
Proof.
  intros Hn Hi. unfold viewer_prev, viewer_next.
  destruct (Nat.ltb_spec 1 photos) as [_|]; [|lia].
  eexists. eexists. split; [reflexivity|]. split; [reflexivity|].
  destruct (Nat.eqb_spec viewingIndex 0) as [E0|E0];
    destruct (Nat.eqb_spec viewingIndex (photos - 1)) as [E1|E1];
    repeat split; try lia;
    repeat match goal with
           | |- context [(?a =? ?b)%nat] => destruct (Nat.eqb_spec a b); try lia
           end;
    f_equal; lia.
Qed.

Lemma viewer_buttons_cycle_witness :
  viewer_prev 3 0 = Some 2%nat /\ viewer_next 3 2 = Some 0%nat.
Proof.
  destruct (viewer_buttons_cycle 3 0 ltac:(lia) ltac:(lia))
    as (before & after & Hb & _ & _ & _ & _ & _ & Hn & _).
  assert (E : before = 2%nat) by (cbn in Hb; injection Hb as <-; reflexivity).
  subst before. split; [exact Hb|exact Hn].
Defined.

(** ** What the planner writes into a cell *)

Lemma parseSlotValue_serializeSlotData (x : WeeklySlotData.data) :
  parseSlotValue (serializeSlotData x) = SlotData (WeeklySlotData.to_object x).
Proof.
  unfold parseSlotValue.
  rewrite CodecFacts.serialized_not_blank.
  replace (JsString.eqb (serializeSlotData x) (js "ISTIRAHAT")) with false
    by (rewrite CodecFacts.serializeSlotData_layout; reflexivity).
  rewrite CodecFacts.parse_serializeSlotData.
  reflexivity.
Qed.

Lemma valueToSave_serialized (form : SlotForm) (w : World) (value : jsstring) :
  valueToSave form w = Some value ->
  exists x, value = serializeSlotData x
            /\ (inputMode form = manual ->
                WeeklySlotData.n x = JsString.trim (manualName form)
                /\ WeeklySlotData.n x <> []
                /\ WeeklySlotData.pid x = []).
Proof.
  unfold valueToSave. destruct (inputMode form).
  - destruct (find _ _) as [selectedPatient|]; [|discriminate].
    intros H. injection H as <-. eexists. split; [reflexivity|discriminate].
  - destruct (JsString.falsy (JsString.trim (manualName form))) eqn:E; [discriminate|].
    intros H. injection H as <-. eexists. split; [reflexivity|].
    intros _. cbn [WeeklySlotData.n WeeklySlotData.pid].
    split; [reflexivity|]. split; [|reflexivity].
    intros E'. rewrite E' in E. discriminate E.
Qed.

(** X22.  When the dialog of the planner is saved on a cell that can be
    edited, the cell holds the text of a booking that [parseSlotValue] reads
    back as a structured value, never as an empty cell or a break; the
    other days of the row are untouched and the row is sent with
    [upsertWeeklySlot].  A booking typed by hand carries the trimmed name,
    which is not empty, and no requirement id. *)
Theorem saved_cell_reads_back (w : World) (row : nat) (day : DayKey) (form : SlotForm)
    (slot : WeeklySlot.t) (value : jsstring) :
  nth_error (weeklySlots w) row = Some slot ->
  slot_rendered slot = true ->
  parseSlotValue (WeeklySlot_get slot day) <> SlotBreak ->
  WeeklySlot.id slot <> [] ->
  saving w = false ->
  valueToSave form w = Some value ->
  exists x,
    nth_error (weeklySlots (step w (SaveSlot row day form))) row
    = Some (WeeklySlot_set slot day value)
    /\ WeeklySlot_get (WeeklySlot_set slot day value) day = value
    /\ (forall other, other <> day ->
          WeeklySlot_get (WeeklySlot_set slot day value) other = WeeklySlot_get slot other)
    /\ parseSlotValue value = SlotData (WeeklySlotData.to_object x)
    /\ (inputMode form = manual ->
        WeeklySlotData.n x = JsString.trim (manualName form)
        /\ WeeklySlotData.n x <> []
        /\ WeeklySlotData.pid x = [])
    /\ exists sent snapshot,
         inflight (step w (SaveSlot row day form))
         = inflight w ++ [ {| closure := AwaitUpdateSlot snapshot FromHandleSave;
                              calls := [upsertWeeklySlot sent] |} ]
         /\ snapshot = weeklySlots w
         /\ WeeklySlot.id sent = WeeklySlot.id slot.
Proof.
  intros Hrow Hr Hb Hid Hs Hv.
  destruct (valueToSave_serialized form w value Hv) as (x & Hx & Hm).
  exists x.
  assert (Hstep : step w (SaveSlot row day form)
                  = WeeklyPlanning_handleSave (Some (WeeklySlot.id slot)) day form w).
  { cbn [step]. rewrite Hrow, Hr.
    destruct (parseSlotValue (WeeklySlot_get slot day)); [reflexivity|contradiction|reflexivity]. }
  rewrite Hstep. unfold WeeklyPlanning_handleSave.
  assert (Ht : opt_truthy (Some (WeeklySlot.id slot)) = true).
  { cbn [opt_truthy]. destruct (WeeklySlot.id slot); [contradiction|reflexivity]. }
  rewrite Ht, Hs, Hv. cbn [negb orb opt_or_empty].
  unfold updateSlot. cbn [weeklySlots setSaving].
  set (updated := map (fun s => if JsString.eqb (WeeklySlot.id s) (WeeklySlot.id slot)
                                then WeeklySlot_set s day value else s) (weeklySlots w)).
  assert (Hnth : nth_error updated row = Some (WeeklySlot_set slot day value)).
  { subst updated. rewrite nth_error_map, Hrow. cbn [option_map].
    rewrite JsStringFacts.eqb_refl. reflexivity. }
  destruct (find (fun s => JsString.eqb (WeeklySlot.id s) (WeeklySlot.id slot)) updated)
    as [target|] eqn:Ef.
  2:{ exfalso. pose proof (find_none _ _ Ef _ (nth_error_In _ _ Hnth)) as Hf.
      cbn beta in Hf. destruct day; cbn [WeeklySlot_set WeeklySlot.id] in Hf;
        rewrite JsStringFacts.eqb_refl in Hf; discriminate Hf. }
  cbn [await setWeeklySlots setSaving weeklySlots inflight].
  split; [exact Hnth|].
  split; [destruct day; reflexivity|].
  split; [intros other Ho; destruct day, other; try reflexivity; contradiction|].
  split; [rewrite Hx; apply parseSlotValue_serializeSlotData|].
  split; [exact Hm|].
  exists target, (weeklySlots w). split; [reflexivity|]. split; [reflexivity|].
  apply find_some in Ef as [_ Ef]. apply JsStringFacts.eqb_eq in Ef. exact Ef.
Qed.

Lemma saved_cell_reads_back_witness :
  let form :=
    {| inputMode := manual; selectedDeptId := []; selectedPatientId := [];
       manualName := js " Budi "; manualTelp := js "0812"; manualDept := js "__none__" |} in
  exists slot' x,
    nth_error (weeklySlots (step initial_world (SaveSlot 0 senin form))) 0 = Some slot'
    /\ parseSlotValue (WeeklySlot_get slot' senin) = SlotData (WeeklySlotData.to_object x)
    /\ WeeklySlotData.n x = js "Budi".
Proof.
  intros form.
  destruct (saved_cell_reads_back initial_world 0 senin form
              (blank_slot "w1" "08:00")
              (serializeSlotData
                 {| WeeklySlotData.n := js "Budi"; WeeklySlotData.t := js "0812";
                    WeeklySlotData.d := []; WeeklySlotData.pid := [] |})
              eq_refl eq_refl ltac:(discriminate) ltac:(discriminate) eq_refl eq_refl)
    as (x & H1 & H2 & _ & H4 & H5 & _).
  eexists. exists x. split; [exact H1|]. rewrite H2. split; [exact H4|].
  exact (proj1 (H5 eq_refl)).
Defined.

(** ** Changing the password *)

Ltac password_case :=
  cbn [password_calls password_toast password_closed is_error In];
  repeat split; intros;
  repeat match goal with
         | H : _ \/ _ |- _ => destruct H
         | H : _ /\ _ |- _ => destruct H
         | H : False |- _ => contradiction
         | H : ?x <> ?x |- _ => exfalso; apply H; reflexivity
         | H : verifyPassword _ = changePassword _ |- _ => discriminate H
         | H : changePassword _ = changePassword _ |- _ => injection H as <-
         | H : true = false |- _ => discriminate H
         | H : false = true |- _ => discriminate H
         end;
  try reflexivity; try assumption; try discriminate; try lia; auto.

(** X23.  The password form calls [changePassword] only with the new
    password, and only after the current password was entered, the new one
    has at least six code units and equals its confirmation, and
    [verifyPassword] answered yes; the dialog closes exactly when the
    success toast is shown, that is when [changePassword] was called and
    fulfilled. *)
Theorem changePassword_is_guarded (currentPw newPw confirmPw : jsstring)
    (verified : Outcome bool) (changed : Outcome unit) :
  let r := handleChangePassword currentPw newPw confirmPw verified changed in
  (forall pw, In (changePassword pw) (password_calls r) ->
     pw = newPw /\ currentPw <> [] /\ (6 <= List.length newPw)%nat
     /\ newPw = confirmPw /\ verified = Fulfilled true
     /\ password_calls r = [verifyPassword currentPw; changePassword newPw])
  /\ (password_closed r = true <-> is_error (password_toast r) = false)
  /\ (password_closed r = true <->
      In (changePassword newPw) (password_calls r) /\ changed <> Rejected).
Proof.
  unfold handleChangePassword.
  destruct currentPw as [|c currentPw]; cbn [JsString.falsy]; [password_case|].
  destruct (Nat.ltb_spec (List.length newPw) 6) as [H6|H6]; [password_case|].
  destruct (JsString.eqb newPw confirmPw) eqn:Eq; cbn [negb]; [|password_case].
  apply JsStringFacts.eqb_eq in Eq.
  destruct verified as [[|]|]; [destruct changed as [[]|]|..]; password_case.
Qed.

(** ** The department export *)

Lemma addPatients_length (patients : list Patient.t) (subName : jsstring) :
  List.length (addPatients patients subName)
  = list_sum (map (fun p => Nat.max 1 (List.length (Patient.pasienList p))) patients).
Proof.
  unfold addPatients. induction patients as [|p l IH]; [reflexivity|].
  cbn [flat_map map list_sum fold_right]. rewrite length_app, IH. f_equal.
  destruct (Patient.pasienList p) as [|e es]; [reflexivity|].
  cbn [List.length Nat.ltb Nat.leb]. rewrite length_map. cbn [List.length]. lia.
Qed.

Lemma addPatients_row (patients : list Patient.t) (subName : jsstring) (p : Patient.t) :
  In p patients ->
  exists r, In r (addPatients patients subName)
            /\ export_req r = Patient.requirement p
            /\ export_status r = Patient.status p
            /\ export_jml r = List.length (Patient.pasienList p).
Proof.
  intros Hp. unfold addPatients.
  destruct (Patient.pasienList p) as [|e es] eqn:El.
  - eexists. split.
    + apply in_flat_map. exists p. split; [exact Hp|]. rewrite El. left. reflexivity.
    + repeat split.
  - eexists. split.
    + apply in_flat_map. exists p. split; [exact Hp|]. rewrite El.
      cbn [List.length Nat.ltb Nat.leb map]. left. reflexivity.
    + repeat split.
Qed.

(** X24.  The sheet that the export writes for a department lists the
    requirements that its card shows: one row for each entry of a
    requirement and one row for a requirement without entries, so every
    requirement is on the sheet with its status and the number of its
    entries; the sheet name is the department name cut to 31 code units. *)
Theorem department_sheet_lists_card (dept : Department.t) :
  (Department.hasSubDepartments dept = true -> Department.subDepartments dept <> None) ->
  List.length (snd (department_sheet dept))
  = list_sum (map (fun p => Nat.max 1 (List.length (Patient.pasienList p)))
                (allPatients dept))
  /\ (forall p, In p (allPatients dept) ->
        exists r, In r (snd (department_sheet dept))
                  /\ export_req r = Patient.requirement p
                  /\ export_status r = Patient.status p
                  /\ export_jml r = List.length (Patient.pasienList p))
  /\ (List.length (fst (department_sheet dept)) <= 31)%nat
  /\ fst (department_sheet dept) = firstn 31 (Department.name dept).
Proof.
  intros Hsub. unfold department_sheet, allPatients, subs_or_empty. cbn [fst snd].
  split; [|split; [|split; [rewrite length_firstn; lia|reflexivity]]].
  - destruct (Department.hasSubDepartments dept).
    + destruct (Department.subDepartments dept) as [subs|]; [|exfalso; exact (Hsub eq_refl eq_refl)].
      clear Hsub. induction subs as [|s subs IH]; [reflexivity|].
      cbn [flat_map]. rewrite length_app, map_app, list_sum_app, IH, addPatients_length.
      reflexivity.
    + apply addPatients_length.
  - intros p Hp. destruct (Department.hasSubDepartments dept).
    + destruct (Department.subDepartments dept) as [subs|]; [|exfalso; exact (Hsub eq_refl eq_refl)].
      apply in_flat_map in Hp as (s & Hs & Hp).
      destruct (addPatients_row (SubDepartment.patients s) (SubDepartment.name s) p Hp)
        as (r & Hr & H1 & H2 & H3).
      exists r. split; [|repeat split; assumption].
      apply in_flat_map. exists s. split; assumption.
    + apply addPatients_row, Hp.
Qed.

Lemma department_sheet_lists_card_witness :
  let entry (k nm : jsstring) :=
    {| PatientEntry.id := k; PatientEntry.namaPasien := nm;
       PatientEntry.nomorTelp := js "0812" |} in
  let req (k : jsstring) (l : list PatientEntry.t) :=
    {| Patient.id := k; Patient.requirement := js "Scaling";
       Patient.status := Tindakan; Patient.pasienList := l;
       Patient.hasPasien := false; Patient.namaPasien := []; Patient.nomorTelp := [];
       Patient.photos := [] |} in
  let dept :=
    {| Department.id := js "dept-1"; Department.name := js "Konservasi";
       Department.patients :=
         [ req (js "p-1") [entry (js "pe-1") (js "Budi"); entry (js "pe-2") (js "Siti")];
           req (js "p-2") [] ];
       Department.hasSubDepartments := false; Department.subDepartments := None |} in
  List.length (snd (department_sheet dept)) = 3%nat.
Proof.
  intros entry req dept.
  rewrite (proj1 (department_sheet_lists_card dept ltac:(discriminate))). reflexivity.
Defined.

(** ** The session of the day *)

Module SessionFacts.
Import Json.

(** One member [key:true] of an object, and the separator after it. *)
Lemma parse_members_true (f : nat) (acc : list (jsstring * value))
      (k : jsstring) (c2 : N) (r2 : jsstring) :
  is_ws c2 = false ->
  parse_members (S (S f)) acc (quote k ++ colon :: js "true" ++ c2 :: r2) =
    if (c2 =? comma)%N then parse_members (S f) (set_field k (JBool true) acc) r2
    else if (c2 =? rbrace)%N then Some (set_field k (JBool true) acc, r2)
    else None.
Proof.
  intros Hws.
  unfold quote at 1. rewrite <- app_comm_cons, <- app_assoc.
  change ([quote_mark] ++ colon :: js "true" ++ c2 :: r2)
    with (quote_mark :: colon :: 116%N :: 114%N :: 117%N :: 101%N :: c2 :: r2).
  cbn -[parse_chars quote_units parse_value quote].
  rewrite JsonFacts.parse_chars_quote_units.
  cbn -[parse_chars quote_units quote parse_members].
  rewrite Hws. reflexivity.
Qed.

Lemma session_text_layout (today : jsstring) :
  stringify (JObject [ (js "loggedIn", JBool true); (js "date", JString today) ])
  = lbrace :: quote (js "loggedIn") ++ colon :: js "true" ++ comma ::
      quote (js "date") ++ colon :: quote today ++ rbrace :: [].
Proof.
  cbn -[quote js].
  repeat (rewrite <- ?app_assoc, <- ?app_comm_cons). reflexivity.
Qed.

(** The text [saveSession] stores is read back as the session. *)
Lemma parse_session_text (today : jsstring) :
  parse (stringify (JObject [ (js "loggedIn", JBool true); (js "date", JString today) ]))
  = Some (JObject [ (js "loggedIn", JBool true); (js "date", JString today) ]).
Proof.
  apply JsonFacts.parse_Some_iff. exists 5%nat, [].
  split; [|reflexivity].
  rewrite session_text_layout, CodecFacts.parse_value_open.
  rewrite parse_members_true by reflexivity. cbn -[parse_members quote js].
  rewrite CodecFacts.parse_members_quote by reflexivity. reflexivity.
Qed.

End SessionFacts.

(** The session that [getStoredSession] reads from the text of
    [saveSession]. *)
Lemma getStoredSession_session_text (today : jsstring) (b : bool) :
  getStoredSession {| storage := Some (session_text today); isLoggedIn := b |}
  = Json.JObject [ (js "loggedIn", Json.JBool true); (js "date", Json.JString today) ].
Proof.
  unfold getStoredSession, session_text. cbn [storage].
  rewrite SessionFacts.parse_session_text.
  rewrite SessionFacts.session_text_layout. reflexivity.
Qed.

Lemma session_loggedIn_saved (number_truthy : jsstring -> bool) (today : jsstring) :
  session_loggedIn number_truthy
    (Json.JObject [ (js "loggedIn", Json.JBool true); (js "date", Json.JString today) ])
  = true.
Proof. reflexivity. Qed.

Lemma truthy_saved (number_truthy : jsstring -> bool) (today : jsstring) :
  truthy number_truthy
    (Json.JObject [ (js "loggedIn", Json.JBool true); (js "date", Json.JString today) ])
  = true.
Proof. reflexivity. Qed.

Lemma session_date_is_saved (today today' : jsstring) :
  session_date_is
    (Json.JObject [ (js "loggedIn", Json.JBool true); (js "date", Json.JString today) ])
    today'
  = JsString.eqb today today'.
Proof. reflexivity. Qed.

(** X25.  A login lasts for its day.  After a login on day [d], loading
    the page again on day [d'] shows the dashboard exactly when the two days
    are the same, and otherwise removes the stored session; and the hourly
    check of a page left open keeps the user logged in on the same day and
    logs out and removes the session on another day. *)
Theorem session_lasts_for_its_day (number_truthy : jsstring -> bool)
    (d d' : jsstring) (h : Home) :
  Home_mount number_truthy d' (Home_reload (handleLogin d h))
  = {| storage := if JsString.eqb d d' then storage (handleLogin d h) else None;
       isLoggedIn := JsString.eqb d d' |}
  /\ Home_tick number_truthy d' (handleLogin d h)
     = (if JsString.eqb d d' then handleLogin d h
        else {| storage := None; isLoggedIn := false |})
  /\ isLoggedIn (handleLogin d h) = true
  /\ handleLogout (handleLogin d h) = {| storage := None; isLoggedIn := false |}.
Proof.
  unfold Home_mount, Home_tick, Home_reload, handleLogin, handleLogout, setIsLoggedIn,
    saveSession, clearSession.
  cbn [storage isLoggedIn].
  rewrite !getStoredSession_session_text.
  rewrite session_loggedIn_saved, truthy_saved, !session_date_is_saved.
  cbn [andb]. destruct (JsString.eqb d d'); cbn [negb]; repeat split.
Qed.

(** ** What every run keeps: the sub-department arrays and the legacy fields *)

Lemma rendered_table_patients (department : Department.t) (tbl : TableRef)
      (subDeptId : option jsstring) (patients : list Patient.t) :
  rendered_table department tbl = Some (subDeptId, patients) ->
  incl patients (every_patient department).
Proof.
  unfold rendered_table, every_patient. intros H p Hp.
  destruct tbl as [|j]; destruct (Department.hasSubDepartments department);
    try discriminate H.
  - injection H as _ <-. apply in_or_app. left. exact Hp.
  - destruct (nth_error (subs_or_empty department) j) as [sub|] eqn:Ej; [|discriminate].
    injection H as _ <-. apply in_or_app. right.
    apply in_flat_map. exists sub. split; [eapply nth_error_In, Ej|exact Hp].
Qed.

Lemma Forall_map_replace {A : Type} (P : A -> Prop) (test : A -> bool) (g : A -> A)
    (l : list A) :
  (forall x, P x -> P (g x)) -> Forall P l ->
  Forall P (map (fun x => if test x then g x else x) l).
Proof.
  intros Hg H. induction H as [|x l Hx _ IH]; cbn [map]; constructor; [|exact IH].
  destruct (test x); [apply Hg, Hx|exact Hx].
Qed.

Lemma handleDragEnd_incl (patients reordered : list Patient.t)
    (active : jsstring) (over : option jsstring) :
  handleDragEnd patients active over = Some reordered -> incl reordered patients.
Proof.
  unfold handleDragEnd. destruct over as [overId|]; [|discriminate].
  destruct (JsString.eqb active overId); [discriminate|].
  destruct (findIndex _ patients) as [oldIndex|] eqn:Eo; [|discriminate].
  destruct (findIndex (fun p => JsString.eqb (Patient.id p) overId) patients)
    as [newIndex|] eqn:En; [|discriminate].
  intros H. injection H as <-.
  destruct (findIndex_Some _ _ _ Eo) as (p & Hp & _).
  destruct (findIndex_Some _ _ _ En) as (q & Hq & _).
  assert (Hn : (newIndex < List.length patients)%nat)
    by (apply nth_error_Some; rewrite Hq; discriminate).
  destruct (arrayMove_spec patients oldIndex newIndex p Hp Hn) as (_ & _ & _ & H4).
  intros x Hx. exact (Permutation_in x (Permutation_sym H4) Hx).
Qed.

Section Sound.

(** A property of requirements that [syncLegacyFields] establishes and a
    change of status keeps. *)
Variable Q : Patient.t -> Prop.
Hypothesis Q_sync : forall p, Q (syncLegacyFields p).
Hypothesis Q_status : forall p s, Q p -> Q (Patient_with_status p s).

Lemma sound_await (k : Closure) (cs : list RemoteCall) (w : World) :
  closure_sound Q k -> world_sound Q w -> world_sound Q (await k cs w).
Proof.
  intros Hk [Hd Hi]. split; [exact Hd|]. cbn.
  apply Forall_app. split; [exact Hi|]. constructor; [exact Hk | constructor].
Qed.

Lemma sound_setDepartments (l : list Department.t) (w : World) :
  Forall (department_sound Q) l -> world_sound Q w -> world_sound Q (setDepartments l w).
Proof. intros Hl [_ Hi]. split; assumption. Qed.

Lemma sound_handleUpdateDepartment (updated : Department.t) (w : World) :
  department_sound Q updated -> world_sound Q w ->
  world_sound Q (handleUpdateDepartment updated w).
Proof.
  intros Hu Hw. unfold handleUpdateDepartment.
  apply sound_setDepartments.
  - destruct Hw as [Hd _]. apply Forall_forall. intros d Hin.
    apply in_map_iff in Hin as (d0 & E & H0).
    destruct (JsString.eqb (Department.id d0) (Department.id updated)).
    + subst d. exact Hu.
    + subst d. rewrite Forall_forall in Hd. apply Hd, H0.
  - apply sound_await; [|exact Hw]. cbn. apply Hw.
Qed.

(** A handler that maps sound requirement lists to sound ones builds a
    sound department. *)
Lemma update_patients_in_sound (department updated : Department.t)
      (subDeptId : option jsstring) (f : list Patient.t -> list Patient.t) :
  department_sound Q department ->
  (forall l, Forall Q l -> Forall Q (f l)) ->
  update_patients_in department subDeptId f = Some updated ->
  department_sound Q updated.
Proof.
  intros [Hs Hq] Hf Hu. unfold update_patients_in in Hu.
  unfold every_patient in Hq. apply Forall_app in Hq as [Hq1 Hq2].
  destruct (opt_truthy subDeptId && Department.hasSubDepartments department).
  - destruct (Department.subDepartments department) as [subs|] eqn:Es; [|discriminate].
    injection Hu as <-. split; [intros _; discriminate|].
    unfold every_patient, subs_or_empty in *. rewrite Es in Hq2.
    cbn [Department_with_subDepartments Department.patients Department.subDepartments].
    apply Forall_app. split; [exact Hq1|].
    apply Forall_forall. intros p Hp.
    apply in_flat_map in Hp as (s' & Hs' & Hp).
    apply in_map_iff in Hs' as (s & <- & Hin).
    assert (Hsub : Forall Q (SubDepartment.patients s)).
    { apply Forall_forall. intros q Hq'. rewrite Forall_forall in Hq2. apply Hq2.
      apply in_flat_map. exists s. split; assumption. }
    destruct (JsString.eqb (SubDepartment.id s) (opt_or_empty subDeptId)).
    + cbn [SubDepartment_with_patients SubDepartment.patients] in Hp.
      exact (proj1 (Forall_forall _ _) (Hf _ Hsub) p Hp).
    + exact (proj1 (Forall_forall _ _) Hsub p Hp).
  - injection Hu as <-. split; [exact Hs|].
    unfold every_patient, subs_or_empty in *.
    cbn [Department_with_patients Department.patients Department.subDepartments].
    apply Forall_app. split; [apply Hf, Hq1|exact Hq2].
Qed.

Lemma sound_card_event (department : Department.t) (a : CardAction) (w : World) :
  department_sound Q department -> world_sound Q w -> world_sound Q (card_event department a w).
Proof.
  intros Hk Hw. pose proof (proj2 Hk) as Hq. rewrite Forall_forall in Hq.
  destruct a; cbn [card_event].
  - destruct (rendered_table department tbl) as [[subDeptId patients]|] eqn:Er; [|exact Hw].
    unfold handleSavePatientForm.
    destruct (update_patients_in department (or_null subDeptId) _) as [updated|] eqn:Eu;
      [|exact Hw].
    apply sound_await; [|exact Hw]. split; [exact Hk|].
    eapply update_patients_in_sound; [exact Hk | | exact Eu].
    intros l Hl. apply Forall_app. split; [exact Hl|].
    constructor; [apply Q_sync|constructor].
  - destruct (rendered_table department tbl) as [[subDeptId patients]|] eqn:Er; [|exact Hw].
    destruct (nth_error patients row) as [patient|]; [|exact Hw].
    unfold handleSavePatientForm.
    destruct (update_patients_in department (or_null subDeptId) _) as [updated|] eqn:Eu;
      [|exact Hw].
    unfold savePatientForm_commit.
    apply sound_await; [exact Hk|].
    apply sound_handleUpdateDepartment; [|exact Hw].
    eapply update_patients_in_sound; [exact Hk | | exact Eu].
    intros l Hl. apply (Forall_map_replace Q _ (fun _ => _)); [|exact Hl].
    intros _ _. apply Q_sync.
  - destruct (rendered_table department tbl) as [[subDeptId patients]|] eqn:Er; [|exact Hw].
    destruct (nth_error patients row) as [patient|]; [|exact Hw].
    unfold handleStatusChange.
    destruct (update_patients_in department subDeptId _) as [updated|] eqn:Eu; [|exact Hw].
    assert (Hu : world_sound Q (handleUpdateDepartment updated w)).
    { apply sound_handleUpdateDepartment; [|exact Hw].
      eapply update_patients_in_sound; [exact Hk | | exact Eu].
      intros l Hl.
      apply (Forall_map_replace Q _ (fun p => Patient_with_status p status));
        [|exact Hl].
      intros x Hx. apply Q_status, Hx. }
    destruct (find _ (allPatients department)); [|exact Hu].
    apply sound_await; [exact Hk | exact Hu].
  - destruct (rendered_table department tbl) as [[subDeptId patients]|] eqn:Er; [|exact Hw].
    destruct (nth_error patients row) as [patient|]; [|exact Hw].
    unfold handleSavePasienList.
    destruct (update_patients_in department (or_null subDeptId) _) as [updated|] eqn:Eu;
      [|exact Hw].
    apply sound_await; [exact Hk|].
    apply sound_handleUpdateDepartment; [|exact Hw].
    eapply update_patients_in_sound; [exact Hk | | exact Eu].
    intros l Hl. apply (Forall_map_replace Q _ (fun _ => _)); [|exact Hl].
    intros _ _. apply Q_sync.
  - destruct (rendered_table department tbl) as [[subDeptId patients]|] eqn:Er; [|exact Hw].
    destruct (nth_error patients row) as [patient|]; [|exact Hw].
    unfold confirmDeletePatient.
    destruct (opt_truthy (Some (Patient.id patient))); [|exact Hw].
    destruct (update_patients_in department (or_null subDeptId) _) as [updated|] eqn:Eu;
      [|exact Hw].
    apply sound_await; [exact Hk|].
    apply sound_handleUpdateDepartment; [|exact Hw].
    eapply update_patients_in_sound; [exact Hk | | exact Eu].
    intros l Hl. apply Forall_forall. intros x Hx. apply filter_In in Hx as [Hx _].
    exact (proj1 (Forall_forall _ _) Hl x Hx).
  - destruct (rendered_table department tbl) as [[subDeptId patients]|] eqn:Er; [|exact Hw].
    destruct (handleDragEnd patients active over) as [reordered|] eqn:Ed; [|exact Hw].
    unfold handleReorderPatients.
    destruct (update_patients_in department subDeptId _) as [updated|] eqn:Eu; [|exact Hw].
    apply sound_await; [exact Hk|].
    apply sound_handleUpdateDepartment; [|exact Hw].
    eapply update_patients_in_sound; [exact Hk | | exact Eu].
    intros l _. apply Forall_forall. intros x Hx. apply Hq.
    eapply rendered_table_patients; [exact Er|].
    eapply handleDragEnd_incl; eassumption.
  - destruct (Department.hasSubDepartments department) eqn:Hs; [|exact Hw].
    unfold handleAddSubDept.
    destruct (JsString.falsy (JsString.trim name)); [exact Hw|].
    apply sound_await; [exact Hk|].
    apply sound_handleUpdateDepartment; [|exact Hw].
    split; [intros _; discriminate|].
    unfold every_patient, subs_or_empty.
    cbn [Department_with_subDepartments Department.patients Department.subDepartments].
    rewrite flat_map_app. cbn [flat_map SubDepartment.patients app]. rewrite app_nil_r.
    apply Forall_forall. exact Hq.
Qed.

Lemma sound_resume (k : Closure) (ok : bool) (w : World) :
  closure_sound Q k -> world_sound Q w -> world_sound Q (resume k ok w).
Proof.
  intros Hk Hw.
  destruct k; cbn [resume closure_sound] in *; destruct ok;
    try exact Hw;
    try (apply sound_setDepartments; [exact Hk | exact Hw]);
    try (apply sound_handleUpdateDepartment; [exact Hk | exact Hw]).
  destruct Hk as [Hd Hu]. unfold savePatientForm_commit.
  apply sound_await; [exact Hd|].
  apply sound_handleUpdateDepartment; [exact Hu | exact Hw].
Qed.

Lemma sound_step (w : World) (e : Event) : world_sound Q w -> world_sound Q (step w e).
Proof.
  intros Hw. destruct e; cbn [step].
  - unfold AddDepartmentModal_handleSubmit.
    destruct (JsString.falsy (JsString.trim name)); [exact Hw|].
    unfold handleAddDepartment. apply sound_setDepartments.
    + apply Forall_app. split; [apply Hw|]. constructor; [|constructor].
      split; [|destruct hasSub; constructor].
      intros Hs. cbn in *. subst hasSub. discriminate.
    + apply sound_await; [|exact Hw]. cbn. apply Hw.
  - destruct (nth_error (departments w) card) as [dept|]; [|exact Hw].
    unfold handleDeleteDepartment. apply sound_setDepartments.
    + destruct Hw as [Hd _]. rewrite Forall_forall in *. intros d Hin.
      apply filter_In in Hin as [Hin _]. apply Hd, Hin.
    + apply sound_await; [|exact Hw]. cbn. apply Hw.
  - destruct (nth_error (departments w) card) as [department|] eqn:Ec; [|exact Hw].
    apply sound_card_event; [|exact Hw].
    destruct Hw as [Hd _]. rewrite Forall_forall in Hd. apply Hd.
    eapply nth_error_In, Ec.
  - destruct editing as [row|].
    + destruct (nth_error (appointments w) row); [|exact Hw].
      unfold Appointments_handleSubmit. apply sound_await; [exact I | exact Hw].
    + unfold Appointments_handleSubmit. apply sound_await; [exact I | exact Hw].
  - destruct (nth_error (appointments w) row); [|exact Hw].
    unfold Appointments_confirmDelete.
    destruct (opt_truthy _); [|exact Hw].
    apply sound_await; [exact I | exact Hw].
  - destruct (nth_error (appointments w) row); [|exact Hw].
    unfold toggleChecklist. destruct (find _ _); [|exact Hw].
    apply sound_await; [exact I | exact Hw].
  - destruct (nth_error (weeklySlots w) row) as [slot|]; [|exact Hw].
    destruct (slot_rendered slot); [|exact Hw].
    assert (G : world_sound Q (WeeklyPlanning_handleSave (Some (WeeklySlot.id slot)) day form w)).
    { unfold WeeklyPlanning_handleSave.
      destruct (negb (opt_truthy (Some (WeeklySlot.id slot))) || saving w); [exact Hw|].
      destruct (valueToSave form w); [|exact Hw].
      unfold updateSlot. destruct (find _ _); [|exact Hw].
      apply sound_await; [exact I | exact Hw]. }
    destruct (parseSlotValue (WeeklySlot_get slot day)); [exact G | exact Hw | exact G].
  - destruct (nth_error (weeklySlots w) row) as [slot|]; [|exact Hw].
    destruct (slot_rendered slot); [|exact Hw].
    destruct (parseSlotValue (WeeklySlot_get slot day)); try exact Hw.
    unfold WeeklyPlanning_handleClear.
    destruct (negb (opt_truthy (Some (WeeklySlot.id slot))) || saving w); [exact Hw|].
    unfold updateSlot. destruct (find _ _); [|exact Hw].
    apply sound_await; [exact I | exact Hw].
  - unfold settle.
    destruct (nth_error (inflight w) i) as [p|] eqn:Ep; [|exact Hw].
    destruct (promise_all _ rejected) as [ok|]; [|exact Hw].
    apply sound_resume.
    + destruct Hw as [_ Hi]. rewrite Forall_forall in Hi. apply Hi.
      eapply nth_error_In, Ep.
    + destruct Hw as [Hd Hi]. split; [exact Hd|]. cbn.
      apply Forall_remove_nth, Hi.
Qed.

Lemma sound_run (es : list Event) (w : World) : world_sound Q w -> world_sound Q (run es w).
Proof.
  revert w. induction es as [|e es IH]; intros w Hw; [exact Hw|].
  cbn. apply IH, sound_step, Hw.
Qed.

Lemma initial_world_sound : world_sound Q initial_world.
Proof. split; constructor. Qed.

End Sound.

Lemma fetchDepartments_defined
    (depts : Response DepartmentRow.t) (subs : Response SubDepartmentRow.t)
    (patients : Response PatientRow.t) (photos : Response PhotoRow.t) :
  Forall (department_sound any_patient) (fetchDepartments depts subs patients photos).
Proof.
  unfold fetchDepartments. destruct (failed depts); [constructor|].
  apply Forall_forall. intros d Hd. apply in_map_iff in Hd as (row & <- & _).
  split.
  - intros _. discriminate.
  - apply Forall_forall. intros p _. exact I.
Qed.

Lemma loadAll_sound (Q : Patient.t -> Prop) (depts : list Department.t)
    (appts : list Appointment.t) (slots : list WeeklySlot.t) (w : World) :
  Forall (department_sound Q) depts -> world_sound Q w ->
  world_sound Q (fst (loadAll depts appts slots w)).
Proof.
  intros Hd [Hw Hi]. unfold loadAll.
  assert (H2 : world_sound Q
                 (if (0 <? List.length appts)%nat
                  then setAppointments appts
                         (if (0 <? List.length depts)%nat then setDepartments depts w else w)
                  else if (0 <? List.length depts)%nat then setDepartments depts w else w)).
  { destruct (0 <? List.length appts)%nat, (0 <? List.length depts)%nat;
      split; assumption. }
  destruct (List.length DEFAULT_WEEKLY <=? List.length slots)%nat; [exact H2|].
  destruct (List.length slots =? 0)%nat; exact H2.
Qed.

(** X26.  On a page that was just loaded, whatever the queries returned,
    and after any run of actions and settled calls, every department with
    [hasSubDepartments] has its [subDepartments] array: the update that the
    handlers of a card build, which reads [department.subDepartments!.map],
    never fails on a department of the page. *)
Theorem handlers_find_their_sub_departments
    (depts : Response DepartmentRow.t) (subs : Response SubDepartmentRow.t)
    (patients : Response PatientRow.t) (photos : Response PhotoRow.t)
    (appts : Response AppointmentRow.t) (slots : Response WeeklySlotRow.t)
    (es : list Event) :
  Forall
    (fun d =>
       subs_defined d
       /\ forall subDeptId f, update_patients_in d subDeptId f <> None)
    (departments
       (run es (fst (Dashboard_mount depts subs patients photos appts slots initial_world)))).
Proof.
  assert (Hw : world_sound any_patient
                 (run es (fst (Dashboard_mount depts subs patients photos appts slots
                                 initial_world)))).
  { apply sound_run; [intros p; exact I|intros p s _; exact I|].
    unfold Dashboard_mount. apply loadAll_sound.
    - apply fetchDepartments_defined.
    - apply initial_world_sound. }
  destruct Hw as [Hd _]. apply Forall_forall. intros d Hin.
  rewrite Forall_forall in Hd. destruct (Hd d Hin) as [Hs _].
  split; [exact Hs|]. intros subDeptId f. unfold update_patients_in.
  destruct (opt_truthy subDeptId); cbn [andb]; [|discriminate].
  destruct (Department.hasSubDepartments d) eqn:E; [|discriminate].
  destruct (Department.subDepartments d) eqn:Es; [discriminate|].
  exfalso. exact (Hs E Es).
Qed.

(** X27.  When every requirement on the page has its legacy fields in
    step with its entry list, so has every requirement after any run of
    actions and settled calls, rollbacks included: no handler puts a
    requirement on the page whose name, number or [hasPasien] flag differs
    from the first entry of its list. *)
Theorem legacy_fields_stay_synced (w : World) (es : list Event) :
  world_sound legacy_synced w ->
  Forall (fun d => Forall legacy_synced (every_patient d)) (departments (run es w)).
Proof.
  intros Hw.
  assert (Hrun : world_sound legacy_synced (run es w)).
  { apply sound_run; [|intros p s H; exact H|exact Hw].
    intros p. exact (proj1 (syncLegacyFields_synced p)). }
  destruct Hrun as [Hd _]. apply Forall_forall. intros d Hin.
  rewrite Forall_forall in Hd. exact (proj2 (Hd d Hin)).
Qed.

Lemma legacy_fields_stay_synced_witness :
  let acts := [ openAdd; typeNewNama (js "Budi"); typeNewTelp (js "0812"); addEntry 5 ] in
  let es :=
    [ SubmitAddDepartment (js "Konservasi") false 1;
      Card 0 (AddRequirement DirectTable (js "Scaling") BelumDikerjakan 3);
      Settle 1 None;
      Card 0 (ManagePasien DirectTable 0 acts) ] in
  world_sound legacy_synced initial_world
  /\ Forall (fun d => Forall legacy_synced (every_patient d))
       (departments (run es initial_world))
  /\ map (fun d => map Patient.namaPasien (every_patient d))
       (departments (run es initial_world))
     = [[js "Budi"]].
Proof.
  intros acts es.
  assert (H : world_sound legacy_synced initial_world)
    by exact (initial_world_sound legacy_synced).
  split; [exact H|]. split; [exact (legacy_fields_stay_synced initial_world es H)|].
  vm_compute. reflexivity.
Defined.
